(** * dash-proxy: a shallow embedding of [dashproxy.py]

    The development follows the module top to bottom: the Python string
    primitives the module relies on, the [xml.etree.ElementTree] element
    model, [baseUrl], [RepAddr], [MpdLocator], [DashProxy] and
    [DashDownloader].  Effects (HTTP requests, files written, log records,
    sleeps, the manifest tree that is rewritten in place, exceptions) are
    threaded through a small state-and-exception monad. *)

From Stdlib Require Import ZArith List String Ascii Bool Lia PeanoNat.
From Stdlib Require Import DecimalString.
Import ListNotations.
Local Open Scope string_scope.
Local Open Scope Z_scope.

Set Implicit Arguments.

(* ------------------------------------------------------------------ *)
(** ** Python values and string primitives *)

Module Py.

(** Attribute values found in an element's [attrib] dict.  Parsed XML only
    carries strings; [DashDownloader.handle_mpd] also stores ints. *)
Inductive value :=
| VStr (s : string)
| VInt (z : Z).

(** Exceptions the module can raise (none is caught anywhere in it). *)
Inductive exn :=
| KeyError (k : string)
| IndexError
| ValueError
| AttributeError
| TypeError
| ParseError
| Unsupported.

(** [str(v)] *)
Definition string_of_Z (z : Z) : string :=
  NilZero.string_of_int (Z.to_int z).

Definition str (v : value) : string :=
  match v with
  | VStr s => s
  | VInt z => string_of_Z z
  end.

(** [s.startswith(p)] *)
Fixpoint startswith (p s : string) : bool :=
  match p, s with
  | EmptyString, _ => true
  | String a p', String b s' => Ascii.eqb a b && startswith p' s'
  | String _ _, EmptyString => false
  end.

(** [s[:n]] for [0 <= n] *)
Fixpoint take (n : nat) (s : string) : string :=
  match n, s with
  | O, _ => EmptyString
  | S n', String c s' => String c (take n' s')
  | S _, EmptyString => EmptyString
  end.

(** [s.rfind(c)] for a one-character needle: [None] stands for [-1]. *)
Fixpoint rfind (c : ascii) (s : string) : option nat :=
  match s with
  | EmptyString => None
  | String a s' =>
      match rfind c s' with
      | Some i => Some (S i)
      | None => if Ascii.eqb a c then Some O else None
      end
  end.

(** [s.split(c)[0]]: the part before the first [c]. *)
Fixpoint before (c : ascii) (s : string) : string :=
  match s with
  | EmptyString => EmptyString
  | String a s' => if Ascii.eqb a c then EmptyString else String a (before c s')
  end.

(** [s.replace(old, new)] for a non-empty [old]: non-overlapping
    occurrences, leftmost first.  [skip] counts the characters of a match
    that are still to be dropped. *)
Fixpoint replace_from (skip : nat) (old new s : string) : string :=
  match s with
  | EmptyString => EmptyString
  | String c s' =>
      match skip with
      | S k => replace_from k old new s'
      | O =>
          if startswith old s
          then new ++ replace_from (Nat.pred (String.length old)) old new s'
          else String c (replace_from O old new s')
      end
  end.

Definition replace (old new s : string) : string := replace_from O old new s.

(** Whitespace accepted around the literal by [int(str)].  A character of
    a string is a code point below 256: below 128 the tab to carriage
    return and the space are skipped, above it the two characters that are
    spaces there, 133 (next line) and 160 (no-break space).  The only
    decimal digits below 256 are ["0"] to ["9"]. *)
Definition is_space (c : ascii) : bool :=
  let n := nat_of_ascii c in
  (Nat.eqb n 32 || (Nat.leb 9 n && Nat.leb n 13)
   || Nat.eqb n 133 || Nat.eqb n 160)%bool.

Definition digit_of (c : ascii) : option Z :=
  let n := nat_of_ascii c in
  if (Nat.leb 48 n && Nat.leb n 57)%bool then Some (Z.of_nat (n - 48)) else None.

Fixpoint lstrip (s : string) : string :=
  match s with
  | String c s' => if is_space c then lstrip s' else s
  | EmptyString => EmptyString
  end.

Fixpoint all_space (s : string) : bool :=
  match s with
  | EmptyString => true
  | String c s' => is_space c && all_space s'
  end.

(** Digits of a decimal literal, single underscores allowed between digits,
    trailing whitespace allowed.  [acc] is the value read so far and
    [after_digit] tells whether the previous character was a digit. *)
Fixpoint int_digits (acc : Z) (after_digit : bool) (s : string) : option Z :=
  match s with
  | EmptyString => if after_digit then Some acc else None
  | String c s' =>
      match digit_of c with
      | Some d => int_digits (10 * acc + d) true s'
      | None =>
          if (Ascii.eqb c "_" && after_digit)%bool
          then match s' with
               | String c' _ =>
                   match digit_of c' with
                   | Some _ => int_digits acc false s'
                   | None => None
                   end
               | EmptyString => None
               end
          else if (after_digit && all_space s)%bool then Some acc else None
      end
  end.

(** [int(s)] for a string: optional sign, decimal digits.  [None] is
    [ValueError]. *)
Definition int_of_string (s : string) : option Z :=
  match lstrip s with
  | String "-" r => option_map Z.opp (int_digits 0 false r)
  | String "+" r => int_digits 0 false r
  | r => int_digits 0 false r
  end.

(** [int(v)] *)
Definition int (v : value) : option Z :=
  match v with
  | VInt z => Some z
  | VStr s => int_of_string s
  end.

(** A string of characters below 128. *)
Fixpoint is_ascii (s : string) : bool :=
  match s with
  | EmptyString => true
  | String c s' => Nat.ltb (nat_of_ascii c) 128 && is_ascii s'
  end.

(** Keyword arguments handed to [str.format]: a dict in insertion order. *)
Definition kwargs := list (string * value).

Fixpoint lookup (k : string) (d : kwargs) : option value :=
  match d with
  | [] => None
  | (k', v) :: d' => if String.eqb k k' then Some v else lookup k d'
  end.

(** [d[k] = v]: an existing key keeps its position, a new key goes last. *)
Fixpoint dict_set (k : string) (v : value) (d : kwargs) : kwargs :=
  match d with
  | [] => [(k, v)]
  | (k', v') :: d' =>
      if String.eqb k k' then (k, v) :: d' else (k', v') :: dict_set k v d'
  end.

(** [d.get(k, default)] *)
Definition dict_get (k : string) (default : value) (d : kwargs) : value :=
  match lookup k d with
  | Some v => v
  | None => default
  end.

Fixpoint all_digits (s : string) : bool :=
  match s with
  | EmptyString => true
  | String c s' =>
      match digit_of c with Some _ => all_digits s' | None => false end
  end.

Fixpoint has_any (p : ascii -> bool) (s : string) : bool :=
  match s with
  | EmptyString => false
  | String c s' => p c || has_any p s'
  end.

Definition is_field_special (c : ascii) : bool :=
  (Ascii.eqb c "!" || Ascii.eqb c ":" || Ascii.eqb c "." || Ascii.eqb c "[")%bool.

(** Value of one replacement field [{name}] with no positional arguments. *)
Definition format_field (name : string) (args : kwargs) : exn + string :=
  if has_any is_field_special name then inl Unsupported
  else if all_digits name then inl IndexError
  else match lookup name args with
       | Some v => inr (str v)
       | None => inl (KeyError name)
       end.

(** Scanner state of [str.format]. *)
Inductive fmt_mode :=
| Text
| Open
| Field (rev_name : string)
| Close.

Fixpoint rev_string (acc s : string) : string :=
  match s with
  | EmptyString => acc
  | String c s' => rev_string (String c acc) s'
  end.

(** [template.format] with keyword arguments [args]: doubled braces are
    escapes, a field [{name}] is looked up in [args], a lone brace is a
    [ValueError].  Conversions, format specs and attribute or index access
    inside a field are outside the model ([Unsupported]). *)
Fixpoint format_from (m : fmt_mode) (args : kwargs) (s : string) : exn + string :=
  match s with
  | EmptyString =>
      match m with
      | Text => inr EmptyString
      | _ => inl ValueError
      end
  | String c s' =>
      let emit (x : string) (m' : fmt_mode) :=
        match format_from m' args s' with
        | inr r => inr (x ++ r)
        | inl e => inl e
        end in
      match m with
      | Text =>
          if Ascii.eqb c "{" then format_from Open args s'
          else if Ascii.eqb c "}" then format_from Close args s'
          else emit (String c EmptyString) Text
      | Close =>
          if Ascii.eqb c "}" then emit "}" Text else inl ValueError
      | Open =>
          if Ascii.eqb c "{" then emit "{" Text
          else if Ascii.eqb c "}" then
            match format_field EmptyString args with
            | inr v => emit v Text
            | inl e => inl e
            end
          else format_from (Field (String c EmptyString)) args s'
      | Field rn =>
          if Ascii.eqb c "}" then
            match format_field (rev_string EmptyString rn) args with
            | inr v => emit v Text
            | inl e => inl e
            end
          else if Ascii.eqb c "{" then
            if has_any is_field_special rn then inl Unsupported else inl ValueError
          else format_from (Field (String c rn)) args s'
      end
  end.

Definition format (s : string) (args : kwargs) : exn + string :=
  format_from Text args s.

(** [os.path.join(a, b)] on POSIX. *)
Definition ends_with_slash (s : string) : bool :=
  match rfind "/" s with
  | Some i => Nat.eqb (S i) (String.length s)
  | None => false
  end.

Definition path_join (a b : string) : string :=
  if startswith "/" b then b
  else if (Nat.eqb (String.length a) 0 || ends_with_slash a)%bool then a ++ b
  else a ++ "/" ++ b.

End Py.

(* ------------------------------------------------------------------ *)
(** ** Elements of [xml.etree.ElementTree] *)

#[warnings="-register-all"]
Inductive Element :=
| mkElement (tag : string) (attrib : Py.kwargs) (text : option string)
            (children : list Element).

Definition tag (e : Element) : string := let (t, _, _, _) := e in t.
Definition attrib (e : Element) : Py.kwargs := let (_, a, _, _) := e in a.
Definition text (e : Element) : option string := let (_, _, x, _) := e in x.
Definition children (e : Element) : list Element := let (_, _, _, c) := e in c.

Definition with_children (c : list Element) (e : Element) : Element :=
  mkElement (tag e) (attrib e) (text e) c.

Definition with_attrib (a : Py.kwargs) (e : Element) : Element :=
  mkElement (tag e) a (text e) (children e).

(** [ns = {"mpd": "urn:mpeg:dash:schema:mpd:2011"}]: the path ["mpd:X"]
    names the tag [qn "X"]. *)
Definition ns_mpd : string := "urn:mpeg:dash:schema:mpd:2011".
Definition qn (local : string) : string := "{" ++ ns_mpd ++ "}" ++ local.

Definition has_tag (t : string) (e : Element) : bool := String.eqb (tag e) t.

(** [e.findall(path, ns)] and [e.find(path, ns)] for a one-step path: the
    direct children with that tag, in document order, and the first one. *)
Definition findall (t : string) (e : Element) : list Element :=
  filter (has_tag t) (children e).

Definition find (t : string) (e : Element) : option Element :=
  List.find (has_tag t) (children e).

(** [l[i]] for [0 <= i] *)
Definition index {A} (l : list A) (i : nat) : Py.exn + A :=
  match nth_error l i with
  | Some x => inr x
  | None => inl Py.IndexError
  end.

(** [bool(e)]: an element is true when it has children. *)
Definition truthy_element (e : Element) : bool :=
  match children e with [] => false | _ :: _ => true end.

(** [bool(v)] for an attribute value. *)
Definition truthy (v : Py.value) : bool :=
  match v with
  | Py.VStr s => negb (String.eqb s "")
  | Py.VInt z => negb (z =? 0)
  end.

(** In-place changes to a node reached through its parent: the first child
    with a tag, and the [n]-th child with a tag. *)
Fixpoint update_first (t : string) (f : Element -> Element)
         (l : list Element) : list Element :=
  match l with
  | [] => []
  | e :: l' => if has_tag t e then f e :: l' else e :: update_first t f l'
  end.

Fixpoint update_nth (t : string) (n : nat) (f : Element -> Element)
         (l : list Element) : list Element :=
  match l with
  | [] => []
  | e :: l' =>
      if has_tag t e then
        match n with
        | O => f e :: l'
        | S n' => e :: update_nth t n' f l'
        end
      else e :: update_nth t n f l'
  end.

Definition on_first (t : string) (f : Element -> Element) (e : Element) : Element :=
  with_children (update_first t f (children e)) e.

Definition on_nth (t : string) (n : nat) (f : Element -> Element) (e : Element) : Element :=
  with_children (update_nth t n f (children e)) e.

(** [parent.remove(child)] for the first child with tag [t]. *)
Fixpoint remove_first (t : string) (l : list Element) : list Element :=
  match l with
  | [] => []
  | e :: l' => if has_tag t e then l' else e :: remove_first t l'
  end.

(** [l.insert(i, x)] for [0 <= i]: past the end it appends. *)
Fixpoint list_insert {A} (i : nat) (x : A) (l : list A) : list A :=
  match i, l with
  | O, _ => x :: l
  | S i', y :: l' => y :: list_insert i' x l'
  | S _, [] => [x]
  end.

(* ------------------------------------------------------------------ *)
(** ** [baseUrl] *)

Definition baseUrl (url : string) : string :=
  match Py.rfind "/" url with
  | Some idx => Py.take (idx + 1) url
  | None => url
  end.

(* ------------------------------------------------------------------ *)
(** ** [RepAddr] *)

(** [RepAddr] defines neither [__eq__] nor [__hash__]: as a dict key it is
    compared by object identity, kept here as [oid]. *)
Record RepAddr := mkRepAddr {
  oid : nat;
  period_idx : nat;
  adaptation_set_idx : nat;
  representation_idx : nat
}.

Definition same_object (a b : RepAddr) : bool := Nat.eqb (oid a) (oid b).

(* ------------------------------------------------------------------ *)
(** ** [MpdLocator] *)

Module MpdLocator.

Definition adaptation_set (mpd : Element) (rep_addr : RepAddr) : Py.exn + Element :=
  match index (findall (qn "Period") mpd) (period_idx rep_addr) with
  | inl e => inl e
  | inr period =>
      index (findall (qn "AdaptationSet") period) (adaptation_set_idx rep_addr)
  end.

Definition representation (mpd : Element) (rep_addr : RepAddr) : Py.exn + Element :=
  match adaptation_set mpd rep_addr with
  | inl e => inl e
  | inr aset =>
      index (findall (qn "Representation") aset) (representation_idx rep_addr)
  end.

Definition base_url (mpd : Element) (rep_addr : RepAddr) : Py.exn + option Element :=
  match representation mpd rep_addr with
  | inl e => inl e
  | inr rep => inr (find (qn "BaseURL") rep)
  end.

Definition segment_template (mpd : Element) (rep_addr : RepAddr)
  : Py.exn + option Element :=
  match representation mpd rep_addr with
  | inl e => inl e
  | inr rep =>
      match find (qn "SegmentTemplate") rep with
      | Some rep_st => inr (Some rep_st)
      | None =>
          match adaptation_set mpd rep_addr with
          | inl e => inl e
          | inr aset => inr (find (qn "SegmentTemplate") aset)
          end
      end
  end.

Definition segment_timeline (mpd : Element) (rep_addr : RepAddr)
  : Py.exn + option Element :=
  match segment_template mpd rep_addr with
  | inl e => inl e
  | inr None => inl Py.AttributeError
  | inr (Some st) => inr (find (qn "SegmentTimeline") st)
  end.

(** The timeline node is changed in place by [DashDownloader.handle_mpd].
    In the tree that is a change at the place [segment_timeline] reads:
    under the representation's own template when it has one, under the
    adaptation set's otherwise. *)
Definition set_segment_timeline (mpd : Element) (rep_addr : RepAddr)
           (tl : Element) : Element :=
  let in_template := on_first (qn "SegmentTimeline") (fun _ => tl) in
  let in_owner := on_first (qn "SegmentTemplate") in_template in
  let in_aset (aset : Element) :=
    match index (findall (qn "Representation") aset) (representation_idx rep_addr) with
    | inr rep =>
        match find (qn "SegmentTemplate") rep with
        | Some _ => on_nth (qn "Representation") (representation_idx rep_addr) in_owner aset
        | None => in_owner aset
        end
    | inl _ => aset
    end in
  on_nth (qn "Period") (period_idx rep_addr)
         (on_nth (qn "AdaptationSet") (adaptation_set_idx rep_addr) in_aset) mpd.

End MpdLocator.

(* ------------------------------------------------------------------ *)
(** ** The world: proxy object, manifest tree, collaborators *)

(** What [requests.get] answers: [status_code] and the body ([r.text],
    [r.content]). *)
Record Response := mkResponse {
  status_code : Z;
  body : string
}.

(** Second and third positional argument of [requests.get]: the header and
    cookie dicts, or whatever else a call site passes there. *)
Inductive arg :=
| ArgDict (d : list (string * string))
| ArgElem (e : Element).

Inductive level := DEBUG | VERBOSE | INFO | WARNING | ERROR.

(** Arguments of a log record, kept next to its format string. *)
Inductive logarg :=
| AStr (s : string)
| AInt (z : Z)
| AVal (v : Py.value)
| AElems (l : list Element)
| AAddr (a : RepAddr).

Inductive event :=
| Sleep (secs : Z)
| Get (url : string) (params cookies : arg)
| WriteFile (path content : string)
| Log (lv : level) (fmt : string) (args : list logarg).

Record DashDownloader := mkDashDownloader {
  rep_addr : RepAddr;
  mpd_base_url : string;
  initialization_downloaded : bool
}.

Record DashProxy := mkDashProxy {
  mpd : string;
  output_dir : string;
  download : bool;
  save_mpds : bool;
  headers : arg;
  cookies : arg;
  i_refresh : Z;
  downloaders : list (RepAddr * DashDownloader)
}.

(** [tree] is the manifest object of the running cycle: every reference to
    it ([mpd] in [DashProxy.handle_mpd], [self.mpd] of a downloader, the
    nodes a locator returns) is a reference into this one object.
    [next_oid] numbers the [RepAddr] objects, [requests] counts the HTTP
    requests made so far and [trace] lists the effects in order. *)
Record World := mkWorld {
  proxy : DashProxy;
  tree : Element;
  next_oid : nat;
  requests : nat;
  trace : list event
}.

Definition set_proxy (f : DashProxy -> DashProxy) (w : World) : World :=
  mkWorld (f (proxy w)) (tree w) (next_oid w) (requests w) (trace w).

Definition set_tree (t : Element) (w : World) : World :=
  mkWorld (proxy w) t (next_oid w) (requests w) (trace w).

Definition emit (e : event) (w : World) : World :=
  mkWorld (proxy w) (tree w) (next_oid w) (requests w) (trace w ++ [e]).

Definition set_i_refresh (n : Z) (p : DashProxy) : DashProxy :=
  mkDashProxy (mpd p) (output_dir p) (download p) (save_mpds p) (headers p)
              (cookies p) n (downloaders p).

Definition set_downloaders (ds : list (RepAddr * DashDownloader)) (p : DashProxy)
  : DashProxy :=
  mkDashProxy (mpd p) (output_dir p) (download p) (save_mpds p) (headers p)
              (cookies p) (i_refresh p) ds.

(** The [downloaders] dict, keyed by object identity. *)
Fixpoint lookup_downloader (a : RepAddr) (ds : list (RepAddr * DashDownloader))
  : option DashDownloader :=
  match ds with
  | [] => None
  | (k, d) :: ds' => if same_object k a then Some d else lookup_downloader a ds'
  end.

Fixpoint store_downloader (a : RepAddr) (d : DashDownloader)
         (ds : list (RepAddr * DashDownloader)) : list (RepAddr * DashDownloader) :=
  match ds with
  | [] => [(a, d)]
  | (k, d') :: ds' =>
      if same_object k a then (k, d) :: ds' else (k, d') :: store_downloader a d ds'
  end.

Definition contains (a : RepAddr) (ds : list (RepAddr * DashDownloader)) : bool :=
  match lookup_downloader a ds with Some _ => true | None => false end.

(** *** State and exceptions *)

Inductive outcome (A : Type) :=
| Ok (a : A) (w : World)
| Raise (e : Py.exn) (w : World)
| OutOfFuel.

Arguments Ok {A} a w.
Arguments Raise {A} e w.
Arguments OutOfFuel {A}.

Definition M (A : Type) := World -> outcome A.

Definition ret {A} (a : A) : M A := fun w => Ok a w.

Definition bind {A B} (m : M A) (k : A -> M B) : M B :=
  fun w =>
    match m w with
    | Ok a w' => k a w'
    | Raise e w' => Raise e w'
    | OutOfFuel => OutOfFuel
    end.

Definition raise {A} (e : Py.exn) : M A := fun w => Raise e w.

Definition gets {A} (f : World -> A) : M A := fun w => Ok (f w) w.

Definition modify (f : World -> World) : M unit := fun w => Ok tt (f w).

Definition lift {A} (r : Py.exn + A) : M A :=
  match r with
  | inr a => ret a
  | inl e => raise e
  end.

Definition lift_opt {A} (e : Py.exn) (r : option A) : M A :=
  match r with
  | Some a => ret a
  | None => raise e
  end.

Declare Scope py_scope.
Delimit Scope py_scope with py.
Notation "x <- m ;; k" := (bind m (fun x => k))
  (at level 61, m at next level, right associativity) : py_scope.
Notation "m ;; k" := (bind m (fun _ => k))
  (at level 61, right associativity) : py_scope.
Local Open Scope py_scope.

(** [for i, x in enumerate(l): body(i, x)], counting from [i]. *)
Fixpoint for_enumerate {A} (i : nat) (l : list A) (body : nat -> A -> M unit)
  : M unit :=
  match l with
  | [] => ret tt
  | x :: l' => body i x ;; for_enumerate (S i) l' body
  end.

(** [HasLogger]: every call makes a record, whatever the logger's level. *)
Definition log (lv : level) (fmt : string) (args : list logarg) : M unit :=
  modify (emit (Log lv fmt args)).

Definition verbose := log VERBOSE.
Definition info := log INFO.
Definition warning := log WARNING.
Definition error := log ERROR.

Definition time_sleep (secs : Z) : M unit := modify (emit (Sleep secs)).

(* ------------------------------------------------------------------ *)
(** ** [DashDownloader] and [DashProxy] *)

Section Program.

(** The collaborators: the server behind [requests.get], which answers the
    [n]-th request for a URL and is handed the call's second and third
    positional arguments as they are; the XML parser ([None] is a parse
    error); the serialiser. *)
Variable http_get : nat -> string -> Response.
Variable fromstring : string -> option Element.
Variable tostring : Element -> string.

Definition requests_get (url : string) (params cks : arg) : M Response :=
  fun w =>
    Ok (http_get (requests w) url)
       (mkWorld (proxy w) (tree w) (next_oid w) (S (requests w))
                (trace w ++ [Get url params cks])).

Definition success (r : Response) : bool :=
  (200 <=? status_code r) && (status_code r <? 300).

(** *** [DashDownloader]

    A downloader object lives in the [downloaders] dict; [self] is the key
    it is stored under, which is also its [rep_addr]. *)

Definition self_downloader (self : RepAddr) : M DashDownloader :=
  ds <- gets (fun w => downloaders (proxy w)) ;;
  lift_opt Py.Unsupported (lookup_downloader self ds).

Definition update_self (self : RepAddr) (f : DashDownloader -> DashDownloader)
  : M unit :=
  d <- self_downloader self ;;
  modify (set_proxy (fun p => set_downloaders (store_downloader self (f d) (downloaders p)) p)).

Definition render_template (template : Py.value)
           (representation segment : option Element) : Py.exn + string :=
  match template with
  | Py.VInt _ => inl Py.AttributeError
  | Py.VStr template =>
      let template := Py.replace "$RepresentationID$" "{representation_id}" template in
      let template := Py.replace "$Time$" "{time}" template in
      let template := Py.replace "$Number%05d$" "{number}" template in
      let args : Py.kwargs := [] in
      let args :=
        match representation with
        | Some representation =>
            Py.dict_set "representation_id"
                        (Py.dict_get "id" (Py.VStr "") (attrib representation)) args
        | None => args
        end in
      let args :=
        match segment with
        | Some segment =>
            Py.dict_set "number" (Py.dict_get "i" (Py.VStr "") (attrib segment))
              (Py.dict_set "time" (Py.dict_get "t" (Py.VStr "") (attrib segment)) args)
        | None => args
        end in
      Py.format template args
  end.

Definition full_url (self : RepAddr) (dest : string) : M string :=
  d <- self_downloader self ;;
  ret (mpd_base_url d ++ dest).

(** [write]: the query string is cut off and the file lands under
    [output_dir]; directory creation is left to the file system. *)
Definition write (dest content : string) : M unit :=
  let dest := Py.before "?" dest in
  out <- gets (fun w => output_dir (proxy w)) ;;
  modify (emit (WriteFile (Py.path_join out dest) content)).

Definition download_template (self : RepAddr) (template : Py.value)
           (hdrs cks : arg) (representation segment : option Element) : M unit :=
  dest <- lift (render_template template representation segment) ;;
  dest_url <- full_url self dest ;;
  info "requesting %s from %s" [AStr dest; AStr dest_url] ;;
  r <- requests_get dest_url hdrs cks ;;
  if success r then write dest (body r)
  else error "cannot download %s server returned %d"
             [AStr dest_url; AInt (status_code r)].

Definition download_single (self : RepAddr) (hdrs cks : arg) : M unit :=
  mpd <- gets tree ;;
  node <- lift (MpdLocator.base_url mpd self) ;;
  node <- lift_opt Py.AttributeError node ;;
  dest <- lift_opt Py.TypeError (text node) ;;
  dest_url <- full_url self dest ;;
  info "download_single requesting %s from %s" [AStr dest; AStr dest_url] ;;
  r <- requests_get dest_url hdrs cks ;;
  if success r then write dest (body r)
  else error "cannot download %s server returned %d"
             [AStr dest_url; AInt (status_code r)].

(** The timeline node is shared with the tree: a change to it is a change
    to the tree. *)
Definition put_timeline (self : RepAddr) (tl : Element) : M unit :=
  modify (fun w => set_tree (MpdLocator.set_segment_timeline (tree w) self tl) w).

(** Lines 281-282: every [S] child found is removed from the timeline. *)
Definition remove_segments (tl : Element) : Element :=
  fold_left (fun tl' _ => with_children (remove_first (qn "S") (children tl')) tl')
            (findall (qn "S") tl) tl.

Definition new_S (duration : Z) (idx : nat) : Element :=
  mkElement (qn "S")
            [("d", Py.VInt duration); ("i", Py.VInt (Z.of_nat idx + 1))] None [].

(** Lines 287-294: what [n] passes of the inner loop do to the timeline
    node.  The record each pass makes on line 293 is made by [appended]. *)
Fixpoint insert_run (n : nat) (duration : Z) (idx : nat) (tl : Element)
  : nat * Element :=
  match n with
  | O => (idx, tl)
  | S n' =>
      let elem := new_S duration idx in
      insert_run n' duration (S idx)
                 (with_children (list_insert idx elem (children tl)) tl)
  end.

(** Lines 283-294, as far as the timeline node goes: the number of
    elements inserted and the node, at the end of the loop or where an
    [int()] failed. *)
Fixpoint expand_loop (segments : list Element) (idx : nat) (tl : Element)
  : (Py.exn * (nat * Element)) + (nat * Element) :=
  match segments with
  | [] => inr (idx, tl)
  | segment :: rest =>
      match Py.int (Py.dict_get "d" (Py.VStr "0") (attrib segment)) with
      | None => inl (Py.ValueError, (idx, tl))
      | Some duration =>
          match Py.int (Py.dict_get "r" (Py.VStr "0") (attrib segment)) with
          | None => inl (Py.ValueError, (idx, tl))
          | Some repeat =>
              let (idx', tl') := insert_run (Z.to_nat (repeat + 1)) duration idx tl in
              expand_loop rest idx' tl'
          end
      end
  end.

Definition set_t (next_time : Z) (segment : Element) : Element :=
  with_attrib (Py.dict_set "t" (Py.VInt next_time) (attrib segment)) segment.

(** [rep] was read on line 264 and is the node at [self] in the tree: what
    a call that is handed [rep] later receives is that node as the tree has
    it by then. *)
Definition live_representation (self : RepAddr) (rep : Element) : M Element :=
  gets (fun w => match MpdLocator.representation (tree w) self with
                 | inr node => node
                 | inl _ => rep
                 end).

(** Lines 298-305.  [segments] is the list [findall] returned before the
    loop, [k] the position of its head among the [S] children of the
    timeline [tl].  The call on line 305 passes three positional arguments:
    the template, [rep] as [headers] and [segment] as [cookies]. *)
Fixpoint media_loop (self : RepAddr) (media_template : Py.value) (rep : Element)
         (k : nat) (segments : list Element) (next_time : Z) (tl : Element)
  : M Element :=
  match segments with
  | [] => ret tl
  | segment :: rest =>
      current_time <- lift_opt Py.ValueError
        (Py.int (Py.dict_get "t" (Py.VStr "-1") (attrib segment))) ;;
      let go (segment : Element) (next_time : Z) (tl : Element) : M Element :=
        d <- lift_opt Py.ValueError
          (Py.int (Py.dict_get "d" (Py.VStr "0") (attrib segment))) ;;
        node <- live_representation self rep ;;
        download_template self media_template (ArgElem node) (ArgElem segment)
                          None None ;;
        media_loop self media_template rep (S k) rest (next_time + d) tl in
      if current_time =? -1 then
        let tl' := on_nth (qn "S") k (set_t next_time) tl in
        put_timeline self tl' ;;
        go (set_t next_time segment) next_time tl'
      else go segment current_time tl
  end.

(** Line 293: one record for each of the [n] elements inserted.  Nothing
    else is recorded while lines 280-294 run. *)
Fixpoint appended (n : nat) : M unit :=
  match n with
  | O => ret tt
  | S n' => verbose "appending a new elem" [] ;; appended n'
  end.

(** Lines 280-294: the [S] children of the timeline node are removed and
    the expanded ones inserted, in the tree. *)
Definition expand_timeline (self : RepAddr) (segment_timeline : Element)
  : M Element :=
  let segments := findall (qn "S") segment_timeline in
  let removed := remove_segments segment_timeline in
  put_timeline self removed ;;
  match expand_loop segments 0 removed with
  | inl (e, (n, tl)) => put_timeline self tl ;; appended n ;; raise e
  | inr (n, tl) => put_timeline self tl ;; appended n ;; ret tl
  end.

Definition set_mpd_base_url (u : string) (d : DashDownloader) : DashDownloader :=
  mkDashDownloader (rep_addr d) u (initialization_downloaded d).

Definition set_initialization_downloaded (b : bool) (d : DashDownloader)
  : DashDownloader :=
  mkDashDownloader (rep_addr d) (mpd_base_url d) b.

Definition DashDownloader_handle_mpd (self : RepAddr) (base_url : string)
           (hdrs cks : arg) : M unit :=
  update_self self (set_mpd_base_url base_url) ;;
  mpd <- gets tree ;;
  rep <- lift (MpdLocator.representation mpd self) ;;
  segment_template <- lift (MpdLocator.segment_template mpd self) ;;
  match segment_template with
  | None => download_single self hdrs cks
  | Some segment_template =>
      segment_timeline <- lift (MpdLocator.segment_timeline mpd self) ;;
      let initialization_template :=
        Py.dict_get "initialization" (Py.VStr "") (attrib segment_template) in
      d <- self_downloader self ;;
      (if truthy initialization_template && negb (initialization_downloaded d)
       then update_self self (set_initialization_downloaded true) ;;
            download_template self initialization_template hdrs cks (Some rep) None
       else ret tt) ;;
      segment_timeline <- lift_opt Py.AttributeError segment_timeline ;;
      segment_timeline <- expand_timeline self segment_timeline ;;
      let media_template :=
        Py.dict_get "media" (Py.VStr "") (attrib segment_template) in
      media_loop self media_template rep 0 (findall (qn "S") segment_timeline) 0
                 segment_timeline ;;
      ret tt
  end.

(** *** [DashProxy] *)

Definition retry_interval : Z := 10.

Definition get_base_url (self_mpd : string) (mpd : Element) : Py.exn + string :=
  let base_url := inr (baseUrl self_mpd) in
  let base_url :=
    match find (qn "Location") mpd with
    | Some location =>
        match text location with
        | Some t => inr (baseUrl t)
        | None => inl Py.AttributeError
        end
    | None => base_url
    end in
  match base_url with
  | inl e => inl e
  | inr base_url =>
      match find (qn "BaseUrl") mpd with
      | Some baseUrlNode =>
          if truthy_element baseUrlNode then
            match text baseUrlNode with
            | None => inl Py.AttributeError
            | Some t =>
                if Py.startswith "http://" t || Py.startswith "https://" t
                then inr (baseUrl t)
                else inr (base_url ++ t)
            end
          else inr base_url
      | None => inr base_url
      end
  end.

Definition new_RepAddr (p a r : nat) : M RepAddr :=
  fun w =>
    Ok (mkRepAddr (next_oid w) p a r)
       (mkWorld (proxy w) (tree w) (S (next_oid w)) (requests w) (trace w)).

Definition ensure_downloader (rep_addr : RepAddr) : M unit :=
  ds <- gets (fun w => downloaders (proxy w)) ;;
  if contains rep_addr ds then
    verbose "A downloader for %s already started" [AAddr rep_addr]
  else
    info "Starting a downloader for %s" [AAddr rep_addr] ;;
    let downloader := mkDashDownloader rep_addr "" false in
    modify (set_proxy (fun p =>
      set_downloaders (store_downloader rep_addr downloader (downloaders p)) p)) ;;
    self_mpd <- gets (fun w => mpd (proxy w)) ;;
    mpd <- gets tree ;;
    base_url <- lift (get_base_url self_mpd mpd) ;;
    hdrs <- gets (fun w => headers (proxy w)) ;;
    cks <- gets (fun w => cookies (proxy w)) ;;
    DashDownloader_handle_mpd rep_addr base_url hdrs cks.

Definition write_file (dest content : string) : M unit :=
  modify (emit (WriteFile dest content)).

Definition write_output_mpd (mpd : Element) : M unit :=
  info "Writing the update MPD file" [] ;;
  let content := tostring mpd in
  out <- gets (fun w => output_dir (proxy w)) ;;
  write_file (Py.path_join out "manifest.mpd") content ;;
  keep <- gets (fun w => save_mpds (proxy w)) ;;
  if keep : bool then
    n <- gets (fun w => i_refresh (proxy w)) ;;
    write_file (Py.path_join out ("manifest." ++ Py.string_of_Z n ++ ".mpd")) content
  else ret tt.

(** Lines 183-201.  The two lists enumerated are the ones [findall]
    returned; driving a downloader changes children of timeline nodes
    only. *)
Definition drive_representations (mpd : Element) : M unit :=
  let periods := findall (qn "Period") mpd in
  log INFO "mpd=%s" [AElems periods] ;;
  log VERBOSE "Found %d periods choosing the 1st one"
      [AInt (Z.of_nat (List.length periods))] ;;
  period <- lift (index periods 0) ;;
  for_enumerate 0 (findall (qn "AdaptationSet") period)
    (fun as_idx adaptation_set =>
       for_enumerate 0 (findall (qn "Representation") adaptation_set)
         (fun rep_idx representation =>
            verbose "Found representation with id %s"
                    [AVal (Py.dict_get "id" (Py.VStr "UKN") (attrib representation))] ;;
            rep_addr <- new_RepAddr 0 as_idx rep_idx ;;
            ensure_downloader rep_addr)).

(** [DashProxy.handle_mpd]; [refresh_mpd] is the method it calls back. *)
Definition DashProxy_handle_mpd (refresh_mpd : Z -> M unit) (mpd : Element)
  : M unit :=
  let original_mpd := mpd in
  modify (set_tree mpd) ;;
  drive_representations mpd ;;
  write_output_mpd original_mpd ;;
  let minimum_update_period :=
    Py.dict_get "minimumUpdatePeriod" (Py.VStr "") (attrib mpd) in
  if truthy minimum_update_period then refresh_mpd 10
  else info "VOD MPD. Nothing more to do. Stopping..." [].

(** Lines 149-153: the counter, the delay and the request. *)
Definition request_mpd (after : Z) : M Response :=
  modify (set_proxy (fun p => set_i_refresh (i_refresh p + 1) p)) ;;
  (if 0 <? after then time_sleep after else ret tt) ;;
  url <- gets (fun w => mpd (proxy w)) ;;
  hdrs <- gets (fun w => headers (proxy w)) ;;
  cks <- gets (fun w => cookies (proxy w)) ;;
  requests_get url hdrs cks.

Definition warn_retry (r : Response) : M unit :=
  log WARNING "Cannot GET the MPD. Server returned %s. Retrying after %ds"
      [AInt (status_code r); AInt retry_interval].

(** [refresh_mpd] calls itself on a failed fetch and is called back by
    [handle_mpd] for a live manifest: [fuel] bounds the depth of calls. *)
Fixpoint refresh_mpd (fuel : nat) (after : Z) : M unit :=
  match fuel with
  | O => fun _ => OutOfFuel
  | S fuel' =>
      r <- request_mpd after ;;
      (if negb (success r) then
         warn_retry r ;;
         refresh_mpd fuel' retry_interval
       else ret tt) ;;
      mpd <- lift_opt Py.ParseError (fromstring (body r)) ;;
      DashProxy_handle_mpd (refresh_mpd fuel') mpd
  end.

Definition run (fuel : nat) : M unit :=
  url <- gets (fun w => mpd (proxy w)) ;;
  out <- gets (fun w => output_dir (proxy w)) ;;
  log INFO "Running dash proxy for stream %s. Output goes in %s" [AStr url; AStr out] ;;
  refresh_mpd fuel 0.

End Program.

(* ------------------------------------------------------------------ *)
(** ** Reading results *)

(** What an [S] element of an expanded timeline says: its sequence number
    (attribute [i]) and its start time (attribute [t]). *)
Definition descriptor (s : Element) : option Py.value * option Py.value :=
  (Py.lookup "i" (attrib s), Py.lookup "t" (attrib s)).

Definition descr (number start : Z) : option Py.value * option Py.value :=
  (Some (Py.VInt number), Some (Py.VInt start)).

Definition world_of {A} (o : outcome A) : option World :=
  match o with
  | Ok _ w => Some w
  | Raise _ w => Some w
  | OutOfFuel => None
  end.

Definition is_get (e : event) : bool :=
  match e with Get _ _ _ => true | _ => false end.

Definition is_write (e : event) : bool :=
  match e with WriteFile _ _ => true | _ => false end.

Definition urls (t : list event) : list string :=
  flat_map (fun e => match e with Get u _ _ => [u] | _ => [] end) t.

(** The record [ensure_downloader] makes for the address it is given. *)
Definition ensured (e : event) : list RepAddr :=
  match e with
  | Log _ fmt [AAddr a] =>
      if String.eqb fmt "Starting a downloader for %s"
         || String.eqb fmt "A downloader for %s already started"
      then [a] else []
  | _ => []
  end.

(** A computation that only appends events satisfying [P] to the trace. *)
Definition adds (P : event -> Prop) {A} (m : M A) : Prop :=
  forall w,
    match m w with
    | Ok _ w' | Raise _ w' =>
        exists evs, trace w' = (trace w ++ evs)%list /\ Forall P evs
    | OutOfFuel => True
    end.

Definition quiet (e : event) : Prop := ensured e = [].

Definition any_event (e : event) : Prop := True.


Definition position (a : RepAddr) : nat * nat * nat :=
  (period_idx a, adaptation_set_idx a, representation_idx a).

Definition positions_ensured (t : list event) : list (nat * nat * nat) :=
  map position (flat_map ensured t).

(** AdaptationSet x Representation pairs of the first Period, in document
    order. *)
Definition document_order (mpd : Element) : list (nat * nat * nat) :=
  match findall (qn "Period") mpd with
  | [] => []
  | period :: _ =>
      let asets := findall (qn "AdaptationSet") period in
      flat_map (fun ia =>
                  map (fun r => (0%nat, fst ia, r))
                      (seq 0 (List.length (findall (qn "Representation") (snd ia)))))
               (combine (seq 0 (List.length asets)) asets)
  end.

Definition sessions_at (pos : nat * nat * nat) (ds : list (RepAddr * DashDownloader))
  : nat :=
  List.length (filter (fun kd =>
    let '(p, a, r) := position (fst kd) in
    let '(p', a', r') := pos in
    Nat.eqb p p' && Nat.eqb a a' && Nat.eqb r r') ds).

(* ------------------------------------------------------------------ *)
(** ** Compact timeline entries *)

Module Spec.

(** A compact timeline entry: duration, repeat count, optional start. *)
Record entry := mkEntry {
  duration : Z;
  repeat : nat;
  start_time : option Z
}.

(** The number of descriptors the entries stand for. *)
Definition total (entries : list entry) : nat :=
  fold_right (fun e acc => (S (repeat e) + acc)%nat) O entries.

End Spec.

(** An [S] element of a parsed manifest that states the entry [e], the way
    [DashDownloader.handle_mpd] reads it: first the duration and the repeat
    count, then the start time as well. *)
Definition states_run (e : Spec.entry) (s : Element) : Prop :=
  Py.int (Py.dict_get "d" (Py.VStr "0") (attrib s)) = Some (Spec.duration e) /\
  Py.int (Py.dict_get "r" (Py.VStr "0") (attrib s)) = Some (Z.of_nat (Spec.repeat e)).

Definition encodes (e : Spec.entry) (s : Element) : Prop :=
  states_run e s /\
  match Spec.start_time e with
  | Some t => exists v, Py.lookup "t" (attrib s) = Some v /\ Py.int v = Some t
  | None => Py.lookup "t" (attrib s) = None
  end.

(** The [S] elements lines 283-294 create for a list of entries, numbered
    from [idx]. *)
Fixpoint created (idx : nat) (entries : list Spec.entry) : list Element :=
  match entries with
  | [] => []
  | e :: rest =>
      map (new_S (Spec.duration e)) (seq idx (S (Spec.repeat e)))
      ++ created (idx + S (Spec.repeat e)) rest
  end.

(** The timeline node [tl] after lines 280-294, when its [S] elements
    state [entries]: the created elements, then the children that are not
    [S] elements. *)
Definition expansion (tl : Element) (entries : list Spec.entry) : Element :=
  with_children
    (created 0 entries ++ filter (fun e => negb (has_tag (qn "S") e)) (children tl)) tl.

(** Two elements that differ at most in their [t] attribute, and two
    timeline nodes that differ at most in the [t] attribute of [S]
    children. *)
Definition same_but_t (s s' : Element) : Prop :=
  tag s' = tag s /\ children s' = children s /\ text s' = text s /\
  forall k, String.eqb k "t" = false ->
            Py.lookup k (attrib s') = Py.lookup k (attrib s).

Definition retimed (tl tl' : Element) : Prop :=
  tag tl' = tag tl /\ attrib tl' = attrib tl /\ text tl' = text tl /\
  Forall2 (fun s s' => s' = s \/ (has_tag (qn "S") s = true /\ same_but_t s s'))
          (children tl) (children tl').

(** An [S] element without a start time and with a readable duration. *)
Definition untimed (s : Element) : Prop :=
  has_tag (qn "S") s = true /\
  Py.lookup "t" (attrib s) = None /\
  exists d, Py.int (Py.dict_get "d" (Py.VStr "0") (attrib s)) = Some d.

(** The same timeline written without repeat counts and start times. *)
Definition unit_entry (d : Z) : Spec.entry := Spec.mkEntry d 0 None.

Definition unrolled (entries : list Spec.entry) : list Spec.entry :=
  flat_map (fun e => List.repeat (unit_entry (Spec.duration e)) (S (Spec.repeat e)))
           entries.

(* ------------------------------------------------------------------ *)
(** ** What a run keeps *)

(** A computation every outcome of which is related to its start by [R],
    and a computation that never runs out of [fuel]. *)
Definition steps (R : World -> World -> Prop) {A} (m : M A) : Prop :=
  forall w,
    match m w with
    | Ok _ w' | Raise _ w' => R w w'
    | OutOfFuel => True
    end.

Definition finishes {A} (m : M A) : Prop := forall w, m w <> OutOfFuel.

(** The fields of the proxy that are set by [__init__] only. *)
Definition config (p : DashProxy)
  : string * string * bool * bool * arg * arg :=
  (mpd p, output_dir p, download p, save_mpds p, headers p, cookies p).

(** Between two worlds: the configuration is the same, every session of the
    first is a session of the second, with its initialization flag still
    set if it was, and the counters have not gone back. *)
Definition settled (w w' : World) : Prop :=
  config (proxy w') = config (proxy w) /\
  (forall a d,
      lookup_downloader a (downloaders (proxy w)) = Some d ->
      exists d',
        lookup_downloader a (downloaders (proxy w')) = Some d' /\
        (initialization_downloaded d = true -> initialization_downloaded d' = true)) /\
  i_refresh (proxy w) <= i_refresh (proxy w') /\
  (next_oid w <= next_oid w')%nat.

(** The identities of the keys of [downloaders], in insertion order. *)
Definition session_keys (w : World) : list nat :=
  map (fun kd => oid (fst kd)) (downloaders (proxy w)).

(** Every key was made by [new_RepAddr] in this world. *)
Definition keys_allocated (w : World) : Prop :=
  Forall (fun k => (k < next_oid w)%nat) (session_keys w).

(** An event that is not a wait, or is a wait of ten seconds. *)
Definition waits_ten (e : event) : Prop :=
  match e with Sleep secs => secs = 10 | _ => True end.

(** Whether every index of an address is inside the list at its level. *)
Definition in_range (mpd : Element) (a : RepAddr) : bool :=
  match nth_error (findall (qn "Period") mpd) (period_idx a) with
  | None => false
  | Some period =>
      match nth_error (findall (qn "AdaptationSet") period) (adaptation_set_idx a) with
      | None => false
      | Some aset =>
          (representation_idx a <? List.length (findall (qn "Representation") aset))%nat
      end
  end.

(** An attribute value that [int()] refuses: a string of characters below
    128 that is not an integer literal. *)
Definition unreadable (v : Py.value) : Prop :=
  match v with
  | Py.VStr s => Py.is_ascii s = true /\ Py.int_of_string s = None
  | Py.VInt _ => False
  end.

(** Whether [old] occurs somewhere in [s]. *)
Fixpoint occurs (old s : string) : bool :=
  match s with
  | EmptyString => Py.startswith old s
  | String _ s' => Py.startswith old s || occurs old s'
  end.

Definition is_brace (c : ascii) : bool := (Ascii.eqb c "{" || Ascii.eqb c "}")%bool.

(** A template in which [render_template] finds nothing to do: none of the
    three markers and no brace. *)
Definition plain_template (t : string) : bool :=
  negb (occurs "$RepresentationID$" t) && negb (occurs "$Time$" t)
  && negb (occurs "$Number%05d$" t) && negb (Py.has_any is_brace t).

(** The world after [self.<field> = ...] on the downloader stored under
    [self]. *)
Definition updated (self : RepAddr) (d : DashDownloader) (w : World) : World :=
  set_proxy (fun p => set_downloaders (store_downloader self d (downloaders p)) p) w.

(** Between two worlds: the same keys in [downloaders] and no new
    [RepAddr]. *)
Definition same_sessions (w w' : World) : Prop :=
  session_keys w' = session_keys w /\ next_oid w' = next_oid w.

(* ------------------------------------------------------------------ *)
(** ** Sample manifests *)

Module Sample.

Definition el (t : string) (a : Py.kwargs) (c : list Element) : Element :=
  mkElement (qn t) a None c.

Definition leaf (t : string) (content : string) : Element :=
  mkElement (qn t) [] (Some content) [].

Definition S_ (a : Py.kwargs) : Element := el "S" a [].

(** [[{d:4,r:2},{d:5,t:20}]] *)
Definition entries : list Spec.entry :=
  [Spec.mkEntry 4 2 None; Spec.mkEntry 5 0 (Some 20)].

Definition timeline : Element :=
  el "SegmentTimeline" []
     [S_ [("d", Py.VStr "4"); ("r", Py.VStr "2")];
      S_ [("d", Py.VStr "5"); ("t", Py.VStr "20")]].

Definition plain_entries : list Spec.entry :=
  [Spec.mkEntry 4 2 None; Spec.mkEntry 5 1 None].

Definition plain_timeline : Element :=
  el "SegmentTimeline" []
     [S_ [("d", Py.VStr "4"); ("r", Py.VStr "2")];
      S_ [("d", Py.VStr "5"); ("r", Py.VStr "1")]].

Definition template (media : string) (tl : Element) : Element :=
  el "SegmentTemplate"
     [("media", Py.VStr media); ("initialization", Py.VStr "$RepresentationID$/init.mp4")]
     [tl].

Definition representation (media : string) (tl : Element) : Element :=
  el "Representation" [("id", Py.VStr "v1")] [template media tl].

(** One Period, one AdaptationSet, one Representation with a
    SegmentTemplate. *)
Definition manifest (top : Py.kwargs) (extra : list Element) (media : string)
           (tl : Element) : Element :=
  el "MPD" top
     (extra ++ [el "Period" [] [el "AdaptationSet" [] [representation media tl]]]).

Definition vod (media : string) : Element := manifest [] [] media timeline.

Definition live (media : string) : Element :=
  manifest [("minimumUpdatePeriod", Py.VStr "PT10S")] [] media timeline.

(** A template at both levels. *)
Definition st_rep : Element := el "SegmentTemplate" [("media", Py.VStr "rep-$Time$.m4s")] [].
Definition st_aset : Element := el "SegmentTemplate" [("media", Py.VStr "aset-$Time$.m4s")] [].

Definition both_levels : Element :=
  el "MPD" []
     [el "Period" []
         [el "AdaptationSet" []
             [st_aset;
              el "Representation" [("id", Py.VStr "a")] [st_rep];
              el "Representation" [("id", Py.VStr "b")] [];
              el "Representation" [("id", Py.VStr "c")] [leaf "BaseURL" "c.mp4"]];
          el "AdaptationSet" []
             [el "Representation" [("id", Py.VStr "d")] [leaf "BaseURL" "d.mp4"]]]].

(** Two adaptation sets of single-file representations, and a second
    Period. *)
Definition file (id name : string) : Element :=
  el "Representation" [("id", Py.VStr id)] [leaf "BaseURL" name].

Definition three_files : Element :=
  el "MPD" []
     [el "Period" []
         [el "AdaptationSet" [] [file "a" "a.mp4"; file "b" "b.mp4"];
          el "AdaptationSet" [] [file "c" "c.mp4"]];
      el "Period" [] [el "AdaptationSet" [] [file "z" "z.mp4"]]].

Definition addr (a r : nat) : RepAddr := mkRepAddr 0 0 a r.

Definition url : string := "http://h/a/b/manifest.mpd".

Definition proxy0 : DashProxy :=
  mkDashProxy url "out" false false (ArgDict []) (ArgDict []) 0 [].

Definition world0 : World := mkWorld proxy0 (el "MPD" [] []) 0 0 [].

Definition serialize (e : Element) : string :=
  match Py.lookup "minimumUpdatePeriod" (attrib e) with
  | Some _ => "<MPD live>"
  | None => "<MPD vod>"
  end.

(** A server that answers every request with status 200. *)
Definition server_ok (n : nat) (u : string) : Response := mkResponse 200 u.

(** A server on which every segment is missing. *)
Definition server_no_segments (n : nat) (u : string) : Response :=
  if String.eqb u url then mkResponse 200 u else mkResponse 404 "not found".

(** A server whose first answer to the manifest request is a 503. *)
Definition server_flaky (n : nat) (u : string) : Response :=
  if Nat.eqb n 0 then mkResponse 503 "stale" else mkResponse 200 u.

(** A live manifest first, an on-demand one afterwards. *)
Definition server_live (n : nat) (u : string) : Response :=
  if Nat.eqb n 0 then mkResponse 200 "live" else mkResponse 200 u.

(** The sample timeline after lines 280-294, and after lines 296-305. *)
Definition expanded : Element :=
  el "SegmentTimeline" [] [new_S 4 0; new_S 4 1; new_S 4 2; new_S 5 3].

Definition handled : Element :=
  el "SegmentTimeline" []
     [set_t 0 (new_S 4 0); set_t 4 (new_S 4 1); set_t 8 (new_S 4 2);
      set_t 12 (new_S 5 3)].

(** The sample representation while lines 298-305 run: the first [k]
    expanded elements have their start time. *)
Definition rewritten (media : string) (k : nat) : Element :=
  representation media
    (el "SegmentTimeline" []
        (firstn k (children handled) ++ skipn k (children expanded))).

(** A world in which a downloader for the one representation is live. *)
Definition world1 (media : string) : World :=
  mkWorld (set_downloaders
             [(addr 0 0, mkDashDownloader (addr 0 0) "http://h/a/b/" true)] proxy0)
          (vod media) 1 1 [].

Definition parse (media : string) (s : string) : option Element :=
  if String.eqb s url then Some (vod media)
  else if String.eqb s "stale" then Some (manifest [] [] media plain_timeline)
  else if String.eqb s "live" then Some (live media)
  else None.


(** A server that is down, and a parser that reads every body as the live
    sample manifest. *)
Definition server_down (n : nat) (u : string) : Response := mkResponse 503 "".

Definition parse_live (s : string) : option Element := Some (live "seg.m4s").

(** A world in which a new downloader for the one representation has just
    been stored, and one for the first representation of [both_levels]. *)
Definition world2 (media : string) : World :=
  mkWorld (set_downloaders [(addr 0 0, mkDashDownloader (addr 0 0) "" false)] proxy0)
          (vod media) 1 1 [].

Definition world_both : World :=
  mkWorld (set_downloaders [(addr 0 0, mkDashDownloader (addr 0 0) "" false)] proxy0)
          both_levels 1 1 [].

End Sample.

(** A world in which a downloader for the single-file representation of
    [both_levels] is live. *)
Definition sample_world_single : World :=
  mkWorld (set_downloaders
             [(Sample.addr 1 0, mkDashDownloader (Sample.addr 1 0) "http://h/a/b/" false)]
             Sample.proxy0)
          Sample.both_levels 1 1 [].

(** One cycle over the on-demand sample manifest whose media template
    carries markers. *)
Definition marked_cycle : outcome unit :=
  run Sample.server_ok (Sample.parse "$RepresentationID$/$Number%05d$-$Time$.m4s")
      Sample.serialize 1 Sample.world0.

(** One cycle on the server that has no segment. *)
Definition lossy_cycle : outcome unit :=
  run Sample.server_no_segments (Sample.parse "seg.m4s") Sample.serialize 1 Sample.world0.

(** The manifest request fails once, then succeeds. *)
Definition flaky_run : outcome unit :=
  run Sample.server_flaky (Sample.parse "seg.m4s") Sample.serialize 2 Sample.world0.

(** A live manifest, then an on-demand one. *)
Definition live_run : outcome unit :=
  run Sample.server_live (Sample.parse "seg.m4s") Sample.serialize 2 Sample.world0.

(** One cycle over the on-demand sample manifest, media template
    ["seg.m4s"], every request answered with status 200. *)
Definition sample_cycle : outcome unit :=
  run Sample.server_ok (Sample.parse "seg.m4s") Sample.serialize 1 Sample.world0.


(* ------------------------------------------------------------------ *)
(** ** The primitives on examples *)

Example str_examples :
  Py.str (Py.VInt 3) = "3" /\ Py.str (Py.VInt (-12)) = "-12" /\ Py.str (Py.VInt 0) = "0".
Proof. repeat split; reflexivity. Qed.

Example int_examples :
  Py.int (Py.VStr "0") = Some 0 /\ Py.int (Py.VStr "-1") = Some (-1) /\
  Py.int (Py.VStr " 1_000 ") = Some 1000 /\ Py.int (Py.VStr "4x") = None /\
  Py.int (Py.VStr "") = None /\ Py.int (Py.VStr "1__0") = None.
Proof. repeat split; reflexivity. Qed.

Example int_space_examples :
  Py.int (Py.VStr (String "4" (String (ascii_of_nat 160) EmptyString))) = Some 4 /\
  Py.int (Py.VStr (String (ascii_of_nat 28) "4")) = None /\
  Py.int (Py.VStr (String "4" (String (ascii_of_nat 194) EmptyString))) = None.
Proof. repeat split; reflexivity. Qed.

Example replace_examples :
  Py.replace "$Time$" "{time}" "a/$Time$/$Time$.m4s" = "a/{time}/{time}.m4s" /\
  Py.replace "aa" "b" "aaa" = "ba".
Proof. split; reflexivity. Qed.

Example format_examples :
  Py.format "v/{number}-{{x}}" [("number", Py.VInt 3)] = inr "v/3-{x}" /\
  Py.format "v/{time}" [] = inl (Py.KeyError "time") /\
  Py.format "v/}" [] = inl Py.ValueError /\
  Py.format "plain.mp4" [] = inr "plain.mp4".
Proof. repeat split; reflexivity. Qed.

Example path_join_examples :
  Py.path_join "out" "v/1.m4s" = "out/v/1.m4s" /\
  Py.path_join "." "manifest.mpd" = "./manifest.mpd" /\
  Py.path_join "out/" "x" = "out/x" /\ Py.path_join "out" "/abs" = "/abs".
Proof. repeat split; reflexivity. Qed.

Example baseUrl_examples :
  baseUrl "http://h/a/b/manifest.mpd" = "http://h/a/b/" /\
  baseUrl "http://h/x/alt.mpd" = "http://h/x/" /\
  baseUrl "manifest.mpd" = "manifest.mpd" /\
  baseUrl "http://h/a/" = "http://h/a/".
Proof. repeat split; reflexivity. Qed.

(* ------------------------------------------------------------------ *)
(** ** [MpdLocator.segment_template] *)

(** C7.  Where the address resolves to a Representation inside an
    AdaptationSet, [segment_template] returns the Representation's own
    SegmentTemplate when it has one, whatever the AdaptationSet owns;
    otherwise it returns what the AdaptationSet owns, which is nothing when
    neither owns a template. *)
Theorem segment_template_fallback (mpd rep aset : Element) (a : RepAddr) :
  MpdLocator.representation mpd a = inr rep ->
  MpdLocator.adaptation_set mpd a = inr aset ->
  (forall st, find (qn "SegmentTemplate") rep = Some st ->
              MpdLocator.segment_template mpd a = inr (Some st)) /\
  (find (qn "SegmentTemplate") rep = None ->
   MpdLocator.segment_template mpd a = inr (find (qn "SegmentTemplate") aset)) /\
  (find (qn "SegmentTemplate") rep = None ->
   find (qn "SegmentTemplate") aset = None ->
   MpdLocator.segment_template mpd a = inr None).
Proof.
  intros Hrep Haset. unfold MpdLocator.segment_template.
  rewrite Hrep, Haset. repeat split.
  - intros st Hst. now rewrite Hst.
  - intros Hnone. now rewrite Hnone.
  - intros Hnone Hnone'. now rewrite Hnone, Hnone'.
Qed.

Lemma segment_template_fallback_witness :
  MpdLocator.segment_template Sample.both_levels (Sample.addr 0 0)
  = inr (Some Sample.st_rep) /\
  MpdLocator.segment_template Sample.both_levels (Sample.addr 0 1)
  = inr (Some Sample.st_aset) /\
  MpdLocator.segment_template Sample.both_levels (Sample.addr 1 0) = inr None.
Proof.
  split; [|split].
  - exact (proj1 (segment_template_fallback Sample.both_levels (Sample.addr 0 0)
                    eq_refl eq_refl) _ eq_refl).
  - exact (proj1 (proj2 (segment_template_fallback Sample.both_levels
                           (Sample.addr 0 1) eq_refl eq_refl)) eq_refl).
  - exact (proj2 (proj2 (segment_template_fallback Sample.both_levels
                           (Sample.addr 1 0) eq_refl eq_refl)) eq_refl eq_refl).
Defined.

(** An address past the end of a level is an [IndexError]. *)
Example representation_out_of_range :
  MpdLocator.representation Sample.both_levels (Sample.addr 0 3) = inl Py.IndexError /\
  MpdLocator.segment_template Sample.both_levels (Sample.addr 2 0) = inl Py.IndexError.
Proof. split; reflexivity. Qed.

(* ------------------------------------------------------------------ *)
(** ** [get_base_url] *)

Lemma get_base_url_default (self_mpd : string) (mpd : Element) :
  find (qn "Location") mpd = None ->
  find (qn "BaseUrl") mpd = None ->
  get_base_url self_mpd mpd = inr (baseUrl self_mpd).
Proof. intros HL HB. unfold get_base_url. now rewrite HL, HB. Qed.

Lemma get_base_url_location (self_mpd t : string) (mpd location : Element) :
  find (qn "Location") mpd = Some location ->
  text location = Some t ->
  find (qn "BaseUrl") mpd = None ->
  get_base_url self_mpd mpd = inr (baseUrl t).
Proof. intros HL Ht HB. unfold get_base_url. now rewrite HL, Ht, HB. Qed.

(** A node that [find] returns is used only when it has child elements. *)
Lemma get_base_url_childless_node (self_mpd : string) (mpd node : Element) :
  find (qn "Location") mpd = None ->
  find (qn "BaseUrl") mpd = Some node ->
  children node = [] ->
  get_base_url self_mpd mpd = inr (baseUrl self_mpd).
Proof.
  intros HL HB Hc. unfold get_base_url, truthy_element.
  now rewrite HL, HB, Hc.
Qed.

(** C8.  The first two cases resolve as stated; a BaseURL node, absolute or
    relative, spelled as the manifest format or as the lookup spells it,
    leaves the base at the directory of the manifest URL. *)
Theorem base_url_node_ignored :
  get_base_url Sample.url (Sample.manifest [] [] "m" Sample.timeline)
  = inr "http://h/a/b/" /\
  get_base_url Sample.url
    (Sample.manifest [] [Sample.leaf "Location" "http://h/x/alt.mpd"] "m" Sample.timeline)
  = inr "http://h/x/" /\
  get_base_url Sample.url
    (Sample.manifest [] [Sample.leaf "BaseURL" "http://cdn/v/"] "m" Sample.timeline)
  = inr "http://h/a/b/" /\
  get_base_url Sample.url
    (Sample.manifest [] [Sample.leaf "BaseUrl" "http://cdn/v/"] "m" Sample.timeline)
  = inr "http://h/a/b/" /\
  get_base_url Sample.url
    (Sample.manifest [] [Sample.leaf "BaseURL" "video/"] "m" Sample.timeline)
  = inr "http://h/a/b/".
Proof. repeat split; reflexivity. Qed.

(* ------------------------------------------------------------------ *)
(** ** [render_template] *)

Lemma render_template_no_context (t : string) :
  render_template (Py.VStr t) None None
  = Py.format (Py.replace "$Number%05d$" "{number}"
                 (Py.replace "$Time$" "{time}"
                    (Py.replace "$RepresentationID$" "{representation_id}" t))) [].
Proof. reflexivity. Qed.

(** C6.  The representation id and the start time are substituted as
    stated; the sequence-number marker of width 5 renders sequence number 3
    as "3", and the marker without a width is left in place. *)
Theorem render_number_unpadded :
  let rep := Sample.representation "m" Sample.timeline in
  let segment := set_t 8 (new_S 4 2) in
  render_template (Py.VStr "$RepresentationID$/$Time$.m4s") (Some rep) (Some segment)
  = inr "v1/8.m4s" /\
  render_template (Py.VStr "$Number%05d$") (Some rep) (Some segment) = inr "3" /\
  render_template (Py.VStr "$Number%05d$") (Some rep) (Some segment) <> inr "00003" /\
  render_template (Py.VStr "$Number$") (Some rep) (Some segment) = inr "$Number$".
Proof. repeat split; try reflexivity. discriminate. Qed.

(* ------------------------------------------------------------------ *)
(** ** The timeline rewrite, lines 280-294 *)

Section Expansion.

Local Open Scope list_scope.

Lemma children_with_children (c : list Element) (e : Element) :
  children (with_children c e) = c.
Proof. reflexivity. Qed.

Lemma with_children_twice (c c' : list Element) (e : Element) :
  with_children c (with_children c' e) = with_children c e.
Proof. reflexivity. Qed.

Lemma with_children_self (e : Element) : with_children (children e) e = e.
Proof. now destruct e. Qed.

Lemma findall_with_children (t : string) (c : list Element) (e : Element) :
  findall t (with_children c e) = filter (has_tag t) c.
Proof. reflexivity. Qed.

Lemma list_insert_app {A} (pre post : list A) (x : A) :
  list_insert (List.length pre) x (pre ++ post) = pre ++ x :: post.
Proof. induction pre as [|y pre IH]; simpl; [reflexivity | now rewrite IH]. Qed.

(** Removing the first [S] child once for every [S] child leaves the
    children with another tag, in their order. *)
Lemma remove_step_skip (xs : list Element) : forall (e : Element) (l : list Element) (tl : Element),
  has_tag (qn "S") e = false ->
  fold_left (fun tl' _ => with_children (remove_first (qn "S") (children tl')) tl')
            xs (with_children (e :: l) tl)
  = with_children
      (e :: children (fold_left
                        (fun tl' _ => with_children (remove_first (qn "S") (children tl')) tl')
                        xs (with_children l tl))) tl.
Proof.
  induction xs as [|x xs IH]; intros e l tl He; simpl.
  - reflexivity.
  - rewrite He. rewrite !with_children_twice. now apply IH.
Qed.

Lemma remove_all (l : list Element) (tl : Element) :
  fold_left (fun tl' _ => with_children (remove_first (qn "S") (children tl')) tl')
            (filter (has_tag (qn "S")) l) (with_children l tl)
  = with_children (filter (fun e => negb (has_tag (qn "S") e)) l) tl.
Proof.
  induction l as [|e l IH]; simpl.
  - reflexivity.
  - destruct (has_tag (qn "S") e) eqn:He; simpl.
    + rewrite He, with_children_twice. apply IH.
    + rewrite remove_step_skip by assumption. now rewrite IH.
Qed.

Lemma remove_segments_spec (tl : Element) :
  remove_segments tl
  = with_children (filter (fun e => negb (has_tag (qn "S") e)) (children tl)) tl.
Proof.
  unfold remove_segments, findall.
  rewrite <- (with_children_self tl) at 2.
  apply remove_all.
Qed.

Lemma insert_run_spec (n : nat) : forall (d : Z) (pre post : list Element) (tl : Element),
  children tl = pre ++ post ->
  insert_run n d (List.length pre) tl
  = ((List.length pre + n)%nat,
     with_children (pre ++ map (new_S d) (seq (List.length pre) n) ++ post) tl).
Proof.
  induction n as [|n IH]; intros d pre post tl Hc; simpl.
  - rewrite Nat.add_0_r, <- Hc. now rewrite with_children_self.
  - rewrite Hc, list_insert_app.
    specialize (IH d (pre ++ [new_S d (List.length pre)]) post
                   (with_children (pre ++ new_S d (List.length pre) :: post) tl)).
    rewrite length_app in IH. simpl in IH.
    rewrite Nat.add_1_r in IH. rewrite IH.
    + rewrite with_children_twice, <- app_assoc. simpl.
      now rewrite Nat.add_succ_r.
    + simpl. now rewrite <- app_assoc.
Qed.

Lemma expand_loop_spec (entries : list Spec.entry) :
  forall (segments pre post : list Element) (tl : Element),
  Forall2 states_run entries segments ->
  children tl = pre ++ post ->
  expand_loop segments (List.length pre) tl
  = inr ((List.length pre + Spec.total entries)%nat,
         with_children (pre ++ created (List.length pre) entries ++ post) tl).
Proof.
  induction entries as [|e entries IH]; intros segments pre post tl HF Hc;
    inversion HF as [|e' s es ss He HF' E1 E2]; subst; simpl.
  - rewrite Nat.add_0_r, <- Hc. now rewrite with_children_self.
  - destruct He as (Hd & Hr). rewrite Hd, Hr.
    replace (Z.to_nat (Z.of_nat (Spec.repeat e) + 1)) with (S (Spec.repeat e)) by lia.
    rewrite (insert_run_spec (S (Spec.repeat e)) (Spec.duration e) pre post tl Hc).
    set (run := map (new_S (Spec.duration e)) (seq (List.length pre) (S (Spec.repeat e)))).
    specialize (IH ss (pre ++ run) post (with_children (pre ++ run ++ post) tl) HF').
    assert (Hlen : List.length (pre ++ run) = (List.length pre + S (Spec.repeat e))%nat).
    { unfold run. now rewrite length_app, length_map, length_seq. }
    rewrite Hlen in IH. rewrite IH.
    + rewrite with_children_twice, <- !app_assoc.
      replace (List.length pre + S (Spec.repeat e) + Spec.total entries)%nat
        with (List.length pre + S (Spec.repeat e + Spec.total entries))%nat by lia.
      reflexivity.
    + simpl. now rewrite <- app_assoc.
Qed.

Lemma created_length (entries : list Spec.entry) : forall idx,
  List.length (created idx entries) = Spec.total entries.
Proof.
  induction entries as [|e entries IH]; intros idx; simpl; [reflexivity|].
  now rewrite length_app, length_map, length_seq, IH.
Qed.

Lemma created_tagged (entries : list Spec.entry) : forall idx,
  filter (has_tag (qn "S")) (created idx entries) = created idx entries.
Proof.
  induction entries as [|e entries IH]; intros idx; [reflexivity|].
  cbn [created]. rewrite filter_app, IH. f_equal.
  generalize (seq idx (S (Spec.repeat e))). intros l.
  induction l as [|k l IHl]; [reflexivity|].
  cbn [map filter]. change (has_tag (qn "S") (new_S (Spec.duration e) k)) with true.
  cbn iota. now rewrite IHl.
Qed.

Lemma filter_other_tags (t : string) (l : list Element) :
  filter (has_tag t) (filter (fun e => negb (has_tag t e)) l) = [].
Proof.
  induction l as [|e l IH]; [reflexivity|]. simpl.
  destruct (has_tag t e) eqn:He; simpl; [assumption | now rewrite He].
Qed.

Lemma created_numbers (entries : list Spec.entry) : forall idx,
  map (fun s => Py.lookup "i" (attrib s)) (created idx entries)
  = map (fun k => Some (Py.VInt (Z.of_nat k + 1))) (seq idx (Spec.total entries)).
Proof.
  induction entries as [|e entries IH]; intros idx; [reflexivity|].
  cbn [created Spec.total fold_right].
  rewrite map_app, IH, map_map.
  change (fold_right (fun e acc => (S (Spec.repeat e) + acc)%nat) O entries)
    with (Spec.total entries).
  rewrite (seq_app (S (Spec.repeat e)) (Spec.total entries) idx), map_app.
  reflexivity.
Qed.

(** What the rewrite leaves under the timeline node: the created elements,
    then the children that are not [S] elements. *)
Lemma expansion_spec (tl : Element) (entries : list Spec.entry) :
  Forall2 states_run entries (findall (qn "S") tl) ->
  expand_loop (findall (qn "S") tl) 0 (remove_segments tl)
  = inr (Spec.total entries,
         with_children
           (created 0 entries
            ++ filter (fun e => negb (has_tag (qn "S") e)) (children tl)) tl).
Proof.
  intros HF. rewrite remove_segments_spec.
  rewrite (@expand_loop_spec entries _ [] _ _ HF eq_refl). reflexivity.
Qed.

Lemma findall_expansion (tl : Element) (entries : list Spec.entry) :
  findall (qn "S")
    (with_children
       (created 0 entries
        ++ filter (fun e => negb (has_tag (qn "S") e)) (children tl)) tl)
  = created 0 entries.
Proof.
  rewrite findall_with_children, filter_app, created_tagged, filter_other_tags.
  apply app_nil_r.
Qed.

(** C4.  For a timeline whose [S] elements state the entries [entries], the
    rewrite completes, the timeline then holds one [S] element for every
    repetition of every entry (the sum of [repeat + 1]), and their sequence
    numbers are 1, 2, ..., in that order. *)
Theorem expansion_length_and_numbers (tl : Element) (entries : list Spec.entry) :
  Forall2 encodes entries (findall (qn "S") tl) ->
  exists tl',
    expand_loop (findall (qn "S") tl) 0 (remove_segments tl)
    = inr (Spec.total entries, tl') /\
    List.length (findall (qn "S") tl')
    = fold_right (fun e acc => (Spec.repeat e + 1 + acc)%nat) O entries /\
    map (fun s => Py.lookup "i" (attrib s)) (findall (qn "S") tl')
    = map (fun k => Some (Py.VInt (Z.of_nat k)))
          (seq 1 (List.length (findall (qn "S") tl'))).
Proof.
  intros HF.
  assert (HF' : Forall2 states_run entries (findall (qn "S") tl))
    by (revert HF; apply Forall2_impl; intros e s He; apply He).
  eexists. split; [apply (expansion_spec _ HF')|].
  rewrite findall_expansion, created_length. split.
  - unfold Spec.total. clear. induction entries as [|e l IH]; cbn [fold_right];
      [reflexivity | rewrite <- IH; lia].
  - rewrite created_numbers, <- seq_shift, map_map.
    apply map_ext. intros k. do 2 f_equal. lia.
Qed.

Lemma expansion_length_and_numbers_witness :
  exists tl',
    expand_loop (findall (qn "S") Sample.timeline) 0 (remove_segments Sample.timeline)
    = inr (4%nat, tl') /\
    List.length (findall (qn "S") tl') = 4%nat /\
    map (fun s => Py.lookup "i" (attrib s)) (findall (qn "S") tl')
    = map (fun k => Some (Py.VInt (Z.of_nat k)))
          (seq 1 (List.length (findall (qn "S") tl'))).
Proof.
  apply (@expansion_length_and_numbers Sample.timeline Sample.entries).
  repeat constructor. exists (Py.VStr "20"). split; reflexivity.
Defined.

End Expansion.

(* ------------------------------------------------------------------ *)
(** ** Running the monad *)

Lemma bind_Ok {A B} (m : M A) (k : A -> M B) (w w' : World) (b : B) :
  bind m k w = Ok b w' ->
  exists a w1, m w = Ok a w1 /\ k a w1 = Ok b w'.
Proof.
  unfold bind. destruct (m w) as [a w1|e w1|]; try discriminate.
  intros H. now exists a, w1.
Qed.

Lemma bind_Ok_intro {A B} (m : M A) (k : A -> M B) (w w1 : World) (a : A) :
  m w = Ok a w1 -> bind m k w = k a w1.
Proof. unfold bind. now intros ->. Qed.

Lemma lift_opt_Ok {A} (e : Py.exn) (r : option A) (w w' : World) (a : A) :
  lift_opt e r w = Ok a w' -> r = Some a /\ w' = w.
Proof. destruct r; cbn; intros H; inversion H; auto. Qed.

Tactic Notation "bind_inv" hyp(H) "as" ident(a) ident(w) ident(H1) :=
  apply bind_Ok in H; destruct H as (a & w & H1 & H).

(* ------------------------------------------------------------------ *)
(** ** Attribute dicts *)

Lemma lookup_set_same (k : string) (v : Py.value) (d : Py.kwargs) :
  Py.lookup k (Py.dict_set k v d) = Some v.
Proof.
  induction d as [|[k' v'] d IH]; simpl.
  - now rewrite String.eqb_refl.
  - destruct (String.eqb k k') eqn:E; simpl; rewrite ?String.eqb_refl, ?E; auto.
Qed.

Lemma lookup_set_other (k k' : string) (v : Py.value) (d : Py.kwargs) :
  String.eqb k k' = false ->
  Py.lookup k (Py.dict_set k' v d) = Py.lookup k d.
Proof.
  intros Hk. induction d as [|[k0 v0] d IH]; simpl.
  - now rewrite Hk.
  - destruct (String.eqb k' k0) eqn:E; simpl.
    + apply String.eqb_eq in E. subst k0. now rewrite Hk.
    + now rewrite IH.
Qed.

Lemma duration_of_set_t (c : Z) (s : Element) :
  Py.dict_get "d" (Py.VStr "0") (attrib (set_t c s))
  = Py.dict_get "d" (Py.VStr "0") (attrib s).
Proof.
  unfold Py.dict_get, set_t. cbn [attrib with_attrib].
  now rewrite lookup_set_other.
Qed.

(* ------------------------------------------------------------------ *)
(** ** The created elements *)

Section Created.

Local Open Scope list_scope.

Lemma new_S_untimed (d : Z) (k : nat) : untimed (new_S d k).
Proof. repeat split. now exists d. Qed.

Lemma created_untimed (entries : list Spec.entry) : forall idx,
  Forall untimed (created idx entries).
Proof.
  induction entries as [|e entries IH]; intros idx; cbn [created]; [constructor|].
  apply Forall_app. split; [|apply IH].
  apply Forall_map, Forall_forall. intros k _. apply new_S_untimed.
Qed.

Lemma filter_not_tagged (t : string) (l : list Element) :
  Forall (fun e => has_tag t e = true) l ->
  filter (fun e => negb (has_tag t e)) l = [].
Proof.
  induction 1 as [|e l He _ IH]; [reflexivity|]. simpl. now rewrite He.
Qed.

Lemma filter_others_twice (t : string) (l : list Element) :
  filter (fun e => negb (has_tag t e)) (filter (fun e => negb (has_tag t e)) l)
  = filter (fun e => negb (has_tag t e)) l.
Proof.
  induction l as [|e l IH]; [reflexivity|]. simpl.
  destruct (has_tag t e) eqn:He; simpl; [assumption | now rewrite He, IH].
Qed.

Lemma created_app (l1 : list Spec.entry) : forall (l2 : list Spec.entry) (idx : nat),
  created idx (l1 ++ l2)
  = created idx l1 ++ created (idx + Spec.total l1) l2.
Proof.
  induction l1 as [|e l1 IH]; intros l2 idx; cbn [created app].
  - now rewrite Nat.add_0_r.
  - rewrite IH, <- app_assoc. do 3 f_equal. unfold Spec.total.
    cbn [fold_right]. lia.
Qed.

Lemma total_units (d : Z) (n : nat) :
  Spec.total (List.repeat (unit_entry d) n) = n.
Proof.
  induction n as [|n IH]; [reflexivity|]. unfold Spec.total in *.
  cbn [List.repeat fold_right]. now rewrite IH.
Qed.

Lemma created_units (d : Z) (n : nat) : forall idx,
  created idx (List.repeat (unit_entry d) n) = map (new_S d) (seq idx n).
Proof.
  induction n as [|n IH]; intros idx; [reflexivity|].
  cbn [List.repeat created unit_entry Spec.repeat Spec.duration seq map app].
  fold (unit_entry d). now rewrite IH, Nat.add_1_r.
Qed.

Lemma created_unrolled (entries : list Spec.entry) : forall idx,
  created idx (unrolled entries) = created idx entries.
Proof.
  induction entries as [|e entries IH]; intros idx; [reflexivity|].
  unfold unrolled in *. cbn [flat_map].
  rewrite created_app, total_units, created_units, IH. reflexivity.
Qed.

End Created.

(* ------------------------------------------------------------------ *)
(** ** The sample timeline [[{d:4,r:2},{d:5,t:20}]] *)

Lemma sample_encoded : Forall2 encodes Sample.entries (findall (qn "S") Sample.timeline).
Proof.
  repeat constructor. exists (Py.VStr "20"). split; reflexivity.
Qed.

Lemma sample_expansion :
  expand_loop (findall (qn "S") Sample.timeline) 0 (remove_segments Sample.timeline)
  = inr (4%nat, Sample.expanded).
Proof. reflexivity. Qed.

(** C2.  After one cycle over the sample manifest the timeline node holds
    four descriptors and the fourth starts at 12, where the third ended:
    the start time 20 its entry states was dropped with the entry on lines
    288-291, and the branch of lines 302-303 that would apply it is not
    taken.  They are not [(1,0),(2,4),(3,8),(4,20),(5,25)]. *)
Lemma explicit_start_not_applied :
  let handled_descriptors :=
    option_map
      (fun w => match MpdLocator.segment_timeline (tree w) (Sample.addr 0 0) with
                | inr (Some tl) => map descriptor (findall (qn "S") tl)
                | _ => []
                end)
      (world_of sample_cycle) in
  handled_descriptors = Some [descr 1 0; descr 2 4; descr 3 8; descr 4 12] /\
  handled_descriptors
  <> Some [descr 1 0; descr 2 4; descr 3 8; descr 4 20; descr 5 25].
Proof.
  assert (H : option_map
      (fun w => match MpdLocator.segment_timeline (tree w) (Sample.addr 0 0) with
                | inr (Some tl) => map descriptor (findall (qn "S") tl)
                | _ => []
                end)
      (world_of sample_cycle) = Some [descr 1 0; descr 2 4; descr 3 8; descr 4 12])
    by (vm_compute; reflexivity).
  cbv zeta. rewrite H. split; [reflexivity | discriminate].
Qed.

(** C5, counterexample.  After one cycle the timeline node of the manifest
    tree holds the expanded elements, not the compact entries it was parsed
    with. *)
Lemma timeline_rewritten_in_place :
  option_map (fun w => MpdLocator.segment_timeline (tree w) (Sample.addr 0 0))
             (world_of sample_cycle)
  = Some (inr (Some Sample.handled)) /\
  MpdLocator.segment_timeline (Sample.vod "seg.m4s") (Sample.addr 0 0)
  = inr (Some Sample.timeline) /\
  findall (qn "S") Sample.handled <> findall (qn "S") Sample.timeline.
Proof.
  split; [vm_compute; reflexivity|]. split; [reflexivity|].
  vm_compute. discriminate.
Qed.

(* ------------------------------------------------------------------ *)
(** ** Downloads *)

Ltac run_monad :=
  cbv [bind gets modify ret raise lift lift_opt log info error verbose warning
       requests_get write write_file time_sleep emit set_tree set_proxy];
  cbn [proxy tree next_oid requests trace].

Section Downloads.

Local Open Scope list_scope.

Variable http_get : nat -> string -> Response.

Lemma download_template_failure (self : RepAddr) (template : Py.value)
      (hdrs cks : arg) (representation segment : option Element) (w : World)
      (d : DashDownloader) (dest : string) :
  render_template template representation segment = inr dest ->
  lookup_downloader self (downloaders (proxy w)) = Some d ->
  success (http_get (requests w) (mpd_base_url d ++ dest)%string) = false ->
  download_template http_get self template hdrs cks representation segment w
  = Ok tt
       (mkWorld (proxy w) (tree w) (next_oid w) (S (requests w))
          (trace w
           ++ [Log INFO "requesting %s from %s"
                   [AStr dest; AStr (mpd_base_url d ++ dest)%string];
               Get (mpd_base_url d ++ dest)%string hdrs cks;
               Log ERROR "cannot download %s server returned %d"
                   [AStr (mpd_base_url d ++ dest)%string;
                    AInt (status_code
                            (http_get (requests w) (mpd_base_url d ++ dest)%string))]])).
Proof.
  intros Hr Hd Hs. unfold download_template, full_url, self_downloader.
  rewrite Hr. run_monad. rewrite Hd, Hs. run_monad.
  now rewrite <- !app_assoc.
Qed.

Lemma download_single_failure (self : RepAddr) (hdrs cks : arg) (w : World)
      (d : DashDownloader) (node : Element) (dest : string) :
  MpdLocator.base_url (tree w) self = inr (Some node) ->
  text node = Some dest ->
  lookup_downloader self (downloaders (proxy w)) = Some d ->
  success (http_get (requests w) (mpd_base_url d ++ dest)%string) = false ->
  download_single http_get self hdrs cks w
  = Ok tt
       (mkWorld (proxy w) (tree w) (next_oid w) (S (requests w))
          (trace w
           ++ [Log INFO "download_single requesting %s from %s"
                   [AStr dest; AStr (mpd_base_url d ++ dest)%string];
               Get (mpd_base_url d ++ dest)%string hdrs cks;
               Log ERROR "cannot download %s server returned %d"
                   [AStr (mpd_base_url d ++ dest)%string;
                    AInt (status_code
                            (http_get (requests w) (mpd_base_url d ++ dest)%string))]])).
Proof.
  intros Hb Ht Hd Hs. unfold download_single, full_url, self_downloader.
  run_monad. rewrite Hb, Ht, Hd, Hs. run_monad.
  now rewrite <- !app_assoc.
Qed.

Lemma urls_app (t1 t2 : list event) : urls (t1 ++ t2) = urls t1 ++ urls t2.
Proof. apply flat_map_app. Qed.

(** Whatever the server answers, a download whose template renders makes
    one request and returns. *)
Lemma download_template_returns (self : RepAddr) (template : Py.value)
      (hdrs cks : arg) (representation segment : option Element) (w : World)
      (d : DashDownloader) (dest : string) :
  render_template template representation segment = inr dest ->
  lookup_downloader self (downloaders (proxy w)) = Some d ->
  exists w',
    download_template http_get self template hdrs cks representation segment w
    = Ok tt w' /\
    proxy w' = proxy w /\
    urls (trace w') = urls (trace w) ++ [(mpd_base_url d ++ dest)%string].
Proof.
  intros Hr Hd. unfold download_template, full_url, self_downloader.
  rewrite Hr. run_monad. rewrite Hd.
  destruct (success _); run_monad; eexists; (split; [reflexivity|]);
    (split; [reflexivity|]); cbn [trace]; rewrite !urls_app; cbn;
    now rewrite ?app_nil_r.
Qed.

Lemma media_loop_requests_all (self : RepAddr) (mt : Py.value) (rep : Element)
      (d : DashDownloader) (dest : string) (segments : list Element) :
  forall (k : nat) (next_time : Z) (tl : Element) (w : World),
  Forall untimed segments ->
  render_template mt None None = inr dest ->
  lookup_downloader self (downloaders (proxy w)) = Some d ->
  exists tl' w',
    media_loop http_get self mt rep k segments next_time tl w = Ok tl' w' /\
    proxy w' = proxy w /\
    urls (trace w')
    = urls (trace w)
      ++ List.repeat (mpd_base_url d ++ dest)%string (List.length segments).
Proof.
  induction segments as [|s rest IH]; intros k nt tl w Hseg Hr Hd.
  - exists tl, w. cbn. now rewrite app_nil_r.
  - inversion Hseg as [|? ? (Htag & Ht & dur & Hdur) Hrest]; subst.
    cbn [media_loop]. unfold Py.dict_get at 1. rewrite Ht.
    change (Py.int (Py.VStr "-1")) with (Some (-1)).
    rewrite (@bind_Ok_intro _ _ _ _ w w (-1) eq_refl).
    change (-1 =? -1) with true. cbn iota.
    rewrite (@bind_Ok_intro _ _ (put_timeline _ _) _ w _ tt eq_refl).
    rewrite duration_of_set_t, Hdur.
    rewrite (@bind_Ok_intro _ _ _ _ _ _ dur eq_refl).
    set (w1 := set_tree _ w).
    set (node := match MpdLocator.representation (tree w1) self with
                 | inr n0 => n0
                 | inl _ => rep
                 end).
    rewrite (@bind_Ok_intro _ _ (live_representation self rep) _ w1 w1 node eq_refl).
    destruct (@download_template_returns self mt (ArgElem node)
                (ArgElem (set_t nt s)) None None w1 d dest Hr Hd)
      as (w2 & Hdl & Hp & Hu).
    rewrite (@bind_Ok_intro _ _ _ _ _ _ tt Hdl).
    destruct (IH (S k) (nt + dur)
                 (on_nth (qn "S") k (set_t nt) tl) w2 Hrest Hr)
      as (tl' & w' & Hm & Hp' & Hu').
    { rewrite Hp. exact Hd. }
    exists tl', w'. split; [exact Hm|]. split; [now rewrite Hp', Hp|].
    rewrite Hu', Hu. cbn [length List.repeat]. now rewrite <- app_assoc.
Qed.

(** C9.  When the server answers the request for a segment, an
    initialization file or a single media file with a status outside
    [200, 300), the download returns normally: the world has one more
    request, the record of the request and one error record, no file
    written, and the proxy and the manifest tree as they were.  Whatever the
    statuses, the loop over the segments of a timeline requests every
    segment once and returns. *)
Theorem fetch_failure_is_skipped :
  (forall (self : RepAddr) (template : Py.value) (hdrs cks : arg)
          (representation segment : option Element) (w : World)
          (d : DashDownloader) (dest : string),
      render_template template representation segment = inr dest ->
      lookup_downloader self (downloaders (proxy w)) = Some d ->
      success (http_get (requests w) (mpd_base_url d ++ dest)%string) = false ->
      exists w',
        download_template http_get self template hdrs cks representation segment w
        = Ok tt w' /\
        proxy w' = proxy w /\ tree w' = tree w /\ requests w' = S (requests w) /\
        exists status,
          trace w'
          = trace w
            ++ [Log INFO "requesting %s from %s"
                    [AStr dest; AStr (mpd_base_url d ++ dest)%string];
                Get (mpd_base_url d ++ dest)%string hdrs cks;
                Log ERROR "cannot download %s server returned %d"
                    [AStr (mpd_base_url d ++ dest)%string; AInt status]]) /\
  (forall (self : RepAddr) (hdrs cks : arg) (w : World)
          (d : DashDownloader) (node : Element) (dest : string),
      MpdLocator.base_url (tree w) self = inr (Some node) ->
      text node = Some dest ->
      lookup_downloader self (downloaders (proxy w)) = Some d ->
      success (http_get (requests w) (mpd_base_url d ++ dest)%string) = false ->
      exists w',
        download_single http_get self hdrs cks w = Ok tt w' /\
        proxy w' = proxy w /\ tree w' = tree w /\ requests w' = S (requests w) /\
        exists status,
          trace w'
          = trace w
            ++ [Log INFO "download_single requesting %s from %s"
                    [AStr dest; AStr (mpd_base_url d ++ dest)%string];
                Get (mpd_base_url d ++ dest)%string hdrs cks;
                Log ERROR "cannot download %s server returned %d"
                    [AStr (mpd_base_url d ++ dest)%string; AInt status]]) /\
  (forall (self : RepAddr) (mt : Py.value) (rep : Element) (d : DashDownloader)
          (dest : string) (segments : list Element) (k : nat) (next_time : Z)
          (tl : Element) (w : World),
      Forall untimed segments ->
      render_template mt None None = inr dest ->
      lookup_downloader self (downloaders (proxy w)) = Some d ->
      exists tl' w',
        media_loop http_get self mt rep k segments next_time tl w = Ok tl' w' /\
        urls (trace w')
        = urls (trace w)
          ++ List.repeat (mpd_base_url d ++ dest)%string (List.length segments)).
Proof.
  split; [|split].
  - intros self template hdrs cks representation segment w d dest Hr Hd Hs.
    eexists. split; [apply download_template_failure; eassumption|].
    repeat split. eexists. reflexivity.
  - intros self hdrs cks w d node dest Hb Ht Hd Hs.
    eexists. split; [eapply download_single_failure; eassumption|].
    repeat split. eexists. reflexivity.
  - intros self mt rep d dest segments k nt tl w Hseg Hr Hd.
    destruct (@media_loop_requests_all self mt rep d dest segments k nt tl w
                Hseg Hr Hd) as (tl' & w' & Hm & _ & Hu).
    now exists tl', w'.
Qed.

End Downloads.

Lemma fetch_failure_is_skipped_witness :
  (exists w',
      download_template Sample.server_no_segments (Sample.addr 0 0)
        (Py.VStr "seg.m4s") (ArgDict []) (ArgDict []) None None
        (Sample.world1 "seg.m4s") = Ok tt w' /\
      proxy w' = proxy (Sample.world1 "seg.m4s") /\
      tree w' = tree (Sample.world1 "seg.m4s") /\
      requests w' = 2%nat /\
      exists status,
        trace w'
        = [Log INFO "requesting %s from %s"
               [AStr "seg.m4s"; AStr "http://h/a/b/seg.m4s"];
           Get "http://h/a/b/seg.m4s" (ArgDict []) (ArgDict []);
           Log ERROR "cannot download %s server returned %d"
               [AStr "http://h/a/b/seg.m4s"; AInt status]]) /\
  (exists w',
      download_single Sample.server_no_segments (Sample.addr 1 0)
        (ArgDict []) (ArgDict []) sample_world_single = Ok tt w' /\
      proxy w' = proxy sample_world_single /\
      tree w' = tree sample_world_single /\
      requests w' = 2%nat /\
      exists status,
        trace w'
        = [Log INFO "download_single requesting %s from %s"
               [AStr "d.mp4"; AStr "http://h/a/b/d.mp4"];
           Get "http://h/a/b/d.mp4" (ArgDict []) (ArgDict []);
           Log ERROR "cannot download %s server returned %d"
               [AStr "http://h/a/b/d.mp4"; AInt status]]) /\
  (exists tl' w',
      media_loop Sample.server_no_segments (Sample.addr 0 0) (Py.VStr "seg.m4s")
        (Sample.representation "seg.m4s" Sample.timeline) 0
        (findall (qn "S") Sample.expanded) 0 Sample.expanded
        (Sample.world1 "seg.m4s") = Ok tl' w' /\
      urls (trace w') = List.repeat "http://h/a/b/seg.m4s" 4).
Proof.
  split; [|split].
  - apply (proj1 (fetch_failure_is_skipped Sample.server_no_segments)
             (Sample.addr 0 0) (Py.VStr "seg.m4s") (ArgDict []) (ArgDict [])
             None None (Sample.world1 "seg.m4s")
             (mkDashDownloader (Sample.addr 0 0) "http://h/a/b/" true) "seg.m4s");
      reflexivity.
  - apply (proj1 (proj2 (fetch_failure_is_skipped Sample.server_no_segments))
             (Sample.addr 1 0) (ArgDict []) (ArgDict []) sample_world_single
             (mkDashDownloader (Sample.addr 1 0) "http://h/a/b/" false)
             (Sample.leaf "BaseURL" "d.mp4") "d.mp4");
      reflexivity.
  - apply (proj2 (proj2 (fetch_failure_is_skipped Sample.server_no_segments))
             (Sample.addr 0 0) (Py.VStr "seg.m4s")
             (Sample.representation "seg.m4s" Sample.timeline)
             (mkDashDownloader (Sample.addr 0 0) "http://h/a/b/" true) "seg.m4s"
             (findall (qn "S") Sample.expanded) 0%nat 0 Sample.expanded
             (Sample.world1 "seg.m4s"));
      [exact (created_untimed Sample.entries 0) | reflexivity | reflexivity].
Defined.

(** With no segment on the server the cycle still runs to its end: every
    segment is requested once and only the manifest is written. *)
Example lossy_cycle_completes :
  exists w,
    lossy_cycle = Ok tt w /\
    urls (trace w)
    = [Sample.url; "http://h/a/b/v1/init.mp4"; "http://h/a/b/seg.m4s";
       "http://h/a/b/seg.m4s"; "http://h/a/b/seg.m4s"; "http://h/a/b/seg.m4s"] /\
    filter is_write (trace w) = [WriteFile "out/manifest.mpd" "<MPD vod>"].
Proof. eexists. split; [vm_compute; reflexivity|]. split; reflexivity. Qed.

(** A media template that does not render without context stops the loop at
    its first segment, before any request. *)
Lemma media_loop_render_error (http_get : nat -> string -> Response)
      (self : RepAddr) (mt : Py.value) (rep s : Element) (rest : list Element)
      (k : nat) (next_time : Z) (tl : Element) (w : World) (e : Py.exn) :
  untimed s ->
  render_template mt None None = inl e ->
  exists w',
    media_loop http_get self mt rep k (s :: rest) next_time tl w = Raise e w' /\
    trace w' = trace w.
Proof.
  intros (Htag & Ht & dur & Hdur) Hr.
  cbn [media_loop]. unfold Py.dict_get at 1. rewrite Ht.
  change (Py.int (Py.VStr "-1")) with (Some (-1)).
  rewrite (@bind_Ok_intro _ _ _ _ w w (-1) eq_refl).
  change (-1 =? -1) with true. cbn iota.
  rewrite (@bind_Ok_intro _ _ (put_timeline _ _) _ w _ tt eq_refl).
  rewrite duration_of_set_t, Hdur.
  rewrite (@bind_Ok_intro _ _ _ _ _ _ dur eq_refl).
  unfold live_representation. unfold bind at 1. unfold gets at 1.
  unfold download_template. rewrite Hr. cbv [bind lift raise].
  eexists. split; [reflexivity | cbn [set_tree trace]; reflexivity].
Qed.

(** C1.  With markers in the media template the first media request is
    never made: rendering raises [KeyError] after the manifest and the
    initialization file were fetched.  With a template without markers the
    four requests go out, all to the same URL, with the Representation
    node, its timeline rewritten as far as the loop has come, as the second
    argument of [requests.get] and the segment element as the third. *)
Theorem media_template_rendered_without_context :
  (exists w,
      marked_cycle = Raise (Py.KeyError "representation_id") w /\
      urls (trace w) = [Sample.url; "http://h/a/b/v1/init.mp4"]) /\
  (let rep := Sample.rewritten "seg.m4s" in
   option_map (fun w => filter is_get (trace w)) (world_of sample_cycle)
   = Some [Get Sample.url (ArgDict []) (ArgDict []);
           Get "http://h/a/b/v1/init.mp4" (ArgDict []) (ArgDict []);
           Get "http://h/a/b/seg.m4s" (ArgElem (rep 1%nat))
               (ArgElem (set_t 0 (new_S 4 0)));
           Get "http://h/a/b/seg.m4s" (ArgElem (rep 2%nat))
               (ArgElem (set_t 4 (new_S 4 1)));
           Get "http://h/a/b/seg.m4s" (ArgElem (rep 3%nat))
               (ArgElem (set_t 8 (new_S 4 2)));
           Get "http://h/a/b/seg.m4s" (ArgElem (rep 4%nat))
               (ArgElem (set_t 12 (new_S 5 3)))]).
Proof.
  split.
  - eexists. split; [vm_compute; reflexivity | reflexivity].
  - vm_compute. reflexivity.
Qed.

(* ------------------------------------------------------------------ *)
(** ** What a computation adds to the trace *)

Section Adds.

Local Open Scope list_scope.

Variable P : event -> Prop.

Lemma adds_ret {A} (a : A) : adds P (ret a).
Proof. intros w. exists []. now rewrite app_nil_r. Qed.

Lemma adds_raise {A} (e : Py.exn) : adds P (@raise A e).
Proof. intros w. exists []. now rewrite app_nil_r. Qed.

Lemma adds_gets {A} (f : World -> A) : adds P (gets f).
Proof. intros w. exists []. now rewrite app_nil_r. Qed.

Lemma adds_lift {A} (r : Py.exn + A) : adds P (lift r).
Proof. destruct r; [apply adds_raise | apply adds_ret]. Qed.

Lemma adds_lift_opt {A} (e : Py.exn) (r : option A) : adds P (lift_opt e r).
Proof. destruct r; [apply adds_ret | apply adds_raise]. Qed.

Lemma adds_silent (f : World -> World) :
  (forall w, trace (f w) = trace w) -> adds P (modify f).
Proof. intros Hf w. exists []. cbn. now rewrite Hf, app_nil_r. Qed.

Lemma adds_log (lv : level) (fmt : string) (args : list logarg) :
  P (Log lv fmt args) -> adds P (log lv fmt args).
Proof. intros HP w. exists [Log lv fmt args]. split; [reflexivity | now constructor]. Qed.

Lemma adds_emit (e : event) : P e -> adds P (modify (emit e)).
Proof. intros HP w. exists [e]. split; [reflexivity | now constructor]. Qed.

Lemma adds_bind {A B} (m : M A) (k : A -> M B) :
  adds P m -> (forall a, adds P (k a)) -> adds P (bind m k).
Proof.
  intros Hm Hk w. unfold bind. specialize (Hm w).
  destruct (m w) as [a w1|e w1|]; [|exact Hm|exact I].
  destruct Hm as (evs & Ht & HP). specialize (Hk a w1).
  destruct (k a w1) as [b w2|e w2|]; [| |exact I];
    destruct Hk as (evs' & Ht' & HP'); exists (evs ++ evs');
    (split; [now rewrite Ht', Ht, app_assoc | now apply Forall_app]).
Qed.

Lemma adds_appended (n : nat) :
  P (Log VERBOSE "appending a new elem" []) -> adds P (appended n).
Proof.
  intros HP. induction n as [|n IH]; cbn [appended].
  - apply adds_ret.
  - apply adds_bind; [now apply adds_log | intros _; exact IH].
Qed.

Lemma adds_Ok {A} (m : M A) (w w' : World) (a : A) :
  adds P m -> m w = Ok a w' ->
  exists evs, trace w' = trace w ++ evs /\ Forall P evs.
Proof. intros Hm H. specialize (Hm w). now rewrite H in Hm. Qed.

End Adds.

Create HintDb quiet.

Ltac adds_step :=
  match goal with
  | |- adds _ (ret _) => apply adds_ret
  | |- adds _ (raise _) => apply adds_raise
  | |- adds _ (gets _) => apply adds_gets
  | |- adds _ (lift _) => apply adds_lift
  | |- adds _ (lift_opt _ _) => apply adds_lift_opt
  | |- adds _ (log _ _ _) => apply adds_log; first [reflexivity | exact I]
  | |- adds _ (info _ _) => apply adds_log; first [reflexivity | exact I]
  | |- adds _ (verbose _ _) => apply adds_log; first [reflexivity | exact I]
  | |- adds _ (warning _ _) => apply adds_log; first [reflexivity | exact I]
  | |- adds _ (error _ _) => apply adds_log; first [reflexivity | exact I]
  | |- adds _ (modify (emit _)) => apply adds_emit; first [reflexivity | exact I]
  | |- adds _ (appended _) => apply adds_appended; first [reflexivity | exact I]
  | |- adds _ (live_representation _ _) => apply adds_gets
  | |- adds _ (modify _) => apply adds_silent; reflexivity
  | |- adds _ (bind _ _) => apply adds_bind; [|intros ?]
  | |- adds _ (if ?b then _ else _) => destruct b
  | |- adds _ (match ?x with _ => _ end) => destruct x
  | |- adds _ _ => solve [auto with quiet]
  end.

Ltac adds_quiet := repeat adds_step.

(* ------------------------------------------------------------------ *)
(** ** [ensure_downloader] *)

Section Sessions.

Local Open Scope list_scope.

Variable http_get : nat -> string -> Response.

Lemma requests_get_quiet (url : string) (hdrs cks : arg) :
  adds quiet (requests_get http_get url hdrs cks).
Proof. intros w. exists [Get url hdrs cks]. split; [reflexivity | now constructor]. Qed.

Lemma update_self_quiet (self : RepAddr) (f : DashDownloader -> DashDownloader) :
  adds quiet (update_self self f).
Proof. unfold update_self, self_downloader. adds_quiet. Qed.

Hint Resolve requests_get_quiet update_self_quiet : quiet.

Lemma download_template_quiet (self : RepAddr) (template : Py.value)
      (hdrs cks : arg) (representation segment : option Element) :
  adds quiet (download_template http_get self template hdrs cks representation segment).
Proof. unfold download_template, full_url, self_downloader, write. adds_quiet. Qed.

Lemma download_single_quiet (self : RepAddr) (hdrs cks : arg) :
  adds quiet (download_single http_get self hdrs cks).
Proof. unfold download_single, full_url, self_downloader, write. adds_quiet. Qed.

Hint Resolve download_template_quiet download_single_quiet : quiet.

Lemma media_loop_quiet (self : RepAddr) (mt : Py.value) (rep : Element)
      (segments : list Element) : forall (k : nat) (next_time : Z) (tl : Element),
  adds quiet (media_loop http_get self mt rep k segments next_time tl).
Proof.
  induction segments as [|s rest IH]; intros k nt tl; cbn [media_loop];
    unfold put_timeline; adds_quiet; apply IH.
Qed.

Hint Resolve media_loop_quiet : quiet.

Lemma DashDownloader_handle_mpd_quiet (self : RepAddr) (base_url : string)
      (hdrs cks : arg) :
  adds quiet (DashDownloader_handle_mpd http_get self base_url hdrs cks).
Proof.
  unfold DashDownloader_handle_mpd, expand_timeline, put_timeline, self_downloader. adds_quiet.
Qed.

Hint Resolve DashDownloader_handle_mpd_quiet : quiet.

End Sessions.

(** C3.  In a run of two cycles over the same single representation, a
    live manifest first and an on-demand one after it, the second cycle does
    not find the session of the first: each cycle records that it starts a
    downloader for position (0, 0, 0), none records a downloader already
    started, two sessions are stored for that position at the end, and the
    initialization file is fetched twice. *)
Theorem second_cycle_makes_second_session :
  option_map
    (fun w =>
       (positions_ensured (trace w),
        List.length
          (filter (fun e => match e with
                            | Log _ fmt _ =>
                                String.eqb fmt "A downloader for %s already started"
                            | _ => false
                            end) (trace w)),
        sessions_at (0, 0, 0)%nat (downloaders (proxy w)),
        urls (trace w)))
    (world_of live_run)
  = Some ([(0, 0, 0); (0, 0, 0)]%nat, 0%nat, 2%nat,
          [Sample.url; "http://h/a/b/v1/init.mp4"; "http://h/a/b/seg.m4s";
           "http://h/a/b/seg.m4s"; "http://h/a/b/seg.m4s"; "http://h/a/b/seg.m4s";
           Sample.url; "http://h/a/b/v1/init.mp4"; "http://h/a/b/seg.m4s";
           "http://h/a/b/seg.m4s"; "http://h/a/b/seg.m4s"; "http://h/a/b/seg.m4s"]).
Proof. vm_compute. reflexivity. Qed.

(* ------------------------------------------------------------------ *)
(** ** The refresh cycle *)

Section Refresh.

Local Open Scope list_scope.

Variable http_get : nat -> string -> Response.
Variable fromstring : string -> option Element.
Variable tostring : Element -> string.

Lemma adds_weaken (P Q : event -> Prop) {A} (m : M A) :
  (forall e, P e -> Q e) -> adds P m -> adds Q m.
Proof.
  intros HPQ Hm w. specialize (Hm w).
  destruct (m w) as [a w'|e w'|]; [| |exact I];
    destruct Hm as (evs & Ht & HP); exists evs;
    (split; [exact Ht | revert HP; apply Forall_impl, HPQ]).
Qed.

Lemma for_enumerate_adds (P : event -> Prop) {A} (body : nat -> A -> M unit)
      (l : list A) : forall i,
  (forall i x, adds P (body i x)) -> adds P (for_enumerate i l body).
Proof.
  induction l as [|x l IH]; intros i Hb; cbn [for_enumerate].
  - apply adds_ret.
  - apply adds_bind; [apply Hb | intros _; now apply IH].
Qed.

Lemma DashDownloader_handle_mpd_adds (self : RepAddr) (base_url : string)
      (hdrs cks : arg) :
  adds any_event (DashDownloader_handle_mpd http_get self base_url hdrs cks).
Proof.
  apply (adds_weaken (P := quiet)); [intros e _; exact I|].
  apply DashDownloader_handle_mpd_quiet.
Qed.

Lemma new_RepAddr_adds (P : event -> Prop) (p a r : nat) :
  adds P (new_RepAddr p a r).
Proof. intros w. exists []. cbn. now rewrite app_nil_r. Qed.

Lemma requests_get_adds (url : string) (hdrs cks : arg) :
  adds any_event (requests_get http_get url hdrs cks).
Proof.
  intros w. exists [Get url hdrs cks].
  split; [reflexivity | constructor; [exact I | constructor]].
Qed.

Hint Resolve DashDownloader_handle_mpd_adds new_RepAddr_adds requests_get_adds : quiet.

Ltac adds_any :=
  repeat first [apply for_enumerate_adds; intros ? ? | adds_step].

Lemma ensure_downloader_adds (a : RepAddr) :
  adds any_event (ensure_downloader http_get a).
Proof. unfold ensure_downloader. adds_any. Qed.

Hint Resolve ensure_downloader_adds : quiet.

Lemma drive_representations_adds (m : Element) :
  adds any_event (drive_representations http_get m).
Proof. unfold drive_representations. adds_any. Qed.

Lemma write_output_mpd_adds (m : Element) : adds any_event (write_output_mpd tostring m).
Proof. unfold write_output_mpd, write_file. adds_any. Qed.

Hint Resolve drive_representations_adds write_output_mpd_adds : quiet.

Lemma DashProxy_handle_mpd_adds (refresh : Z -> M unit) (m : Element) :
  (forall after, adds any_event (refresh after)) ->
  adds any_event (DashProxy_handle_mpd http_get tostring refresh m).
Proof.
  intros Hr. unfold DashProxy_handle_mpd. adds_any.
Qed.

Hint Resolve DashProxy_handle_mpd_adds : quiet.

Lemma refresh_mpd_adds (fuel : nat) : forall after,
  adds any_event (refresh_mpd http_get fromstring tostring fuel after).
Proof.
  induction fuel as [|fuel IH]; intros after; cbn [refresh_mpd].
  - intros w. exact I.
  - unfold request_mpd, warn_retry, time_sleep. adds_any.
Qed.






End Refresh.


(** The run on the flaky server: the manifest is requested twice, the body
    of the second answer is handled (four segments), then the body of the
    first, failed answer (five segments), and the output manifest is written
    both times. *)
Example flaky_run_handles_both_bodies :
  exists w,
    flaky_run = Ok tt w /\
    urls (trace w)
    = [Sample.url; Sample.url;
       "http://h/a/b/v1/init.mp4"; "http://h/a/b/seg.m4s"; "http://h/a/b/seg.m4s";
       "http://h/a/b/seg.m4s"; "http://h/a/b/seg.m4s";
       "http://h/a/b/v1/init.mp4"; "http://h/a/b/seg.m4s"; "http://h/a/b/seg.m4s";
       "http://h/a/b/seg.m4s"; "http://h/a/b/seg.m4s"; "http://h/a/b/seg.m4s"] /\
    List.length (filter (fun e => match e with
                                  | WriteFile "out/manifest.mpd" _ => true
                                  | _ => false
                                  end) (trace w)) = 2%nat.
Proof. eexists. split; [vm_compute; reflexivity|]. split; reflexivity. Qed.

(* ------------------------------------------------------------------ *)
(** ** More on [baseUrl], the locator and the renderer *)

Section Pure.

Local Open Scope list_scope.

Lemma startswith_take (n : nat) : forall s, Py.startswith (Py.take n s) s = true.
Proof.
  induction n as [|n IH]; intros s; [reflexivity|].
  destruct s as [|c s]; [reflexivity|]. cbn. now rewrite Ascii.eqb_refl, IH.
Qed.

Lemma rfind_take (c : ascii) (s : string) : forall i,
  Py.rfind c s = Some i ->
  Py.rfind c (Py.take (i + 1) s) = Some i /\
  String.length (Py.take (i + 1) s) = S i.
Proof.
  induction s as [|a s IH]; intros i H; [discriminate|].
  cbn [Py.rfind] in H. destruct (Py.rfind c s) as [j|] eqn:Hj.
  - inversion H; subst i. destruct (IH j eq_refl) as (Hr & Hl).
    cbn [Nat.add Py.take Py.rfind String.length]. now rewrite Hr, Hl.
  - destruct (Ascii.eqb a c) eqn:Hac; [|discriminate]. inversion H; subst i.
    cbn. now rewrite Hac.
Qed.

Lemma take_take (n : nat) : forall s, Py.take n (Py.take n s) = Py.take n s.
Proof.
  induction n as [|n IH]; intros s; [reflexivity|].
  destruct s as [|c s]; [reflexivity|]. cbn. now rewrite IH.
Qed.

(** X5.  [baseUrl] returns a prefix of the URL, ends with a slash exactly
    when the URL has one, and applied again changes nothing. *)
Theorem baseUrl_is_directory (url : string) :
  Py.startswith (baseUrl url) url = true /\
  Py.ends_with_slash (baseUrl url)
  = match Py.rfind "/" url with Some _ => true | None => false end /\
  baseUrl (baseUrl url) = baseUrl url.
Proof.
  unfold baseUrl. destruct (Py.rfind "/" url) as [idx|] eqn:Hr.
  - destruct (rfind_take _ _ Hr) as (Hr' & Hl). repeat split.
    + apply startswith_take.
    + unfold Py.ends_with_slash. now rewrite Hr', Hl, Nat.eqb_refl.
    + now rewrite Hr', take_take.
  - repeat split.
    + clear. induction url as [|c s IH]; [reflexivity|].
      cbn. now rewrite Ascii.eqb_refl.
    + unfold Py.ends_with_slash. now rewrite Hr.
    + now rewrite Hr.
Qed.

(** X6.  An address resolves to a Representation exactly when every index
    is inside the list at its level; otherwise each lookup made through
    the address raises [IndexError]. *)
Theorem locator_range (mpd : Element) (a : RepAddr) :
  (in_range mpd a = true -> exists rep, MpdLocator.representation mpd a = inr rep) /\
  (in_range mpd a = false ->
   MpdLocator.representation mpd a = inl Py.IndexError /\
   MpdLocator.base_url mpd a = inl Py.IndexError /\
   MpdLocator.segment_template mpd a = inl Py.IndexError /\
   MpdLocator.segment_timeline mpd a = inl Py.IndexError).
Proof.
  unfold in_range, MpdLocator.segment_timeline, MpdLocator.segment_template,
    MpdLocator.base_url, MpdLocator.representation, MpdLocator.adaptation_set, index.
  destruct (nth_error (findall (qn "Period") mpd) (period_idx a)) as [period|];
    [|split; [discriminate | now intros _]].
  destruct (nth_error (findall (qn "AdaptationSet") period) (adaptation_set_idx a))
    as [aset|]; [|split; [discriminate | now intros _]].
  destruct (nth_error (findall (qn "Representation") aset) (representation_idx a))
    as [rep|] eqn:Hrep.
  - split; [intros _; now exists rep|].
    intros Hlt. apply Nat.ltb_ge in Hlt. apply nth_error_None in Hlt. congruence.
  - split; [|now intros _].
    intros Hlt. apply Nat.ltb_lt in Hlt. apply nth_error_None in Hrep. lia.
Qed.

Lemma locator_range_witness :
  (exists rep, MpdLocator.representation Sample.both_levels (Sample.addr 0 2) = inr rep) /\
  MpdLocator.representation Sample.both_levels (Sample.addr 0 3) = inl Py.IndexError /\
  MpdLocator.base_url Sample.both_levels (Sample.addr 0 3) = inl Py.IndexError /\
  MpdLocator.segment_template Sample.both_levels (Sample.addr 0 3) = inl Py.IndexError /\
  MpdLocator.segment_timeline Sample.both_levels (Sample.addr 0 3) = inl Py.IndexError.
Proof.
  split.
  - apply (proj1 (locator_range Sample.both_levels (Sample.addr 0 2))). reflexivity.
  - apply (proj2 (locator_range Sample.both_levels (Sample.addr 0 3))). reflexivity.
Defined.

(** X7.  With a Location node in the manifest the URL the manifest was
    fetched from plays no part in the base URL; a Location node without text
    makes the resolution raise [AttributeError]. *)
Theorem location_replaces_manifest_url (u1 u2 : string) (mpd location : Element) :
  find (qn "Location") mpd = Some location ->
  get_base_url u1 mpd = get_base_url u2 mpd /\
  (text location = None -> get_base_url u1 mpd = inl Py.AttributeError).
Proof.
  intros HL. unfold get_base_url. rewrite HL. split; [reflexivity|].
  intros Ht. now rewrite Ht.
Qed.

Lemma location_replaces_manifest_url_witness :
  let mpd := Sample.manifest [] [Sample.leaf "Location" "http://h/x/alt.mpd"] "m"
                             Sample.timeline in
  get_base_url "http://h/a/b/manifest.mpd" mpd = get_base_url "ftp://elsewhere/m" mpd /\
  get_base_url "http://h/a/b/manifest.mpd"
    (Sample.manifest [] [Sample.el "Location" [] []] "m" Sample.timeline)
  = inl Py.AttributeError.
Proof.
  split.
  - apply (proj1 (@location_replaces_manifest_url "http://h/a/b/manifest.mpd"
                    "ftp://elsewhere/m"
                    (Sample.manifest [] [Sample.leaf "Location" "http://h/x/alt.mpd"]
                                     "m" Sample.timeline)
                    (Sample.leaf "Location" "http://h/x/alt.mpd") eq_refl)).
  - apply (proj2 (@location_replaces_manifest_url "http://h/a/b/manifest.mpd"
                    "http://h/a/b/manifest.mpd"
                    (Sample.manifest [] [Sample.el "Location" [] []] "m" Sample.timeline)
                    (Sample.el "Location" [] []) eq_refl)).
    reflexivity.
Defined.

(** *** Templates with nothing to substitute *)

Lemma replace_absent (old new : string) (s : string) :
  occurs old s = false -> Py.replace old new s = s.
Proof.
  unfold Py.replace. induction s as [|c s IH]; [reflexivity|].
  cbn [occurs Py.replace_from]. intros H. apply orb_false_iff in H.
  destruct H as [H1 H2]. rewrite H1. now rewrite IH.
Qed.

Lemma format_no_brace (args : Py.kwargs) (s : string) :
  Py.has_any is_brace s = false -> Py.format s args = inr s.
Proof.
  unfold Py.format. induction s as [|c s IH]; [reflexivity|].
  cbn [Py.has_any Py.format_from]. intros H. apply orb_false_iff in H.
  destruct H as [Hc Hs]. unfold is_brace in Hc. apply orb_false_iff in Hc.
  destruct Hc as [Ho Hcl]. rewrite Ho, Hcl, (IH Hs). reflexivity.
Qed.

(** X8.  A template that holds none of the three markers and no brace is
    rendered as it is, whatever representation and segment are given: other
    markers of the manifest format are passed through. *)
Theorem plain_template_unchanged (t : string) (representation segment : option Element) :
  plain_template t = true ->
  render_template (Py.VStr t) representation segment = inr t.
Proof.
  unfold plain_template. intros H.
  repeat (apply andb_true_iff in H; destruct H as [H ?]).
  repeat match goal with Hn : negb _ = true |- _ => apply negb_true_iff in Hn end.
  unfold render_template.
  rewrite (replace_absent _ _ _ H), (replace_absent _ _ _ H2), (replace_absent _ _ _ H1).
  now apply format_no_brace.
Qed.

Lemma plain_template_unchanged_witness :
  render_template (Py.VStr "video/$Bandwidth$/init.mp4")
                  (Some (Sample.representation "m" Sample.timeline))
                  (Some (set_t 8 (new_S 4 2)))
  = inr "video/$Bandwidth$/init.mp4".
Proof. apply plain_template_unchanged. reflexivity. Defined.

(** *** Unreadable entries *)

Lemma unreadable_int (v : Py.value) : unreadable v -> Py.int v = None.
Proof. destruct v as [s|z]; [intros [_ H]; exact H | contradiction]. Qed.

Lemma expand_loop_unreadable (segments : list Element) :
  Exists (fun s => unreadable (Py.dict_get "d" (Py.VStr "0") (attrib s)) \/
                   unreadable (Py.dict_get "r" (Py.VStr "0") (attrib s)))
         segments ->
  forall (idx : nat) (tl : Element),
    exists n tl', expand_loop segments idx tl = inl (Py.ValueError, (n, tl')).
Proof.
  induction segments as [|s rest IH]; intros HE idx tl; [inversion HE|].
  cbn [expand_loop].
  destruct (Py.int (Py.dict_get "d" (Py.VStr "0") (attrib s))) as [d|] eqn:Hd;
    [|now exists idx, tl].
  destruct (Py.int (Py.dict_get "r" (Py.VStr "0") (attrib s))) as [r|] eqn:Hr;
    [|now exists idx, tl].
  destruct (insert_run (Z.to_nat (r + 1)) d idx tl) as [idx' tl1].
  apply IH. inversion HE as [? ? [H|H]|]; subst; [| |assumption];
    apply unreadable_int in H; congruence.
Qed.

(** What the records of line 293 add to a world. *)
Lemma appended_returns (n : nat) : forall w,
  appended n w
  = Ok tt (mkWorld (proxy w) (tree w) (next_oid w) (requests w)
                   (trace w ++ List.repeat (Log VERBOSE "appending a new elem" []) n)).
Proof.
  induction n as [|n IH]; intros w; cbn [appended List.repeat].
  - rewrite app_nil_r. now destruct w.
  - unfold bind, verbose, log, modify. rewrite IH. cbn [proxy tree next_oid requests trace emit].
    now rewrite <- app_assoc.
Qed.

(** X9.  When the [d] or the [r] attribute of some [S] element of a
    timeline is a string of characters below 128 that is not an integer
    literal, lines 280-294 raise [ValueError]. *)
Theorem expansion_rejects_unreadable (self : RepAddr) (tl : Element) (w : World) :
  Exists (fun s => unreadable (Py.dict_get "d" (Py.VStr "0") (attrib s)) \/
                   unreadable (Py.dict_get "r" (Py.VStr "0") (attrib s)))
         (findall (qn "S") tl) ->
  exists w', expand_timeline self tl w = Raise Py.ValueError w' /\ proxy w' = proxy w.
Proof.
  intros HE. unfold expand_timeline.
  destruct (expand_loop_unreadable HE 0 (remove_segments tl)) as (n & tl' & ->).
  unfold put_timeline. unfold bind at 1. unfold modify at 1.
  unfold bind at 1. unfold modify at 1.
  unfold bind at 1. rewrite appended_returns.
  eexists. split; reflexivity.
Qed.

Lemma expansion_rejects_unreadable_witness :
  let tl := Sample.el "SegmentTimeline" []
                      [Sample.S_ [("d", Py.VStr "4")]; Sample.S_ [("d", Py.VStr "PT4S")]] in
  exists w',
    expand_timeline (Sample.addr 0 0) tl
                    (set_tree (Sample.manifest [] [] "seg.m4s" tl) Sample.world0)
    = Raise Py.ValueError w' /\
    proxy w' = proxy (set_tree (Sample.manifest [] [] "seg.m4s" tl) Sample.world0).
Proof.
  apply expansion_rejects_unreadable.
  apply Exists_cons_tl, Exists_cons_hd. left. split; reflexivity.
Defined.

(** X10.  The rewrite of a timeline keeps its tag, attributes and text,
    puts the expanded [S] elements first and keeps the children that are
    not [S] elements after them, in their order. *)
Theorem expansion_keeps_other_children (tl tl1 : Element) (entries : list Spec.entry)
        (n : nat) :
  Forall2 encodes entries (findall (qn "S") tl) ->
  expand_loop (findall (qn "S") tl) 0 (remove_segments tl) = inr (n, tl1) ->
  tag tl1 = tag tl /\ attrib tl1 = attrib tl /\ text tl1 = text tl /\
  children tl1
  = findall (qn "S") tl1 ++ filter (fun e => negb (has_tag (qn "S") e)) (children tl).
Proof.
  intros HF He.
  assert (HF' : Forall2 states_run entries (findall (qn "S") tl))
    by (revert HF; apply Forall2_impl; intros e s Hes; apply Hes).
  rewrite (expansion_spec _ HF') in He. inversion He; subst n tl1.
  rewrite findall_expansion. repeat split.
Qed.

Lemma expansion_keeps_other_children_witness :
  let other := Sample.el "Pattern" [] [] in
  let tl := Sample.el "SegmentTimeline" [("x", Py.VStr "1")]
                      [Sample.S_ [("d", Py.VStr "4")]; other;
                       Sample.S_ [("d", Py.VStr "5")]] in
  let tl1 := Sample.el "SegmentTimeline" [("x", Py.VStr "1")]
                       [new_S 4 0; new_S 5 1; other] in
  tag tl1 = tag tl /\ attrib tl1 = attrib tl /\ text tl1 = text tl /\
  children tl1
  = findall (qn "S") tl1 ++ filter (fun e => negb (has_tag (qn "S") e)) (children tl).
Proof.
  apply (@expansion_keeps_other_children _ _
           [Spec.mkEntry 4 0 None; Spec.mkEntry 5 0 None] 2).
  - repeat constructor.
  - reflexivity.
Defined.

End Pure.

(* ------------------------------------------------------------------ *)
(** ** Invariants of a run *)

Section Steps.

Variable R : World -> World -> Prop.
Hypothesis R_refl : forall w, R w w.
Hypothesis R_trans : forall w1 w2 w3, R w1 w2 -> R w2 w3 -> R w1 w3.

Lemma steps_ret {A} (a : A) : steps R (ret a).
Proof. intros w. apply R_refl. Qed.

Lemma steps_raise {A} (e : Py.exn) : steps R (@raise A e).
Proof. intros w. apply R_refl. Qed.

Lemma steps_gets {A} (f : World -> A) : steps R (gets f).
Proof. intros w. apply R_refl. Qed.

Lemma steps_lift {A} (r : Py.exn + A) : steps R (lift r).
Proof. destruct r; [apply steps_raise | apply steps_ret]. Qed.

Lemma steps_lift_opt {A} (e : Py.exn) (r : option A) : steps R (lift_opt e r).
Proof. destruct r; [apply steps_ret | apply steps_raise]. Qed.

Lemma steps_modify (f : World -> World) : (forall w, R w (f w)) -> steps R (modify f).
Proof. intros Hf w. apply Hf. Qed.

Lemma steps_bind {A B} (m : M A) (k : A -> M B) :
  steps R m -> (forall a, steps R (k a)) -> steps R (bind m k).
Proof.
  intros Hm Hk w. unfold bind. specialize (Hm w).
  destruct (m w) as [a w1|e w1|]; [|exact Hm|exact I].
  specialize (Hk a w1). destruct (k a w1) as [b w2|e w2|]; [| |exact I];
    eapply R_trans; eassumption.
Qed.

Lemma steps_appended (n : nat) :
  steps R (verbose "appending a new elem" []) -> steps R (appended n).
Proof.
  intros Hlog. induction n as [|n IH]; cbn [appended].
  - apply steps_ret.
  - apply steps_bind; [exact Hlog | intros _; exact IH].
Qed.

Lemma steps_for_enumerate {A} (body : nat -> A -> M unit) (l : list A) : forall i,
  (forall i x, steps R (body i x)) -> steps R (for_enumerate i l body).
Proof.
  induction l as [|x l IH]; intros i Hb; cbn [for_enumerate].
  - apply steps_ret.
  - apply steps_bind; [apply Hb | intros _; now apply IH].
Qed.

End Steps.

Lemma settled_refl (w : World) : settled w w.
Proof.
  repeat split; try reflexivity; try lia.
  intros a d Hd. now exists d.
Qed.

Lemma settled_trans (w1 w2 w3 : World) : settled w1 w2 -> settled w2 w3 -> settled w1 w3.
Proof.
  intros (Hc & Hs & Hi & Hn) (Hc' & Hs' & Hi' & Hn').
  repeat split; try lia; [congruence|].
  intros a d Hd. destruct (Hs a d Hd) as (d1 & Hd1 & Hf1).
  destruct (Hs' a d1 Hd1) as (d2 & Hd2 & Hf2). exists d2. split; auto.
Qed.

(** A change that leaves the proxy and the counter of objects alone. *)
Lemma settled_same_proxy (w w' : World) :
  proxy w' = proxy w -> next_oid w' = next_oid w -> settled w w'.
Proof.
  intros Hp Hn. unfold settled. rewrite Hp, Hn.
  repeat split; try lia. intros a d Hd. now exists d.
Qed.

(** *** The [downloaders] dict *)

Lemma lookup_same_object (a b : RepAddr) (ds : list (RepAddr * DashDownloader)) :
  same_object a b = true -> lookup_downloader a ds = lookup_downloader b ds.
Proof.
  unfold same_object. intros Hab. apply Nat.eqb_eq in Hab.
  induction ds as [|[k d] ds IH]; [reflexivity|].
  cbn [lookup_downloader]. unfold same_object. now rewrite Hab, IH.
Qed.

Lemma lookup_store (self a : RepAddr) (d : DashDownloader)
      (ds : list (RepAddr * DashDownloader)) :
  lookup_downloader a (store_downloader self d ds)
  = if same_object self a then Some d else lookup_downloader a ds.
Proof.
  induction ds as [|[k d0] ds IH]; cbn [store_downloader lookup_downloader].
  - reflexivity.
  - destruct (same_object k self) eqn:Hks; cbn [lookup_downloader].
    + unfold same_object in *. apply Nat.eqb_eq in Hks. rewrite Hks.
      now destruct (oid self =? oid a)%nat.
    + rewrite IH. destruct (same_object k a) eqn:Hka; [|reflexivity].
      destruct (same_object self a) eqn:Hsa; [|reflexivity].
      unfold same_object in *. apply Nat.eqb_eq in Hka, Hsa.
      rewrite Hka, <- Hsa, Nat.eqb_refl in Hks. discriminate.
Qed.

Lemma keys_store_known (self : RepAddr) (d d0 : DashDownloader)
      (ds : list (RepAddr * DashDownloader)) :
  lookup_downloader self ds = Some d0 ->
  map (fun kd => oid (fst kd)) (store_downloader self d ds)
  = map (fun kd => oid (fst kd)) ds.
Proof.
  induction ds as [|[k d1] ds IH]; [discriminate|].
  cbn [lookup_downloader store_downloader].
  destruct (same_object k self); cbn [map fst]; [reflexivity|].
  intros H. now rewrite IH.
Qed.

Lemma keys_store_new (self : RepAddr) (d : DashDownloader)
      (ds : list (RepAddr * DashDownloader)) :
  lookup_downloader self ds = None ->
  map (fun kd => oid (fst kd)) (store_downloader self d ds)
  = (map (fun kd => oid (fst kd)) ds ++ [oid self])%list.
Proof.
  induction ds as [|[k d1] ds IH]; [reflexivity|].
  cbn [lookup_downloader store_downloader].
  destruct (same_object k self); [discriminate|].
  intros H. cbn [map fst app]. now rewrite IH.
Qed.

(** *** Every operation keeps what is settled *)

Create HintDb settled.

Ltac settled_step :=
  match goal with
  | |- steps _ (ret _) => apply steps_ret; exact settled_refl
  | |- steps _ (raise _) => apply steps_raise; exact settled_refl
  | |- steps _ (gets _) => apply steps_gets; exact settled_refl
  | |- steps _ (lift _) => apply steps_lift; exact settled_refl
  | |- steps _ (lift_opt _ _) => apply steps_lift_opt; exact settled_refl
  | |- steps _ (bind _ _) =>
      apply (steps_bind settled_trans); [|intros ?]
  | |- steps _ (for_enumerate _ _ _) =>
      apply (steps_for_enumerate settled_refl settled_trans); intros ? ?
  | |- steps _ (if ?b then _ else _) => destruct b
  | |- steps _ (match ?x with _ => _ end) => destruct x
  | |- steps _ _ => solve [auto with settled]
  end.

Ltac settled_auto := repeat settled_step.

Lemma log_settled (lv : level) (fmt : string) (args : list logarg) :
  steps settled (log lv fmt args).
Proof. intros w. now apply settled_same_proxy. Qed.

Lemma emit_settled (e : event) : steps settled (modify (emit e)).
Proof. intros w. now apply settled_same_proxy. Qed.

Lemma set_tree_settled (f : World -> Element) :
  steps settled (modify (fun w => set_tree (f w) w)).
Proof. intros w. now apply settled_same_proxy. Qed.

Lemma appended_settled (n : nat) : steps settled (appended n).
Proof. apply (steps_appended settled_refl settled_trans), log_settled. Qed.

Lemma live_representation_settled (self : RepAddr) (rep : Element) :
  steps settled (live_representation self rep).
Proof. apply steps_gets, settled_refl. Qed.

Hint Resolve log_settled emit_settled set_tree_settled appended_settled
  live_representation_settled : settled.

Lemma update_self_settled (self : RepAddr) (f : DashDownloader -> DashDownloader) :
  (forall d, initialization_downloaded d = true -> initialization_downloaded (f d) = true) ->
  steps settled (update_self self f).
Proof.
  intros Hf w. unfold update_self, self_downloader, bind, gets, lift_opt, modify.
  destruct (lookup_downloader self (downloaders (proxy w))) as [d|] eqn:Hd;
    cbn; [|apply settled_refl].
  repeat split; try (cbn; lia).
  intros a d0 Ha. cbn [proxy set_proxy downloaders set_downloaders].
  rewrite lookup_store. destruct (same_object self a) eqn:Hsa.
  - exists (f d). split; [reflexivity|].
    rewrite <- (@lookup_same_object self a _ Hsa), Hd in Ha.
    inversion Ha; subst. apply Hf.
  - now exists d0.
Qed.

Section Kept.

Variable http_get : nat -> string -> Response.
Variable fromstring : string -> option Element.
Variable tostring : Element -> string.

Lemma requests_get_settled (url : string) (hdrs cks : arg) :
  steps settled (requests_get http_get url hdrs cks).
Proof. intros w. now apply settled_same_proxy. Qed.

Hint Resolve requests_get_settled : settled.

Lemma download_template_settled (self : RepAddr) (template : Py.value)
      (hdrs cks : arg) (representation segment : option Element) :
  steps settled (download_template http_get self template hdrs cks representation segment).
Proof.
  unfold download_template, full_url, self_downloader, write, info, error.
  settled_auto.
Qed.

Lemma download_single_settled (self : RepAddr) (hdrs cks : arg) :
  steps settled (download_single http_get self hdrs cks).
Proof.
  unfold download_single, full_url, self_downloader, write, info, error.
  settled_auto.
Qed.

Hint Resolve download_template_settled download_single_settled : settled.

Lemma media_loop_settled (self : RepAddr) (mt : Py.value) (rep : Element)
      (segments : list Element) : forall (k : nat) (next_time : Z) (tl : Element),
  steps settled (media_loop http_get self mt rep k segments next_time tl).
Proof.
  induction segments as [|s rest IH]; intros k nt tl; cbn [media_loop];
    unfold put_timeline; settled_auto.
Qed.

Hint Resolve media_loop_settled : settled.

Lemma DashDownloader_handle_mpd_settled (self : RepAddr) (base_url : string)
      (hdrs cks : arg) :
  steps settled (DashDownloader_handle_mpd http_get self base_url hdrs cks).
Proof.
  unfold DashDownloader_handle_mpd, expand_timeline, put_timeline, self_downloader.
  apply (steps_bind settled_trans); [now apply update_self_settled|]. intros _.
  settled_auto. now apply update_self_settled.
Qed.

Hint Resolve DashDownloader_handle_mpd_settled : settled.

Lemma register_settled (a : RepAddr) (w : World) :
  contains a (downloaders (proxy w)) = false ->
  settled w (set_proxy
               (fun p => set_downloaders
                           (store_downloader a (mkDashDownloader a "" false)
                                             (downloaders p)) p) w).
Proof.
  unfold contains. intros Hc. repeat split; try (cbn; lia).
  intros b d Hb. cbn [proxy set_proxy downloaders set_downloaders].
  rewrite lookup_store. destruct (same_object a b) eqn:Hab; [|now exists d].
  rewrite <- (@lookup_same_object a b _ Hab) in Hb. now rewrite Hb in Hc.
Qed.

Lemma steps_from (R : World -> World -> Prop) {A} (m : M A) (w w0 : World) :
  (forall w1 w2 w3, R w1 w2 -> R w2 w3 -> R w1 w3) ->
  R w w0 -> steps R m ->
  match m w0 with
  | Ok _ w' | Raise _ w' => R w w'
  | OutOfFuel => True
  end.
Proof.
  intros Ht Hw Hm. specialize (Hm w0).
  destruct (m w0); try exact I; eapply Ht; eassumption.
Qed.

Lemma ensure_downloader_settled (a : RepAddr) :
  steps settled (ensure_downloader http_get a).
Proof.
  intros w. unfold ensure_downloader. unfold bind at 1. unfold gets at 1.
  destruct (contains a (downloaders (proxy w))) eqn:Hc.
  - now apply settled_same_proxy.
  - unfold bind at 1. unfold info at 1, log at 1, modify at 1.
    unfold bind at 1. unfold modify at 1.
    eapply (@steps_from settled); [exact settled_trans | | settled_auto].
    eapply settled_trans; [|now apply register_settled].
    now apply settled_same_proxy.
Qed.

Hint Resolve ensure_downloader_settled : settled.

Lemma new_RepAddr_settled (p a r : nat) : steps settled (new_RepAddr p a r).
Proof.
  intros w. repeat split; try (cbn; lia). intros b d Hb. now exists d.
Qed.

Hint Resolve new_RepAddr_settled : settled.

Lemma drive_representations_settled (m : Element) :
  steps settled (drive_representations http_get m).
Proof. unfold drive_representations, verbose. settled_auto. Qed.

Lemma write_output_mpd_settled (m : Element) :
  steps settled (write_output_mpd tostring m).
Proof. unfold write_output_mpd, write_file, info. settled_auto. Qed.

Hint Resolve drive_representations_settled write_output_mpd_settled : settled.

Lemma DashProxy_handle_mpd_settled (refresh : Z -> M unit) (m : Element) :
  (forall after, steps settled (refresh after)) ->
  steps settled (DashProxy_handle_mpd http_get tostring refresh m).
Proof.
  intros Hr. unfold DashProxy_handle_mpd, info.
  apply (steps_bind settled_trans);
    [intros w; now apply settled_same_proxy | intros _].
  settled_auto.
Qed.

Lemma request_mpd_settled (after : Z) : steps settled (request_mpd http_get after).
Proof.
  unfold request_mpd, time_sleep.
  apply (steps_bind settled_trans); [|intros _; settled_auto].
  intros w. repeat split; try (cbn; lia). intros b d Hb. now exists d.
Qed.

Hint Resolve DashProxy_handle_mpd_settled request_mpd_settled : settled.

(** X1.  Whatever a run does, and however it ends, it leaves the
    configuration of the proxy as it was, keeps every session it had (a
    session whose initialization was downloaded stays so), and never
    decreases the refresh counter. *)
Theorem run_keeps_sessions_and_config (fuel : nat) (w : World) :
  match run http_get fromstring tostring fuel w with
  | Ok _ w' | Raise _ w' => settled w w'
  | OutOfFuel => True
  end.
Proof.
  assert (Hrefresh : forall fuel after,
             steps settled (refresh_mpd http_get fromstring tostring fuel after)).
  { clear. induction fuel as [|fuel IH]; intros after; cbn [refresh_mpd].
    - intros w. exact I.
    - unfold warn_retry. settled_auto. }
  assert (Hrun : steps settled (run http_get fromstring tostring fuel))
    by (unfold run; settled_auto).
  exact (Hrun w).
Qed.

End Kept.

(* ------------------------------------------------------------------ *)
(** ** How a run ends *)

Section Finishes.

Lemma finishes_ret {A} (a : A) : finishes (ret a).
Proof. intros w. discriminate. Qed.

Lemma finishes_raise {A} (e : Py.exn) : finishes (@raise A e).
Proof. intros w. discriminate. Qed.

Lemma finishes_gets {A} (f : World -> A) : finishes (gets f).
Proof. intros w. discriminate. Qed.

Lemma finishes_modify (f : World -> World) : finishes (modify f).
Proof. intros w. discriminate. Qed.

Lemma finishes_lift {A} (r : Py.exn + A) : finishes (lift r).
Proof. destruct r; intros w; discriminate. Qed.

Lemma finishes_lift_opt {A} (e : Py.exn) (r : option A) : finishes (lift_opt e r).
Proof. destruct r; intros w; discriminate. Qed.

Lemma finishes_log (lv : level) (fmt : string) (args : list logarg) :
  finishes (log lv fmt args).
Proof. intros w. discriminate. Qed.

Lemma finishes_bind {A B} (m : M A) (k : A -> M B) :
  finishes m -> (forall a, finishes (k a)) -> finishes (bind m k).
Proof.
  intros Hm Hk w. unfold bind. specialize (Hm w).
  destruct (m w) as [a w1|e w1|]; [apply Hk | discriminate | contradiction].
Qed.

Lemma finishes_appended (n : nat) : finishes (appended n).
Proof.
  induction n as [|n IH]; cbn [appended].
  - apply finishes_ret.
  - apply finishes_bind; [apply finishes_log | intros _; exact IH].
Qed.

Lemma finishes_live_representation (self : RepAddr) (rep : Element) :
  finishes (live_representation self rep).
Proof. apply finishes_gets. Qed.

Lemma finishes_for_enumerate {A} (body : nat -> A -> M unit) (l : list A) : forall i,
  (forall i x, finishes (body i x)) -> finishes (for_enumerate i l body).
Proof.
  induction l as [|x l IH]; intros i Hb; cbn [for_enumerate].
  - apply finishes_ret.
  - apply finishes_bind; [apply Hb | intros _; now apply IH].
Qed.

End Finishes.

Create HintDb finishes.

Ltac finishes_step :=
  match goal with
  | |- finishes (ret _) => apply finishes_ret
  | |- finishes (raise _) => apply finishes_raise
  | |- finishes (gets _) => apply finishes_gets
  | |- finishes (lift _) => apply finishes_lift
  | |- finishes (lift_opt _ _) => apply finishes_lift_opt
  | |- finishes (log _ _ _) => apply finishes_log
  | |- finishes (info _ _) => apply finishes_log
  | |- finishes (verbose _ _) => apply finishes_log
  | |- finishes (warning _ _) => apply finishes_log
  | |- finishes (error _ _) => apply finishes_log
  | |- finishes (modify _) => apply finishes_modify
  | |- finishes (appended _) => apply finishes_appended
  | |- finishes (live_representation _ _) => apply finishes_live_representation
  | |- finishes (bind _ _) => apply finishes_bind; [|intros ?]
  | |- finishes (for_enumerate _ _ _) => apply finishes_for_enumerate; intros ? ?
  | |- finishes (if ?b then _ else _) => destruct b
  | |- finishes (match ?x with _ => _ end) => destruct x
  | |- finishes _ => solve [auto with finishes]
  end.

Ltac finishes_auto := repeat finishes_step.

Section Ending.

Variable http_get : nat -> string -> Response.
Variable fromstring : string -> option Element.
Variable tostring : Element -> string.

Lemma requests_get_finishes (url : string) (hdrs cks : arg) :
  finishes (requests_get http_get url hdrs cks).
Proof. intros w. discriminate. Qed.

Lemma new_RepAddr_finishes (p a r : nat) : finishes (new_RepAddr p a r).
Proof. intros w. discriminate. Qed.

Hint Resolve requests_get_finishes new_RepAddr_finishes : finishes.

Lemma download_template_finishes (self : RepAddr) (template : Py.value)
      (hdrs cks : arg) (representation segment : option Element) :
  finishes (download_template http_get self template hdrs cks representation segment).
Proof. unfold download_template, full_url, self_downloader, write. finishes_auto. Qed.

Lemma download_single_finishes (self : RepAddr) (hdrs cks : arg) :
  finishes (download_single http_get self hdrs cks).
Proof. unfold download_single, full_url, self_downloader, write. finishes_auto. Qed.

Hint Resolve download_template_finishes download_single_finishes : finishes.

Lemma media_loop_finishes (self : RepAddr) (mt : Py.value) (rep : Element)
      (segments : list Element) : forall (k : nat) (next_time : Z) (tl : Element),
  finishes (media_loop http_get self mt rep k segments next_time tl).
Proof.
  induction segments as [|s rest IH]; intros k nt tl; cbn [media_loop];
    unfold put_timeline; finishes_auto.
Qed.

Hint Resolve media_loop_finishes : finishes.

Lemma DashDownloader_handle_mpd_finishes (self : RepAddr) (base_url : string)
      (hdrs cks : arg) :
  finishes (DashDownloader_handle_mpd http_get self base_url hdrs cks).
Proof.
  unfold DashDownloader_handle_mpd, expand_timeline, put_timeline, update_self, self_downloader.
  finishes_auto.
Qed.

Hint Resolve DashDownloader_handle_mpd_finishes : finishes.

Lemma ensure_downloader_finishes (a : RepAddr) : finishes (ensure_downloader http_get a).
Proof. unfold ensure_downloader. finishes_auto. Qed.

Hint Resolve ensure_downloader_finishes : finishes.

Lemma DashProxy_handle_mpd_finishes (refresh : Z -> M unit) (m : Element) :
  (forall after, finishes (refresh after)) ->
  finishes (DashProxy_handle_mpd http_get tostring refresh m).
Proof.
  intros Hr. unfold DashProxy_handle_mpd, drive_representations, write_output_mpd,
    write_file.
  finishes_auto.
Qed.

(** An on-demand manifest is handled without the callback. *)
Lemma DashProxy_handle_mpd_vod (refresh refresh' : Z -> M unit) (m : Element) :
  truthy (Py.dict_get "minimumUpdatePeriod" (Py.VStr "") (attrib m)) = false ->
  DashProxy_handle_mpd http_get tostring refresh m
  = DashProxy_handle_mpd http_get tostring refresh' m.
Proof. intros Hv. unfold DashProxy_handle_mpd. now rewrite Hv. Qed.

Lemma request_mpd_Ok (after : Z) (w : World) :
  exists w1,
    request_mpd http_get after w = Ok (http_get (requests w) (mpd (proxy w))) w1.
Proof.
  unfold request_mpd. run_monad. destruct (0 <? after); run_monad;
    eexists; reflexivity.
Qed.

(** X2.  When the first answer to the manifest request is a success and the
    manifest it carries has no [minimumUpdatePeriod], one level of calls is
    enough: the call ends (normally or with an exception), and it ends the
    same way whatever depth is allowed. *)
Theorem on_demand_single_cycle (fuel : nat) (after : Z) (w : World) (m : Element) :
  success (http_get (requests w) (mpd (proxy w))) = true ->
  fromstring (body (http_get (requests w) (mpd (proxy w)))) = Some m ->
  truthy (Py.dict_get "minimumUpdatePeriod" (Py.VStr "") (attrib m)) = false ->
  refresh_mpd http_get fromstring tostring (S fuel) after w
  = refresh_mpd http_get fromstring tostring 1 after w /\
  refresh_mpd http_get fromstring tostring 1 after w <> OutOfFuel.
Proof.
  intros Hs Hp Hv. destruct (request_mpd_Ok after w) as (w1 & Hreq).
  assert (Heq : forall f,
             refresh_mpd http_get fromstring tostring (S f) after w
             = DashProxy_handle_mpd http_get tostring (fun _ => ret tt) m w1).
  { intros f. cbn [refresh_mpd]. unfold bind at 1. rewrite Hreq, Hs. cbn [negb].
    unfold bind at 1. unfold ret at 1. unfold bind at 1. rewrite Hp.
    cbn [lift_opt]. unfold ret at 1.
    now rewrite (@DashProxy_handle_mpd_vod _ (fun _ => ret tt) m Hv). }
  split; [now rewrite !Heq|]. rewrite Heq.
  apply DashProxy_handle_mpd_finishes. intros _. apply finishes_ret.
Qed.

(** X3.  Against a server that never answers the manifest request with a
    success status, every retry is one more nested call of [refresh_mpd]:
    no depth of calls is enough for it to return. *)
Theorem retry_is_unbounded :
  (forall n u, success (http_get n u) = false) ->
  forall (fuel : nat) (after : Z) (w : World),
    refresh_mpd http_get fromstring tostring fuel after w = OutOfFuel.
Proof.
  intros Hdown. induction fuel as [|fuel IH]; intros after w; [reflexivity|].
  destruct (request_mpd_Ok after w) as (w1 & Hreq).
  cbn [refresh_mpd]. unfold bind at 1. rewrite Hreq, Hdown. cbn [negb].
  unfold bind at 1. unfold bind at 1. unfold warn_retry, log, modify.
  now rewrite IH.
Qed.

(** X4.  When every manifest read declares [minimumUpdatePeriod], a run
    never returns normally: each cycle that gets to its end calls
    [refresh_mpd] again. *)
Theorem live_stream_never_returns :
  (forall s m, fromstring s = Some m ->
               truthy (Py.dict_get "minimumUpdatePeriod" (Py.VStr "") (attrib m)) = true) ->
  forall (fuel : nat) (after : Z) (w w' : World),
    refresh_mpd http_get fromstring tostring fuel after w <> Ok tt w'.
Proof.
  intros Hlive. induction fuel as [|fuel IH]; intros after w w' H; [discriminate|].
  cbn [refresh_mpd] in H.
  bind_inv H as r w1 Hreq. bind_inv H as u w2 Hretry. bind_inv H as m w3 Hparse.
  apply lift_opt_Ok in Hparse. destruct Hparse as [Hparse ->].
  unfold DashProxy_handle_mpd in H.
  rewrite (Hlive _ _ Hparse) in H.
  bind_inv H as u1 w4 Hset. bind_inv H as u2 w5 Hdrive. bind_inv H as u3 w6 Hwrite.
  destruct (IH 10 w6 w'). exact H.
Qed.

End Ending.

Lemma on_demand_single_cycle_witness :
  refresh_mpd Sample.server_ok (Sample.parse "seg.m4s") Sample.serialize 5 0 Sample.world0
  = refresh_mpd Sample.server_ok (Sample.parse "seg.m4s") Sample.serialize 1 0 Sample.world0 /\
  refresh_mpd Sample.server_ok (Sample.parse "seg.m4s") Sample.serialize 1 0 Sample.world0
  <> OutOfFuel.
Proof.
  apply (@on_demand_single_cycle Sample.server_ok (Sample.parse "seg.m4s")
           Sample.serialize 4 0 Sample.world0 (Sample.vod "seg.m4s"));
    reflexivity.
Defined.

Lemma retry_is_unbounded_witness :
  refresh_mpd Sample.server_down (Sample.parse "seg.m4s") Sample.serialize 7 0
              Sample.world0 = OutOfFuel.
Proof.
  apply (@retry_is_unbounded Sample.server_down (Sample.parse "seg.m4s")
           Sample.serialize).
  intros n u. reflexivity.
Defined.

Lemma live_stream_never_returns_witness :
  match refresh_mpd Sample.server_ok Sample.parse_live Sample.serialize 3 0
                    Sample.world0 with
  | Ok _ _ => False
  | Raise _ _ | OutOfFuel => True
  end.
Proof.
  destruct (refresh_mpd Sample.server_ok Sample.parse_live Sample.serialize 3 0
                        Sample.world0) as [[] w'| |] eqn:H; [|exact I|exact I].
  apply (@live_stream_never_returns Sample.server_ok Sample.parse_live Sample.serialize)
    in H; [exact H|].
  intros s m Hs. inversion Hs. reflexivity.
Defined.

(* ------------------------------------------------------------------ *)
(** ** What [DashDownloader.handle_mpd] requests *)

Section Handle.

Local Open Scope list_scope.

Variable http_get : nat -> string -> Response.

Lemma same_object_refl (a : RepAddr) : same_object a a = true.
Proof. apply Nat.eqb_refl. Qed.

Lemma writes_app (t1 t2 : list event) :
  filter is_write (t1 ++ t2) = filter is_write t1 ++ filter is_write t2.
Proof. apply filter_app. Qed.

(** X11.  A representation without a SegmentTemplate at either level and
    with a BaseURL is fetched as one file: one request, to the base URL
    followed by the text of the BaseURL node; the body is written when the
    status is a success, nothing is written otherwise; the manifest tree is
    not changed. *)
Theorem single_file_branch (self : RepAddr) (base_url dest : string) (hdrs cks : arg)
        (w : World) (d : DashDownloader) (rep node : Element) :
  lookup_downloader self (downloaders (proxy w)) = Some d ->
  MpdLocator.representation (tree w) self = inr rep ->
  MpdLocator.segment_template (tree w) self = inr None ->
  find (qn "BaseURL") rep = Some node ->
  text node = Some dest ->
  exists w',
    DashDownloader_handle_mpd http_get self base_url hdrs cks w = Ok tt w' /\
    tree w' = tree w /\
    urls (trace w') = urls (trace w) ++ [(base_url ++ dest)%string] /\
    filter is_write (trace w')
    = filter is_write (trace w)
      ++ (let r := http_get (requests w) (base_url ++ dest)%string in
          if success r
          then [WriteFile (Py.path_join (output_dir (proxy w)) (Py.before "?" dest))
                          (body r)]
          else []).
Proof.
  intros Hd Hrep Hst Hb Ht.
  unfold DashDownloader_handle_mpd, download_single, update_self, self_downloader,
    full_url, write, MpdLocator.base_url.
  run_monad. rewrite Hd. run_monad. rewrite Hrep, Hst. run_monad.
  rewrite Hrep, Hb. run_monad. rewrite Ht. unfold self_downloader. run_monad.
  cbn [proxy set_downloaders downloaders].
  rewrite lookup_store, same_object_refl.
  cbn [mpd_base_url set_mpd_base_url output_dir]. run_monad.
  destruct (success (http_get (requests w) (base_url ++ dest)%string));
    run_monad; eexists; (split; [reflexivity|]); cbn [tree trace output_dir set_downloaders];
    rewrite !urls_app, !writes_app; cbn; rewrite ?app_nil_r; repeat split.
Qed.


(** *** Stepping through a computation that returns *)

Lemma bind_returns {A B} (m : M A) (k : A -> M B) (w w1 w2 : World) (a : A) (b : B) :
  m w = Ok a w1 -> k a w1 = Ok b w2 -> bind m k w = Ok b w2.
Proof. intros Hm Hk. unfold bind. now rewrite Hm. Qed.

Lemma bind_then {A B} (m : M A) (k : A -> M B) (w w1 : World) (a : A)
      (o : outcome B) :
  m w = Ok a w1 -> k a w1 = o -> bind m k w = o.
Proof. intros Hm Hk. unfold bind. now rewrite Hm. Qed.

Lemma bind_raises {A B} (m : M A) (k : A -> M B) (w w1 w2 : World) (a : A)
      (e : Py.exn) :
  m w = Ok a w1 -> k a w1 = Raise e w2 -> bind m k w = Raise e w2.
Proof. intros Hm Hk. unfold bind. now rewrite Hm. Qed.

Lemma lift_returns {A} (r : Py.exn + A) (a : A) (w : World) :
  r = inr a -> lift r w = Ok a w.
Proof. now intros ->. Qed.

Lemma lift_opt_returns {A} (e : Py.exn) (r : option A) (a : A) (w : World) :
  r = Some a -> lift_opt e r w = Ok a w.
Proof. now intros ->. Qed.

Lemma self_downloader_returns (self : RepAddr) (d : DashDownloader) (w : World) :
  lookup_downloader self (downloaders (proxy w)) = Some d ->
  self_downloader self w = Ok d w.
Proof. intros Hd. unfold self_downloader, bind, gets. now rewrite Hd. Qed.

Lemma update_self_returns (self : RepAddr) (f : DashDownloader -> DashDownloader)
      (d : DashDownloader) (w : World) :
  lookup_downloader self (downloaders (proxy w)) = Some d ->
  update_self self f w = Ok tt (updated self (f d) w).
Proof.
  intros Hd. unfold update_self.
  eapply bind_returns; [eapply self_downloader_returns; exact Hd | reflexivity].
Qed.

Lemma lookup_updated (self : RepAddr) (d : DashDownloader) (w : World) :
  lookup_downloader self (downloaders (proxy (updated self d w))) = Some d.
Proof.
  unfold updated. cbn [proxy set_proxy downloaders set_downloaders].
  now rewrite lookup_store, same_object_refl.
Qed.


Lemma urls_appended (n : nat) :
  urls (List.repeat (Log VERBOSE "appending a new elem" []) n) = [].
Proof. induction n as [|n IH]; [reflexivity | exact IH]. Qed.

(** Lines 280-294 on a timeline whose entries are readable. *)
Lemma expand_timeline_returns (self : RepAddr) (tl : Element)
      (entries : list Spec.entry) (w : World) :
  Forall2 states_run entries (findall (qn "S") tl) ->
  exists w1,
    expand_timeline self tl w = Ok (expansion tl entries) w1 /\
    proxy w1 = proxy w /\
    tree w1 = MpdLocator.set_segment_timeline
                (MpdLocator.set_segment_timeline (tree w) self (remove_segments tl))
                self (expansion tl entries) /\
    trace w1 = trace w ++ List.repeat (Log VERBOSE "appending a new elem" [])
                                      (Spec.total entries).
Proof.
  intros HF. unfold expand_timeline. rewrite (expansion_spec _ HF).
  fold (expansion tl entries).
  unfold put_timeline. unfold bind at 1. unfold modify at 1.
  unfold bind at 1. unfold modify at 1.
  unfold bind at 1. rewrite appended_returns.
  eexists. split; [reflexivity|]. repeat split.
Qed.

Lemma encodes_states_run (entries : list Spec.entry) (l : list Element) :
  Forall2 encodes entries l -> Forall2 states_run entries l.
Proof. apply Forall2_impl. intros e s Hes. apply Hes. Qed.

(** The part of [handle_mpd] that comes after the initialization file, with
    a media template that renders without representation and segment. *)
Lemma timeline_handled (self : RepAddr) (st tl rep : Element)
      (entries : list Spec.entry) (dest : string) (d : DashDownloader) (w : World) :
  Forall2 encodes entries (findall (qn "S") tl) ->
  render_template (Py.dict_get "media" (Py.VStr "") (attrib st)) None None = inr dest ->
  lookup_downloader self (downloaders (proxy w)) = Some d ->
  exists w',
    (segment_timeline <- expand_timeline self tl ;;
     media_loop http_get self (Py.dict_get "media" (Py.VStr "") (attrib st)) rep 0
                (findall (qn "S") segment_timeline) 0 segment_timeline ;;
     ret tt)%py w = Ok tt w' /\
    proxy w' = proxy w /\
    urls (trace w')
    = urls (trace w)
      ++ List.repeat (mpd_base_url d ++ dest)%string (Spec.total entries).
Proof.
  intros HF Hm Hd.
  destruct (@expand_timeline_returns self tl entries w (encodes_states_run HF))
    as (w1 & Hexp & Hp1 & _ & Ht1).
  assert (HS : findall (qn "S") (expansion tl entries) = created 0 entries)
    by apply findall_expansion.
  destruct (@media_loop_requests_all http_get self
              (Py.dict_get "media" (Py.VStr "") (attrib st)) rep d dest
              (findall (qn "S") (expansion tl entries)) 0 0 (expansion tl entries) w1)
    as (tl' & w' & Hml & Hp & Hu).
  { rewrite HS. apply created_untimed. }
  { exact Hm. }
  { now rewrite Hp1. }
  exists w'. split; [|split].
  - eapply bind_returns; [exact Hexp|]. cbv beta.
    eapply bind_returns; [exact Hml | reflexivity].
  - now rewrite Hp, Hp1.
  - rewrite Hu, Ht1, urls_app, urls_appended, app_nil_r, HS, created_length.
    reflexivity.
Qed.

(** The same part with a media template that does not render that way. *)
Lemma timeline_refused (self : RepAddr) (st tl rep : Element)
      (entries : list Spec.entry) (e : Py.exn) (w : World) :
  Forall2 encodes entries (findall (qn "S") tl) ->
  entries <> [] ->
  render_template (Py.dict_get "media" (Py.VStr "") (attrib st)) None None = inl e ->
  exists w',
    (segment_timeline <- expand_timeline self tl ;;
     media_loop http_get self (Py.dict_get "media" (Py.VStr "") (attrib st)) rep 0
                (findall (qn "S") segment_timeline) 0 segment_timeline ;;
     ret tt)%py w = Raise e w' /\
    urls (trace w') = urls (trace w).
Proof.
  intros HF Hne Hm.
  destruct (@expand_timeline_returns self tl entries w (encodes_states_run HF))
    as (w1 & Hexp & _ & _ & Ht1).
  assert (HS : findall (qn "S") (expansion tl entries) = created 0 entries)
    by apply findall_expansion.
  destruct entries as [|e0 rest]; [contradiction|].
  assert (Hcons : created 0 (e0 :: rest)
                  = new_S (Spec.duration e0) 0
                    :: (map (new_S (Spec.duration e0)) (seq 1 (Spec.repeat e0))
                        ++ created (0 + S (Spec.repeat e0)) rest)) by reflexivity.
  destruct (@media_loop_render_error http_get self
              (Py.dict_get "media" (Py.VStr "") (attrib st)) rep
              (new_S (Spec.duration e0) 0)
              (map (new_S (Spec.duration e0)) (seq 1 (Spec.repeat e0))
               ++ created (0 + S (Spec.repeat e0)) rest)
              0 0 (expansion tl (e0 :: rest)) w1 e (new_S_untimed _ _) Hm)
    as (w' & Hml & Ht).
  exists w'. split.
  - eapply bind_raises; [exact Hexp|]. cbv beta. rewrite HS, Hcons.
    unfold bind at 1. now rewrite Hml.
  - now rewrite Ht, Ht1, urls_app, urls_appended, app_nil_r.
Qed.

(** The initialization file, lines 273-278. *)
Lemma initialization_fetched (self : RepAddr) (st rep : Element) (hdrs cks : arg)
      (idest : string) (d : DashDownloader) (w : World) :
  lookup_downloader self (downloaders (proxy w)) = Some d ->
  let init := Py.dict_get "initialization" (Py.VStr "") (attrib st) in
  let first := truthy init && negb (initialization_downloaded d) in
  (first = true -> render_template init (Some rep) None = inr idest) ->
  exists w',
    (if first
     then update_self self (set_initialization_downloaded true) ;;
          download_template http_get self init hdrs cks (Some rep) None
     else ret tt)%py w = Ok tt w' /\
    lookup_downloader self (downloaders (proxy w'))
    = Some (mkDashDownloader (rep_addr d) (mpd_base_url d)
                             (initialization_downloaded d || first)) /\
    urls (trace w')
    = urls (trace w) ++ (if first then [(mpd_base_url d ++ idest)%string] else []).
Proof.
  intros Hd init first Hi. destruct first eqn:Hfirst.
  - set (d2 := set_initialization_downloaded true d). set (w2 := updated self d2 w).
    assert (Hd2 : lookup_downloader self (downloaders (proxy w2)) = Some d2)
      by apply lookup_updated.
    destruct (@download_template_returns http_get self init hdrs cks
                (Some rep) None w2 d2 idest (Hi eq_refl) Hd2) as (w3 & Hdl & Hp3 & Hu3).
    exists w3. split; [|split].
    + eapply bind_returns; [eapply update_self_returns; exact Hd | exact Hdl].
    + rewrite Hp3, Hd2. unfold d2, set_initialization_downloaded.
      now rewrite orb_true_r.
    + rewrite Hu3. reflexivity.
  - exists w. split; [reflexivity|]. split.
    + rewrite Hd, orb_false_r. now destruct d.
    + now rewrite app_nil_r.
Qed.

(** X12.  On the templated branch, with readable entries, [handle_mpd]
    requests the initialization file first, when the template names one and
    the session has not fetched it yet.  Line 305 renders the media
    template without representation and segment.  When it renders that
    way, the call makes one request per expanded segment, all to the base
    URL followed by that one path, and returns; the session then holds the
    base URL, and its initialization flag is set if it was or if the file
    was requested now.  When it does not render that way and the timeline
    has an entry, the call raises the rendering error before any media
    request. *)
Theorem templated_branch_requests (self : RepAddr) (base_url idest : string)
        (hdrs cks : arg) (w : World) (d : DashDownloader) (rep st tl : Element)
        (entries : list Spec.entry) :
  lookup_downloader self (downloaders (proxy w)) = Some d ->
  MpdLocator.representation (tree w) self = inr rep ->
  MpdLocator.segment_template (tree w) self = inr (Some st) ->
  find (qn "SegmentTimeline") st = Some tl ->
  Forall2 encodes entries (findall (qn "S") tl) ->
  let init := Py.dict_get "initialization" (Py.VStr "") (attrib st) in
  let first := truthy init && negb (initialization_downloaded d) in
  (first = true -> render_template init (Some rep) None = inr idest) ->
  match render_template (Py.dict_get "media" (Py.VStr "") (attrib st)) None None with
  | inr dest =>
      exists w',
        DashDownloader_handle_mpd http_get self base_url hdrs cks w = Ok tt w' /\
        urls (trace w')
        = urls (trace w)
          ++ (if first then [(base_url ++ idest)%string] else [])
          ++ List.repeat (base_url ++ dest)%string (Spec.total entries) /\
        lookup_downloader self (downloaders (proxy w'))
        = Some (mkDashDownloader (rep_addr d) base_url
                                 (initialization_downloaded d || first))
  | inl e =>
      entries <> [] ->
      exists w',
        DashDownloader_handle_mpd http_get self base_url hdrs cks w = Raise e w' /\
        urls (trace w')
        = urls (trace w) ++ (if first then [(base_url ++ idest)%string] else [])
  end.
Proof.
  intros Hd Hrep Hst Htl HF init first Hi.
  set (d1 := set_mpd_base_url base_url d). set (w1 := updated self d1 w).
  assert (Htls : MpdLocator.segment_timeline (tree w) self = inr (Some tl))
    by (unfold MpdLocator.segment_timeline; rewrite Hst; now rewrite Htl).
  assert (Hd1 : lookup_downloader self (downloaders (proxy w1)) = Some d1)
    by apply lookup_updated.
  destruct (@initialization_fetched self st rep hdrs cks idest d1 w1 Hd1 Hi)
    as (w2 & Hinit & Hd2 & Hu2).
  assert (Hhead : forall (o : outcome unit),
             (segment_timeline <- expand_timeline self tl ;;
              media_loop http_get self (Py.dict_get "media" (Py.VStr "") (attrib st))
                         rep 0 (findall (qn "S") segment_timeline) 0 segment_timeline ;;
              ret tt)%py w2 = o ->
             DashDownloader_handle_mpd http_get self base_url hdrs cks w = o).
  { intros o Ho. unfold DashDownloader_handle_mpd.
    eapply bind_then; [eapply update_self_returns; exact Hd|]. cbv beta.
    eapply bind_then; [reflexivity|]. cbv beta.
    eapply bind_then; [apply lift_returns; exact Hrep|]. cbv beta.
    eapply bind_then; [apply lift_returns; exact Hst|]. cbv beta iota.
    eapply bind_then; [apply lift_returns; exact Htls|]. cbv beta zeta.
    eapply bind_then; [apply self_downloader_returns; exact Hd1|]. cbv beta.
    eapply bind_then; [exact Hinit|]. cbv beta.
    eapply bind_then; [reflexivity|]. exact Ho. }
  destruct (render_template (Py.dict_get "media" (Py.VStr "") (attrib st)) None None)
    as [e|dest] eqn:Hm.
  - intros Hne.
    destruct (@timeline_refused self st tl rep entries e w2 HF Hne Hm)
      as (w' & Htail & Hu).
    exists w'. split; [now apply Hhead|]. rewrite Hu, Hu2. reflexivity.
  - destruct (@timeline_handled self st tl rep entries dest _ w2 HF Hm Hd2)
      as (w' & Htail & Hp & Hu).
    exists w'. split; [now apply Hhead|]. split.
    + rewrite Hu, Hu2. cbn [mpd_base_url]. now rewrite <- app_assoc.
    + rewrite Hp. exact Hd2.
Qed.


Lemma timeline_lookup_none (mpd st : Element) (self : RepAddr) :
  MpdLocator.segment_template mpd self = inr (Some st) ->
  find (qn "SegmentTimeline") st = None ->
  MpdLocator.segment_timeline mpd self = inr None.
Proof. intros Hst Htl. unfold MpdLocator.segment_timeline. now rewrite Hst, Htl. Qed.

(** X13.  A SegmentTemplate without a SegmentTimeline child makes
    [handle_mpd] end with an exception, whatever the server answers; when
    there is no initialization file to fetch the exception is
    [AttributeError] and no request has been made. *)
Theorem template_without_timeline (self : RepAddr) (base_url : string)
        (hdrs cks : arg) (w : World) (d : DashDownloader) (rep st : Element) :
  lookup_downloader self (downloaders (proxy w)) = Some d ->
  MpdLocator.representation (tree w) self = inr rep ->
  MpdLocator.segment_template (tree w) self = inr (Some st) ->
  find (qn "SegmentTimeline") st = None ->
  (exists e w',
      DashDownloader_handle_mpd http_get self base_url hdrs cks w = Raise e w') /\
  (truthy (Py.dict_get "initialization" (Py.VStr "") (attrib st))
   && negb (initialization_downloaded d) = false ->
   DashDownloader_handle_mpd http_get self base_url hdrs cks w
   = Raise Py.AttributeError (updated self (set_mpd_base_url base_url d) w)).
Proof.
  intros Hd Hrep Hst Htl.
  pose proof (timeline_lookup_none _ _ Hst Htl) as Htls.
  unfold DashDownloader_handle_mpd, update_self, self_downloader, updated.
  run_monad. rewrite Hd. run_monad. rewrite Hrep, Hst. run_monad.
  rewrite Htls. run_monad. cbn [proxy set_downloaders downloaders].
  rewrite lookup_store, same_object_refl. run_monad.
  cbn [initialization_downloaded set_mpd_base_url].
  destruct (truthy (Py.dict_get "initialization" (Py.VStr "") (attrib st))
            && negb (initialization_downloaded d)).
  - split; [|discriminate]. run_monad. cbn [proxy set_downloaders downloaders].
    rewrite lookup_store, same_object_refl. run_monad.
    match goal with
    | |- context [download_template ?h ?s ?t ?a ?b ?r ?g ?W] =>
        pose proof (@download_template_finishes h s t a b r g W) as Hfin;
        destruct (download_template h s t a b r g W) as [u w3|e w3|]
    end.
    + do 2 eexists. reflexivity.
    + do 2 eexists. reflexivity.
    + now contradiction Hfin.
  - split; [do 2 eexists; reflexivity | intros _; reflexivity].
Qed.

End Handle.

Lemma single_file_branch_witness :
  exists w',
    DashDownloader_handle_mpd Sample.server_no_segments (Sample.addr 1 0)
      "http://cdn/" (ArgDict []) (ArgDict []) sample_world_single = Ok tt w' /\
    tree w' = Sample.both_levels /\
    urls (trace w') = ["http://cdn/d.mp4"] /\
    filter is_write (trace w') = [].
Proof.
  apply (@single_file_branch Sample.server_no_segments (Sample.addr 1 0)
           "http://cdn/" "d.mp4" (ArgDict []) (ArgDict []) sample_world_single
           (mkDashDownloader (Sample.addr 1 0) "http://h/a/b/" false)
           (Sample.file "d" "d.mp4") (Sample.leaf "BaseURL" "d.mp4"));
    reflexivity.
Defined.

Lemma templated_branch_requests_witness :
  (exists w',
      DashDownloader_handle_mpd Sample.server_no_segments (Sample.addr 0 0)
        "http://cdn/" (ArgDict []) (ArgDict []) (Sample.world2 "seg.m4s") = Ok tt w' /\
      urls (trace w')
      = ["http://cdn/v1/init.mp4"; "http://cdn/seg.m4s"; "http://cdn/seg.m4s";
         "http://cdn/seg.m4s"; "http://cdn/seg.m4s"] /\
      lookup_downloader (Sample.addr 0 0) (downloaders (proxy w'))
      = Some (mkDashDownloader (Sample.addr 0 0) "http://cdn/" true)) /\
  (exists w',
      DashDownloader_handle_mpd Sample.server_ok (Sample.addr 0 0)
        "http://cdn/" (ArgDict []) (ArgDict []) (Sample.world2 "seg-$Time$.m4s")
      = Raise (Py.KeyError "time") w' /\
      urls (trace w') = ["http://cdn/v1/init.mp4"]).
Proof.
  split.
  - apply (@templated_branch_requests Sample.server_no_segments (Sample.addr 0 0)
             "http://cdn/" "v1/init.mp4" (ArgDict []) (ArgDict [])
             (Sample.world2 "seg.m4s")
             (mkDashDownloader (Sample.addr 0 0) "" false)
             (Sample.representation "seg.m4s" Sample.timeline)
             (Sample.template "seg.m4s" Sample.timeline) Sample.timeline Sample.entries
             eq_refl eq_refl eq_refl eq_refl sample_encoded (fun _ => eq_refl)).
  - pose proof (@templated_branch_requests Sample.server_ok (Sample.addr 0 0)
             "http://cdn/" "v1/init.mp4" (ArgDict []) (ArgDict [])
             (Sample.world2 "seg-$Time$.m4s")
             (mkDashDownloader (Sample.addr 0 0) "" false)
             (Sample.representation "seg-$Time$.m4s" Sample.timeline)
             (Sample.template "seg-$Time$.m4s" Sample.timeline) Sample.timeline
             Sample.entries
             eq_refl eq_refl eq_refl eq_refl sample_encoded (fun _ => eq_refl)) as H.
    change (render_template
              (Py.dict_get "media" (Py.VStr "")
                 (attrib (Sample.template "seg-$Time$.m4s" Sample.timeline))) None None)
      with (@inl Py.exn string (Py.KeyError "time")) in H.
    cbv iota beta in H.
    destruct H as (w' & H1 & H2); [discriminate|].
    exists w'. split; [exact H1 | exact H2].
Defined.

Lemma template_without_timeline_witness :
  (exists e w',
      DashDownloader_handle_mpd Sample.server_ok (Sample.addr 0 0) "http://cdn/"
        (ArgDict []) (ArgDict []) Sample.world_both = Raise e w') /\
  DashDownloader_handle_mpd Sample.server_ok (Sample.addr 0 0) "http://cdn/"
    (ArgDict []) (ArgDict []) Sample.world_both
  = Raise Py.AttributeError
          (updated (Sample.addr 0 0)
                   (mkDashDownloader (Sample.addr 0 0) "http://cdn/" false)
                   Sample.world_both).
Proof.
  split.
  - apply (proj1 (@template_without_timeline Sample.server_ok (Sample.addr 0 0)
                    "http://cdn/" (ArgDict []) (ArgDict []) Sample.world_both
                    (mkDashDownloader (Sample.addr 0 0) "" false)
                    (Sample.el "Representation" [("id", Py.VStr "a")] [Sample.st_rep])
                    Sample.st_rep eq_refl eq_refl eq_refl eq_refl)).
  - apply (proj2 (@template_without_timeline Sample.server_ok (Sample.addr 0 0)
                    "http://cdn/" (ArgDict []) (ArgDict []) Sample.world_both
                    (mkDashDownloader (Sample.addr 0 0) "" false)
                    (Sample.el "Representation" [("id", Py.VStr "a")] [Sample.st_rep])
                    Sample.st_rep eq_refl eq_refl eq_refl eq_refl)).
    reflexivity.
Defined.

(* ------------------------------------------------------------------ *)
(** ** The timeline node in the tree *)

Section In_place.

Local Open Scope list_scope.

Variable http_get : nat -> string -> Response.

(** *** Reading a node back after a change at its place *)

Lemma has_tag_eq (t : string) (e : Element) : has_tag t e = true -> tag e = t.
Proof. apply String.eqb_eq. Qed.

Lemma nth_filter_tag (t : string) (l : list Element) (n : nat) (x : Element) :
  nth_error (filter (has_tag t) l) n = Some x -> has_tag t x = true.
Proof.
  intros H. apply nth_error_In in H. apply filter_In in H. apply H.
Qed.

Lemma nth_filter_update (t : string) (f : Element -> Element) (l : list Element) :
  forall (n : nat) (x : Element),
  nth_error (filter (has_tag t) l) n = Some x ->
  has_tag t (f x) = true ->
  nth_error (filter (has_tag t) (update_nth t n f l)) n = Some (f x).
Proof.
  induction l as [|e l IH]; intros n x Hn Hf; [now destruct n|].
  cbn [filter update_nth] in *. destruct (has_tag t e) eqn:He.
  - destruct n as [|n].
    + cbn in Hn. inversion Hn; subst e. cbn [filter]. now rewrite Hf.
    + cbn [filter]. rewrite He. cbn in *. now apply IH.
  - cbn [filter]. rewrite He. now apply IH.
Qed.

Lemma index_on_nth (t : string) (n : nat) (f : Element -> Element) (e x : Element) :
  index (findall t e) n = inr x ->
  tag (f x) = tag x ->
  index (findall t (on_nth t n f e)) n = inr (f x).
Proof.
  unfold index, findall, on_nth. rewrite children_with_children.
  destruct (nth_error (filter (has_tag t) (children e)) n) as [y|] eqn:Hn;
    [|discriminate].
  intros H Hf. inversion H; subst y.
  rewrite (@nth_filter_update t f (children e) n x Hn); [reflexivity|].
  unfold has_tag. rewrite Hf. exact (nth_filter_tag _ _ _ Hn).
Qed.

Lemma find_update_first (t : string) (f : Element -> Element) (l : list Element)
      (x : Element) :
  List.find (has_tag t) l = Some x ->
  has_tag t (f x) = true ->
  List.find (has_tag t) (update_first t f l) = Some (f x).
Proof.
  induction l as [|e l IH]; [discriminate|]. cbn [List.find update_first].
  destruct (has_tag t e) eqn:He; intros H Hf.
  - inversion H; subst e. cbn [List.find]. now rewrite Hf.
  - cbn [List.find]. rewrite He. now apply IH.
Qed.

Lemma find_on_first (t : string) (f : Element -> Element) (e x : Element) :
  find t e = Some x ->
  has_tag t (f x) = true ->
  find t (on_first t f e) = Some (f x).
Proof.
  unfold find, on_first. rewrite children_with_children. apply find_update_first.
Qed.

Lemma find_tag (t : string) (e x : Element) : find t e = Some x -> has_tag t x = true.
Proof. unfold find. intros H. now apply find_some in H. Qed.

Lemma filter_update_first_other (t t' : string) (f : Element -> Element)
      (l : list Element) :
  (forall x, tag (f x) = tag x) ->
  String.eqb t t' = false ->
  filter (has_tag t') (update_first t f l) = filter (has_tag t') l.
Proof.
  intros Hf Htt. induction l as [|e l IH]; [reflexivity|].
  cbn [update_first]. destruct (has_tag t e) eqn:He.
  - assert (H1 : has_tag t' e = false)
      by (unfold has_tag; rewrite (has_tag_eq _ _ He); exact Htt).
    assert (H2 : has_tag t' (f e) = false)
      by (unfold has_tag; rewrite Hf, (has_tag_eq _ _ He); exact Htt).
    cbn [filter]. now rewrite H1, H2.
  - cbn [filter]. now rewrite IH.
Qed.

Lemma findall_on_first_other (t t' : string) (f : Element -> Element) (e : Element) :
  (forall x, tag (f x) = tag x) ->
  String.eqb t t' = false ->
  findall t' (on_first t f e) = findall t' e.
Proof.
  intros Hf Htt. unfold findall, on_first. rewrite children_with_children.
  now apply filter_update_first_other.
Qed.

(** The node [segment_timeline] finds has the tag it was looked up by. *)
Lemma segment_timeline_tag (mpd : Element) (a : RepAddr) (tl : Element) :
  MpdLocator.segment_timeline mpd a = inr (Some tl) ->
  tag tl = qn "SegmentTimeline".
Proof.
  unfold MpdLocator.segment_timeline.
  destruct (MpdLocator.segment_template mpd a) as [e|[st|]]; try discriminate.
  intros H. inversion H as [Hf]. apply has_tag_eq. now apply find_tag in Hf.
Qed.

(** A timeline put at the place of one that was found is found there. *)
Lemma timeline_put (mpd : Element) (a : RepAddr) (tl0 tl : Element) :
  MpdLocator.segment_timeline mpd a = inr (Some tl0) ->
  tag tl = qn "SegmentTimeline" ->
  MpdLocator.segment_timeline (MpdLocator.set_segment_timeline mpd a tl) a
  = inr (Some tl).
Proof.
  intros H Htag.
  assert (Htl : has_tag (qn "SegmentTimeline") tl = true)
    by (unfold has_tag; rewrite Htag; apply String.eqb_refl).
  unfold MpdLocator.segment_timeline, MpdLocator.segment_template,
    MpdLocator.representation, MpdLocator.adaptation_set,
    MpdLocator.set_segment_timeline in *.
  destruct (index (findall (qn "Period") mpd) (period_idx a)) as [e|period] eqn:Hp;
    [discriminate|].
  destruct (index (findall (qn "AdaptationSet") period) (adaptation_set_idx a))
    as [e|aset] eqn:Ha; [discriminate|].
  destruct (index (findall (qn "Representation") aset) (representation_idx a))
    as [e|rep] eqn:Hr; [discriminate|].
  rewrite (@index_on_nth _ _ _ _ _ Hp) by reflexivity.
  rewrite (@index_on_nth _ _ _ _ _ Ha)
    by (cbv beta; rewrite Hr; now destruct (find (qn "SegmentTemplate") rep)).
  cbv beta. rewrite Hr.
  destruct (find (qn "SegmentTemplate") rep) as [rep_st|] eqn:Hst.
  - inversion H as [Hf]. clear H.
    rewrite (@index_on_nth _ _ _ _ _ Hr) by reflexivity.
    rewrite (@find_on_first _ _ _ _ Hst) by (exact (@find_tag _ _ _ Hst)).
    now rewrite (@find_on_first _ _ _ _ Hf).
  - rewrite findall_on_first_other by (intros; reflexivity).
    rewrite Hr, Hst.
    destruct (find (qn "SegmentTemplate") aset) as [st|] eqn:Hsta; [|discriminate].
    inversion H as [Hf]. clear H.
    rewrite (@find_on_first _ _ _ _ Hsta) by (exact (@find_tag _ _ _ Hsta)).
    now rewrite (@find_on_first _ _ _ _ Hf).
Qed.

(** *** What lines 298-305 leave of the node *)

Lemma same_but_t_trans (s1 s2 s3 : Element) :
  same_but_t s1 s2 -> same_but_t s2 s3 -> same_but_t s1 s3.
Proof.
  intros (Ht & Hc & Hx & Ha) (Ht' & Hc' & Hx' & Ha'). repeat split; try congruence.
  intros k Hk. now rewrite Ha', Ha.
Qed.

Lemma same_but_t_set_t (c : Z) (s : Element) : same_but_t s (set_t c s).
Proof.
  repeat split. intros k Hk. unfold set_t. cbn [attrib with_attrib].
  now apply lookup_set_other.
Qed.

Lemma retimed_refl (tl : Element) : retimed tl tl.
Proof.
  repeat split. induction (children tl) as [|s l IH]; constructor; auto.
Qed.

Lemma retimed_trans (tl1 tl2 tl3 : Element) :
  retimed tl1 tl2 -> retimed tl2 tl3 -> retimed tl1 tl3.
Proof.
  intros (Ht & Ha & Hx & Hc) (Ht' & Ha' & Hx' & Hc'). repeat split; try congruence.
  revert Hc'. generalize (children tl3). revert Hc.
  generalize (children tl1) (children tl2). clear.
  induction l as [|s1 l1 IH]; intros l2 H12 l3 H23.
  - inversion H12; subst. inversion H23; subst. constructor.
  - inversion H12 as [|? s2 ? l2' Hs12 Hl12]; subst.
    inversion H23 as [|? s3 ? l3' Hs23 Hl23]; subst.
    constructor; [|eapply IH; eassumption].
    destruct Hs12 as [->|(HS & Hb)]; [exact Hs23|].
    right. split; [exact HS|].
    destruct Hs23 as [->|(HS' & Hb')]; [exact Hb|].
    eapply same_but_t_trans; eassumption.
Qed.

Lemma update_nth_retimes (c : Z) (l : list Element) : forall n,
  Forall2 (fun s s' => s' = s \/ (has_tag (qn "S") s = true /\ same_but_t s s'))
          l (update_nth (qn "S") n (set_t c) l).
Proof.
  induction l as [|e l IH]; intros n; [constructor|].
  cbn [update_nth]. destruct (has_tag (qn "S") e) eqn:He.
  - destruct n as [|n].
    + constructor.
      * right. split; [exact He | apply same_but_t_set_t].
      * clear. induction l as [|s l IH]; constructor; auto.
    + constructor; [now left | apply IH].
  - constructor; [now left | apply IH].
Qed.

Lemma on_nth_retimes (c : Z) (k : nat) (tl : Element) :
  retimed tl (on_nth (qn "S") k (set_t c) tl).
Proof.
  repeat split. unfold on_nth. rewrite children_with_children.
  apply update_nth_retimes.
Qed.

Lemma retimed_tag (tl tl' : Element) : retimed tl tl' -> tag tl' = tag tl.
Proof. intros H. apply H. Qed.

(** A download leaves the tree alone, however it ends. *)
Lemma download_template_tree (self : RepAddr) (template : Py.value)
      (hdrs cks : arg) (representation segment : option Element) (w : World) :
  match download_template http_get self template hdrs cks representation segment w with
  | Ok _ w' | Raise _ w' => tree w' = tree w
  | OutOfFuel => False
  end.
Proof.
  unfold download_template, full_url, self_downloader.
  destruct (render_template template representation segment); run_monad;
    [reflexivity|].
  destruct (lookup_downloader self (downloaders (proxy w))); run_monad;
    [|reflexivity].
  destruct (success _); reflexivity.
Qed.

(** However the loop over the segments ends, the node in the tree is the
    one it started with, up to start times. *)
Lemma media_loop_retimes (self : RepAddr) (mt : Py.value) (rep : Element)
      (segments : list Element) :
  forall (k : nat) (next_time : Z) (tl : Element) (w : World),
  MpdLocator.segment_timeline (tree w) self = inr (Some tl) ->
  match media_loop http_get self mt rep k segments next_time tl w with
  | Ok _ w' | Raise _ w' =>
      exists tl', MpdLocator.segment_timeline (tree w') self = inr (Some tl') /\
                  retimed tl tl'
  | OutOfFuel => False
  end.
Proof.
  induction segments as [|s rest IH]; intros k nt tl w Htl.
  - cbn. exists tl. split; [exact Htl | apply retimed_refl].
  - assert (Hgo : forall (s' : Element) (nt' : Z) (tl1 : Element) (w1 : World),
               MpdLocator.segment_timeline (tree w1) self = inr (Some tl1) ->
               retimed tl tl1 ->
               match (d <- lift_opt Py.ValueError
                             (Py.int (Py.dict_get "d" (Py.VStr "0") (attrib s'))) ;;
                      node <- live_representation self rep ;;
                      download_template http_get self mt (ArgElem node) (ArgElem s')
                                        None None ;;
                      media_loop http_get self mt rep (S k) rest (nt' + d) tl1)%py w1
               with
               | Ok _ w' | Raise _ w' =>
                   exists tl', MpdLocator.segment_timeline (tree w') self
                               = inr (Some tl') /\ retimed tl tl'
               | OutOfFuel => False
               end).
    { intros s' nt' tl1 w1 Htl1 Hre. unfold bind at 1.
      destruct (Py.int (Py.dict_get "d" (Py.VStr "0") (attrib s'))) as [d|];
        cbn [lift_opt]; [|now exists tl1].
      unfold ret at 1. unfold bind at 1. unfold live_representation, gets.
      unfold bind at 1.
      match goal with
      | |- context [download_template ?h ?a ?t ?x ?y ?r ?g w1] =>
          pose proof (@download_template_tree a t x y r g w1) as Hdl;
          destruct (download_template h a t x y r g w1) as [u w2|e w2|]
      end; [| |contradiction].
      - rewrite <- Hdl in Htl1. specialize (IH (S k) (nt' + d) tl1 w2 Htl1).
        destruct (media_loop http_get self mt rep (S k) rest (nt' + d) tl1 w2)
          as [x w3|e w3|]; [| |contradiction];
          destruct IH as (tl' & Hf & Hr); exists tl';
          (split; [exact Hf | eapply retimed_trans; eassumption]).
      - exists tl1. rewrite Hdl. now split. }
    cbn [media_loop]. unfold bind at 1.
    destruct (Py.int (Py.dict_get "t" (Py.VStr "-1") (attrib s))) as [ct|];
      cbn [lift_opt]; [|exists tl; split; [exact Htl | apply retimed_refl]].
    unfold ret at 1. destruct (ct =? -1).
    + unfold bind at 1. unfold put_timeline, modify.
      apply Hgo; [|apply on_nth_retimes].
      cbn [tree set_tree]. eapply timeline_put; [exact Htl|].
      rewrite (retimed_tag (on_nth_retimes nt k tl)).
      exact (segment_timeline_tag _ _ Htl).
    + apply Hgo; [exact Htl | apply retimed_refl].
Qed.

(** *** Expanding again *)

Lemma units_created (d : Z) (n : nat) : forall idx,
  Forall2 states_run (List.repeat (unit_entry d) n) (map (new_S d) (seq idx n)).
Proof.
  induction n as [|n IH]; intros idx; cbn [List.repeat seq map]; constructor;
    [split; reflexivity | apply IH].
Qed.

Lemma created_state_runs (entries : list Spec.entry) : forall idx,
  Forall2 states_run (unrolled entries) (created idx entries).
Proof.
  induction entries as [|e entries IH]; intros idx; [constructor|].
  unfold unrolled in *. cbn [flat_map created].
  apply Forall2_app; [apply units_created | apply IH].
Qed.

Lemma states_run_same_but_t (e : Spec.entry) (s s' : Element) :
  states_run e s -> same_but_t s s' -> states_run e s'.
Proof.
  intros (Hd & Hr) (_ & _ & _ & Ha). unfold states_run, Py.dict_get in *.
  now rewrite !Ha.
Qed.

Lemma retimed_segments (l : list Element) : forall (l' : list Element)
      (entries : list Spec.entry),
  Forall2 (fun s s' => s' = s \/ (has_tag (qn "S") s = true /\ same_but_t s s')) l l' ->
  Forall2 states_run entries (filter (has_tag (qn "S")) l) ->
  Forall2 states_run entries (filter (has_tag (qn "S")) l') /\
  filter (fun e => negb (has_tag (qn "S") e)) l'
  = filter (fun e => negb (has_tag (qn "S") e)) l.
Proof.
  induction l as [|s l IH]; intros l' entries HR HS.
  - inversion HR; subst. now split.
  - inversion HR as [|? s' ? l1 Hs Hl]; subst. cbn [filter] in *.
    assert (Htag : has_tag (qn "S") s' = has_tag (qn "S") s).
    { destruct Hs as [->|(_ & Ht & _)]; [reflexivity|]. unfold has_tag. now rewrite Ht. }
    rewrite Htag. destruct (has_tag (qn "S") s) eqn:He; cbn [negb].
    + inversion HS as [|e0 ? es ? He0 Hes]; subst.
      destruct (IH l1 es Hl Hes) as (H1 & H2). split; [|exact H2].
      constructor; [|exact H1].
      destruct Hs as [->|(_ & Hb)]; [exact He0|].
      eapply states_run_same_but_t; eassumption.
    + destruct (IH l1 entries Hl HS) as (H1 & H2). split; [exact H1|].
      destruct Hs as [->|(Hc & _)]; [now rewrite H2 | congruence].
Qed.

(** Lines 280-294 on what lines 298-305 left of an expanded node give the
    expanded node again. *)
Lemma reexpansion (self : RepAddr) (tl tl2 : Element) (entries : list Spec.entry)
      (w : World) :
  retimed (expansion tl entries) tl2 ->
  exists w',
    expand_timeline self tl2 w = Ok (expansion tl entries) w' /\
    tree w' = MpdLocator.set_segment_timeline
                (MpdLocator.set_segment_timeline (tree w) self (remove_segments tl2))
                self (expansion tl entries).
Proof.
  intros (Ht & Ha & Hx & Hc).
  unfold expansion in Hc at 1. rewrite children_with_children in Hc.
  destruct (@retimed_segments _ _ (unrolled entries) Hc) as (HS & Ho).
  { rewrite filter_app, created_tagged, filter_other_tags, app_nil_r.
    apply created_state_runs. }
  destruct (@expand_timeline_returns self tl2 (unrolled entries) w HS)
    as (w' & Hexp & _ & Htree & _).
  assert (Heq : expansion tl2 (unrolled entries) = expansion tl entries).
  { unfold expansion. rewrite created_unrolled, Ho. rewrite filter_app.
    rewrite filter_not_tagged, filter_others_twice.
    - cbn [app]. unfold with_children. cbn [tag attrib text expansion with_children] in *.
      now rewrite Ht, Ha, Hx.
    - rewrite <- (created_tagged entries 0). clear.
      induction (created 0 entries) as [|s l IH]; cbn [filter]; [constructor|].
      destruct (has_tag (qn "S") s) eqn:He; [constructor; assumption | assumption]. }
  exists w'. rewrite <- Heq. split; [exact Hexp | exact Htree].
Qed.

Lemma remove_segments_tag (tl : Element) : tag (remove_segments tl) = tag tl.
Proof. now rewrite remove_segments_spec. Qed.

(** C5 (as amended).  Lines 280-294 rewrite the timeline node of the tree
    in place: for a node whose [S] elements state [entries] they return,
    and the node then found in the tree has the created elements as its
    [S] children, not the entries it was parsed with.  However lines
    298-305 end afterwards, expanding the node that is in the tree again
    gives the same node with the same sequence of [S] children, and leaves
    it in the tree. *)
Theorem reexpansion_idempotent (self : RepAddr) (tl : Element)
        (entries : list Spec.entry) (w : World) :
  MpdLocator.segment_timeline (tree w) self = inr (Some tl) ->
  Forall2 encodes entries (findall (qn "S") tl) ->
  exists tl1 w1,
    expand_timeline self tl w = Ok tl1 w1 /\
    MpdLocator.segment_timeline (tree w1) self = inr (Some tl1) /\
    findall (qn "S") tl1 = created 0 entries /\
    forall (mt : Py.value) (rep : Element),
      match media_loop http_get self mt rep 0 (findall (qn "S") tl1) 0 tl1 w1 with
      | Ok _ w2 | Raise _ w2 =>
          exists tl2 w3,
            MpdLocator.segment_timeline (tree w2) self = inr (Some tl2) /\
            expand_timeline self tl2 w2 = Ok tl1 w3 /\
            MpdLocator.segment_timeline (tree w3) self = inr (Some tl1)
      | OutOfFuel => False
      end.
Proof.
  intros Htl HF.
  pose proof (segment_timeline_tag _ _ Htl) as Htag.
  destruct (@expand_timeline_returns self tl entries w (encodes_states_run HF))
    as (w1 & Hexp & _ & Htree & _).
  assert (Hput : forall (mpd : Element) (tl0 tl' : Element),
             MpdLocator.segment_timeline mpd self = inr (Some tl0) ->
             tag tl' = qn "SegmentTimeline" ->
             MpdLocator.segment_timeline
               (MpdLocator.set_segment_timeline
                  (MpdLocator.set_segment_timeline mpd self (remove_segments tl'))
                  self (expansion tl entries)) self
             = inr (Some (expansion tl entries))).
  { intros mpd tl0 tl' H0 Ht'. eapply timeline_put; [|exact Htag].
    eapply timeline_put; [exact H0|]. now rewrite remove_segments_tag. }
  assert (Hin : MpdLocator.segment_timeline (tree w1) self
                = inr (Some (expansion tl entries)))
    by (rewrite Htree; now apply (Hput _ tl tl)).
  exists (expansion tl entries), w1.
  split; [exact Hexp|]. split; [exact Hin|]. split; [apply findall_expansion|].
  intros mt rep.
  pose proof (@media_loop_retimes self mt rep (findall (qn "S") (expansion tl entries))
                0 0 (expansion tl entries) w1 Hin) as Hloop.
  destruct (media_loop http_get self mt rep 0 (findall (qn "S") (expansion tl entries))
                       0 (expansion tl entries) w1) as [x w2|e w2|];
    [| |contradiction];
    destruct Hloop as (tl2 & Hf2 & Hre);
    destruct (@reexpansion self tl tl2 entries w2 Hre) as (w3 & Hagain & Htree3);
    exists tl2, w3; (split; [exact Hf2|]); (split; [exact Hagain|]);
    rewrite Htree3; apply (Hput _ tl2 tl2 Hf2);
    rewrite (retimed_tag Hre); exact Htag.
Qed.

End In_place.

Lemma reexpansion_idempotent_witness :
  exists tl1 w1,
    expand_timeline (Sample.addr 0 0) Sample.timeline (Sample.world2 "seg-$Time$.m4s")
    = Ok tl1 w1 /\
    MpdLocator.segment_timeline (tree w1) (Sample.addr 0 0) = inr (Some tl1) /\
    findall (qn "S") tl1 = created 0 Sample.entries /\
    forall (mt : Py.value) (rep : Element),
      match media_loop Sample.server_ok (Sample.addr 0 0) mt rep 0
                       (findall (qn "S") tl1) 0 tl1 w1 with
      | Ok _ w2 | Raise _ w2 =>
          exists tl2 w3,
            MpdLocator.segment_timeline (tree w2) (Sample.addr 0 0) = inr (Some tl2) /\
            expand_timeline (Sample.addr 0 0) tl2 w2 = Ok tl1 w3 /\
            MpdLocator.segment_timeline (tree w3) (Sample.addr 0 0) = inr (Some tl1)
      | OutOfFuel => False
      end.
Proof.
  apply (@reexpansion_idempotent Sample.server_ok (Sample.addr 0 0) Sample.timeline
           Sample.entries (Sample.world2 "seg-$Time$.m4s")).
  - reflexivity.
  - exact sample_encoded.
Defined.

(* ------------------------------------------------------------------ *)
(** ** Files written *)

Section Files.

Local Open Scope list_scope.

Variable http_get : nat -> string -> Response.
Variable fromstring : string -> option Element.
Variable tostring : Element -> string.

Lemma before_query (p sfx : string) :
  Py.has_any (Ascii.eqb "?") p = false ->
  sfx = EmptyString \/ (exists q, sfx = String "?" q) ->
  Py.before "?" (p ++ sfx) = p.
Proof.
  intros Hp Hs. induction p as [|c p IH]; cbn [String.append].
  - destruct Hs as [-> | (q & ->)]; reflexivity.
  - cbn [Py.has_any] in Hp. apply orb_false_iff in Hp. destruct Hp as [Hc Hp].
    cbn [Py.before]. rewrite Ascii.eqb_sym, Hc. now rewrite IH.
Qed.

(** X14.  On a success status the body is written to one file under the
    output directory: its path is the rendered path with the query string
    cut off, while the request keeps the query string. *)
Theorem download_writes_body (self : RepAddr) (template : Py.value) (hdrs cks : arg)
        (representation segment : option Element) (w : World) (d : DashDownloader)
        (p sfx : string) :
  render_template template representation segment = inr (p ++ sfx)%string ->
  Py.has_any (Ascii.eqb "?") p = false ->
  sfx = EmptyString \/ (exists q, sfx = String "?" q) ->
  lookup_downloader self (downloaders (proxy w)) = Some d ->
  success (http_get (requests w) (mpd_base_url d ++ p ++ sfx)%string) = true ->
  exists w',
    download_template http_get self template hdrs cks representation segment w
    = Ok tt w' /\
    proxy w' = proxy w /\ tree w' = tree w /\
    trace w'
    = trace w
      ++ [Log INFO "requesting %s from %s"
              [AStr (p ++ sfx)%string; AStr (mpd_base_url d ++ p ++ sfx)%string];
          Get (mpd_base_url d ++ p ++ sfx)%string hdrs cks;
          WriteFile (Py.path_join (output_dir (proxy w)) p)
                    (body (http_get (requests w) (mpd_base_url d ++ p ++ sfx)%string))].
Proof.
  intros Hr Hp Hs Hd Hok. unfold download_template, full_url, self_downloader.
  rewrite Hr. run_monad. rewrite Hd, Hok. run_monad.
  rewrite (before_query _ Hp Hs).
  eexists. split; [reflexivity|]. repeat split. cbn [trace].
  now rewrite <- !app_assoc.
Qed.

Lemma write_output_mpd_trace (m : Element) (w w' : World) :
  write_output_mpd tostring m w = Ok tt w' ->
  proxy w' = proxy w /\
  exists rest,
    trace w'
    = trace w
      ++ Log INFO "Writing the update MPD file" []
      :: WriteFile (Py.path_join (output_dir (proxy w)) "manifest.mpd") (tostring m)
      :: rest.
Proof.
  unfold write_output_mpd, write_file. run_monad.
  destruct (save_mpds (proxy w)); run_monad; intros H; inversion H; subst;
    (split; [reflexivity|]); cbn [trace]; eexists;
    rewrite <- ?app_assoc; reflexivity.
Qed.

(** X15.  A cycle that gets to its end has written the manifest as it was
    parsed to [manifest.mpd] in the output directory, whatever was done to
    the tree while the representations were driven. *)
Theorem output_manifest_is_snapshot (fuel : nat) (m : Element) (w w' : World) :
  DashProxy_handle_mpd http_get tostring
    (refresh_mpd http_get fromstring tostring fuel) m w = Ok tt w' ->
  In (WriteFile (Py.path_join (output_dir (proxy w)) "manifest.mpd") (tostring m))
     (trace w').
Proof.
  unfold DashProxy_handle_mpd. intros H.
  bind_inv H as u1 w1 Hset. inversion Hset; subst w1. clear Hset.
  bind_inv H as u2 w2 Hdrive. bind_inv H as u3 w3 Hwrite. destruct u3.
  pose proof (drive_representations_settled http_get m (set_tree m w)) as Hkept.
  rewrite Hdrive in Hkept. destruct Hkept as (Hc & _).
  assert (Hout : output_dir (proxy w2) = output_dir (proxy w)).
  { unfold config in Hc. cbn [proxy set_tree] in Hc. congruence. }
  apply write_output_mpd_trace in Hwrite. destruct Hwrite as (_ & rest & Ht3).
  assert (Hlast : adds any_event
            (if truthy (Py.dict_get "minimumUpdatePeriod" (Py.VStr "") (attrib m))
             then refresh_mpd http_get fromstring tostring fuel 10
             else info "VOD MPD. Nothing more to do. Stopping..." [])).
  { destruct (truthy _); [apply refresh_mpd_adds | now apply adds_log]. }
  destruct (@adds_Ok _ _ _ _ _ _ Hlast H) as (evs & Ht & _).
  rewrite Ht, Ht3, Hout. apply in_or_app. left. apply in_or_app. right.
  right. left. reflexivity.
Qed.

End Files.

Lemma download_writes_body_witness :
  exists w',
    download_template Sample.server_ok (Sample.addr 0 0)
      (Py.VStr "$RepresentationID$/init.mp4?token=1") (ArgDict []) (ArgDict [])
      (Some (Sample.representation "seg.m4s" Sample.timeline)) None
      (Sample.world1 "seg.m4s") = Ok tt w' /\
    proxy w' = proxy (Sample.world1 "seg.m4s") /\
    tree w' = tree (Sample.world1 "seg.m4s") /\
    trace w'
    = [Log INFO "requesting %s from %s"
           [AStr "v1/init.mp4?token=1"; AStr "http://h/a/b/v1/init.mp4?token=1"];
       Get "http://h/a/b/v1/init.mp4?token=1" (ArgDict []) (ArgDict []);
       WriteFile "out/v1/init.mp4" "http://h/a/b/v1/init.mp4?token=1"].
Proof.
  apply (@download_writes_body Sample.server_ok (Sample.addr 0 0)
           (Py.VStr "$RepresentationID$/init.mp4?token=1") (ArgDict []) (ArgDict [])
           (Some (Sample.representation "seg.m4s" Sample.timeline)) None
           (Sample.world1 "seg.m4s")
           (mkDashDownloader (Sample.addr 0 0) "http://h/a/b/" true)
           "v1/init.mp4" "?token=1");
    try reflexivity.
  right. now exists "token=1".
Defined.

Lemma output_manifest_is_snapshot_witness :
  exists w',
    DashProxy_handle_mpd Sample.server_ok Sample.serialize
      (refresh_mpd Sample.server_ok (Sample.parse "seg.m4s") Sample.serialize 0)
      (Sample.vod "seg.m4s") Sample.world0 = Ok tt w' /\
    tree w' <> Sample.vod "seg.m4s" /\
    In (WriteFile "out/manifest.mpd" (Sample.serialize (Sample.vod "seg.m4s")))
       (trace w').
Proof.
  eexists. split; [vm_compute; reflexivity|]. split; [vm_compute; discriminate|].
  apply (@output_manifest_is_snapshot Sample.server_ok (Sample.parse "seg.m4s")
           Sample.serialize 0 (Sample.vod "seg.m4s") Sample.world0).
  vm_compute. reflexivity.
Defined.

(* ------------------------------------------------------------------ *)
(** ** Sessions of a cycle *)

Lemma same_sessions_refl (w : World) : same_sessions w w.
Proof. now split. Qed.

Lemma same_sessions_trans (w1 w2 w3 : World) :
  same_sessions w1 w2 -> same_sessions w2 w3 -> same_sessions w1 w3.
Proof. intros (Hk & Hn) (Hk' & Hn'). split; congruence. Qed.

Lemma same_sessions_same_proxy (w w' : World) :
  proxy w' = proxy w -> next_oid w' = next_oid w -> same_sessions w w'.
Proof. intros Hp Hn. unfold same_sessions, session_keys. now rewrite Hp, Hn. Qed.

Create HintDb sessions.

Ltac sessions_step :=
  match goal with
  | |- steps _ (ret _) => apply steps_ret; exact same_sessions_refl
  | |- steps _ (raise _) => apply steps_raise; exact same_sessions_refl
  | |- steps _ (gets _) => apply steps_gets; exact same_sessions_refl
  | |- steps _ (lift _) => apply steps_lift; exact same_sessions_refl
  | |- steps _ (lift_opt _ _) => apply steps_lift_opt; exact same_sessions_refl
  | |- steps _ (bind _ _) =>
      apply (steps_bind same_sessions_trans); [|intros ?]
  | |- steps _ (if ?b then _ else _) => destruct b
  | |- steps _ (match ?x with _ => _ end) => destruct x
  | |- steps _ _ => solve [auto with sessions]
  end.

Ltac sessions_auto := repeat sessions_step.

Lemma log_same_sessions (lv : level) (fmt : string) (args : list logarg) :
  steps same_sessions (log lv fmt args).
Proof. intros w. now apply same_sessions_same_proxy. Qed.

Lemma emit_same_sessions (e : event) : steps same_sessions (modify (emit e)).
Proof. intros w. now apply same_sessions_same_proxy. Qed.

Lemma set_tree_same_sessions (f : World -> Element) :
  steps same_sessions (modify (fun w => set_tree (f w) w)).
Proof. intros w. now apply same_sessions_same_proxy. Qed.

Lemma update_self_same_sessions (self : RepAddr) (f : DashDownloader -> DashDownloader) :
  steps same_sessions (update_self self f).
Proof.
  intros w. unfold update_self, self_downloader, bind, gets, lift_opt, modify.
  destruct (lookup_downloader self (downloaders (proxy w))) as [d|] eqn:Hd;
    cbn; [|apply same_sessions_refl].
  split; [|reflexivity]. unfold session_keys.
  cbn [proxy set_proxy downloaders set_downloaders].
  now apply keys_store_known with (d0 := d).
Qed.

Lemma appended_same_sessions (n : nat) : steps same_sessions (appended n).
Proof.
  apply (steps_appended same_sessions_refl same_sessions_trans), log_same_sessions.
Qed.

Lemma live_representation_same_sessions (self : RepAddr) (rep : Element) :
  steps same_sessions (live_representation self rep).
Proof. apply steps_gets, same_sessions_refl. Qed.

#[local] Hint Resolve log_same_sessions emit_same_sessions set_tree_same_sessions
  update_self_same_sessions appended_same_sessions
  live_representation_same_sessions : sessions.

Section Sessions_of_a_cycle.

Local Open Scope list_scope.

Variable http_get : nat -> string -> Response.

Lemma requests_get_same_sessions (url : string) (hdrs cks : arg) :
  steps same_sessions (requests_get http_get url hdrs cks).
Proof. intros w. now apply same_sessions_same_proxy. Qed.

Hint Resolve requests_get_same_sessions : sessions.

Lemma download_template_same_sessions (self : RepAddr) (template : Py.value)
      (hdrs cks : arg) (representation segment : option Element) :
  steps same_sessions
        (download_template http_get self template hdrs cks representation segment).
Proof.
  unfold download_template, full_url, self_downloader, write, info, error.
  sessions_auto.
Qed.

Lemma download_single_same_sessions (self : RepAddr) (hdrs cks : arg) :
  steps same_sessions (download_single http_get self hdrs cks).
Proof.
  unfold download_single, full_url, self_downloader, write, info, error.
  sessions_auto.
Qed.

Hint Resolve download_template_same_sessions download_single_same_sessions : sessions.

Lemma media_loop_same_sessions (self : RepAddr) (mt : Py.value) (rep : Element)
      (segments : list Element) : forall (k : nat) (next_time : Z) (tl : Element),
  steps same_sessions (media_loop http_get self mt rep k segments next_time tl).
Proof.
  induction segments as [|s rest IH]; intros k nt tl; cbn [media_loop];
    unfold put_timeline; sessions_auto.
Qed.

Hint Resolve media_loop_same_sessions : sessions.

Lemma DashDownloader_handle_mpd_same_sessions (self : RepAddr) (base_url : string)
      (hdrs cks : arg) :
  steps same_sessions (DashDownloader_handle_mpd http_get self base_url hdrs cks).
Proof.
  unfold DashDownloader_handle_mpd, expand_timeline, put_timeline, self_downloader. sessions_auto.
Qed.

Lemma contains_key (a : RepAddr) (ds : list (RepAddr * DashDownloader)) :
  contains a ds = true -> In (oid a) (map (fun kd => oid (fst kd)) ds).
Proof.
  unfold contains. induction ds as [|[k d] ds IH]; [discriminate|].
  cbn [lookup_downloader map fst]. unfold same_object.
  destruct (oid k =? oid a)%nat eqn:Hk.
  - intros _. left. now apply Nat.eqb_eq.
  - intros H. right. now apply IH.
Qed.

Lemma not_contained (a : RepAddr) (w : World) :
  ~ In (oid a) (session_keys w) -> contains a (downloaders (proxy w)) = false.
Proof.
  intros Hn. destruct (contains a (downloaders (proxy w))) eqn:Hc; [|reflexivity].
  apply contains_key in Hc. now elim Hn.
Qed.

(** A key that is not in the dict gets a new session stored under it. *)
Lemma ensure_downloader_fresh (a : RepAddr) (w w' : World) :
  ~ In (oid a) (session_keys w) ->
  ensure_downloader http_get a w = Ok tt w' ->
  session_keys w' = session_keys w ++ [oid a] /\ next_oid w' = next_oid w.
Proof.
  intros Ha.
  pose proof (not_contained a w Ha) as Hc.
  unfold ensure_downloader. unfold bind at 1. unfold gets at 1. rewrite Hc.
  unfold bind at 1. unfold info at 1, log at 1, modify at 1.
  unfold bind at 1. unfold modify at 1. intros H.
  match type of H with
  | ?m ?w2 = _ =>
      assert (Hs : steps same_sessions m);
        [|specialize (Hs w2); rewrite H in Hs]
  end.
  { sessions_auto. apply DashDownloader_handle_mpd_same_sessions. }
  destruct Hs as (Hkeys & Hnext). rewrite Hkeys, Hnext. split; [|reflexivity].
  unfold session_keys. cbn [proxy set_proxy emit downloaders set_downloaders].
  apply keys_store_new. unfold contains in Hc.
  now destruct (lookup_downloader a (downloaders (proxy w))).
Qed.

Lemma keys_allocated_grow (w w' : World) (n : nat) :
  keys_allocated w ->
  session_keys w' = session_keys w ++ seq (next_oid w) n ->
  next_oid w' = (next_oid w + n)%nat ->
  keys_allocated w'.
Proof.
  unfold keys_allocated. intros Hk Hs Hn. rewrite Hs, Hn. apply Forall_app. split.
  - revert Hk. apply Forall_impl. intros k Hlt. lia.
  - apply Forall_forall. intros k Hin. apply in_seq in Hin. lia.
Qed.

Lemma representations_registered (as_idx : nat) (reps : list Element) :
  forall (start : nat) (w w' : World),
  keys_allocated w ->
  for_enumerate start reps
    (fun rep_idx representation =>
       verbose "Found representation with id %s"
               [AVal (Py.dict_get "id" (Py.VStr "UKN") (attrib representation))] ;;
       rep_addr <- new_RepAddr 0 as_idx rep_idx ;;
       ensure_downloader http_get rep_addr)%py w = Ok tt w' ->
  session_keys w' = session_keys w ++ seq (next_oid w) (List.length reps) /\
  next_oid w' = (next_oid w + List.length reps)%nat.
Proof.
  induction reps as [|rep reps IH]; intros start w w' Hk H; cbn [for_enumerate] in H.
  - inversion H; subst. cbn. now rewrite app_nil_r, Nat.add_0_r.
  - bind_inv H as u w1 Hbody. destruct u.
    bind_inv Hbody as u1 w2 Hlog. inversion Hlog; subst w2. clear Hlog.
    bind_inv Hbody as a w3 Hnew. inversion Hnew; subst a w3. clear Hnew.
    apply ensure_downloader_fresh in Hbody.
    2:{ change (~ In (next_oid w) (session_keys w)). intros Hin.
        unfold keys_allocated in Hk. rewrite Forall_forall in Hk.
        apply Hk in Hin. lia. }
    destruct Hbody as (Hk1 & Hn1).
    change (session_keys w1 = session_keys w ++ [next_oid w]) in Hk1.
    change (next_oid w1 = S (next_oid w)) in Hn1.
    assert (Hk1' : keys_allocated w1).
    { apply (@keys_allocated_grow w w1 1); [exact Hk | exact Hk1 | lia]. }
    destruct (IH (S start) w1 w' Hk1' H) as (Hk2 & Hn2).
    rewrite Hk2, Hk1, Hn2, Hn1. cbn [List.length seq]. split; [|lia].
    now rewrite <- app_assoc.
Qed.

Lemma adaptation_sets_registered (asets : list Element) :
  forall (start : nat) (w w' : World),
  keys_allocated w ->
  for_enumerate start asets
    (fun as_idx adaptation_set =>
       for_enumerate 0 (findall (qn "Representation") adaptation_set)
         (fun rep_idx representation =>
            verbose "Found representation with id %s"
                    [AVal (Py.dict_get "id" (Py.VStr "UKN") (attrib representation))] ;;
            rep_addr <- new_RepAddr 0 as_idx rep_idx ;;
            ensure_downloader http_get rep_addr))%py w = Ok tt w' ->
  let n := List.length
             (flat_map (fun ia =>
                          map (fun r => (0%nat, fst ia, r))
                              (seq 0 (List.length (findall (qn "Representation") (snd ia)))))
                       (combine (seq start (List.length asets)) asets)) in
  session_keys w' = session_keys w ++ seq (next_oid w) n /\
  next_oid w' = (next_oid w + n)%nat.
Proof.
  induction asets as [|aset asets IH]; intros start w w' Hk H; cbn [for_enumerate] in H.
  - inversion H; subst. cbn. now rewrite app_nil_r, Nat.add_0_r.
  - bind_inv H as u w1 Hbody. destruct u.
    apply representations_registered in Hbody; [|exact Hk].
    destruct Hbody as (Hk1 & Hn1).
    assert (Hk1' : keys_allocated w1)
      by (eapply keys_allocated_grow; eassumption).
    destruct (IH (S start) w1 w' Hk1' H) as (Hk2 & Hn2).
    cbn [List.length seq combine flat_map fst snd].
    rewrite length_app, length_map, length_seq.
    rewrite Hk2, Hn2, Hk1, Hn1, <- app_assoc, seq_app. split; [reflexivity | lia].
Qed.

(** X16.  In a world whose keys were all made before, a cycle that gets
    through the enumeration stores one new session for every AdaptationSet
    x Representation pair of the first Period, under new keys, after the
    sessions it had: no address of the cycle is found among them. *)
Theorem cycle_adds_a_session_per_representation (m : Element) (w w' : World) :
  keys_allocated w ->
  drive_representations http_get m w = Ok tt w' ->
  session_keys w'
  = session_keys w ++ seq (next_oid w) (List.length (document_order m)) /\
  List.length (downloaders (proxy w'))
  = (List.length (downloaders (proxy w)) + List.length (document_order m))%nat /\
  keys_allocated w'.
Proof.
  intros Hk H. unfold drive_representations in H.
  bind_inv H as u w1 Hlog1. inversion Hlog1; subst w1. clear Hlog1.
  bind_inv H as u1 w2 Hlog2. inversion Hlog2; subst w2. clear Hlog2.
  bind_inv H as period w3 Hperiod.
  unfold document_order.
  destruct (findall (qn "Period") m) as [|p ps]; [discriminate|].
  inversion Hperiod; subst period w3. clear Hperiod.
  apply adaptation_sets_registered in H; [|exact Hk].
  cbv zeta in H. destruct H as (Hkeys & Hnext).
  change (session_keys (emit _ (emit _ w))) with (session_keys w) in Hkeys.
  cbn [next_oid emit] in Hkeys, Hnext.
  split; [exact Hkeys|]. split.
  - apply (f_equal (@List.length _)) in Hkeys. unfold session_keys in Hkeys.
    rewrite length_app, !length_map, length_seq in Hkeys. exact Hkeys.
  - eapply keys_allocated_grow; eassumption.
Qed.

(** X17.  However [ensure_downloader] ends, the key it was given is in
    [downloaders] afterwards: a session is stored before it is driven and
    stays stored when driving it raises. *)
Theorem session_stored_before_driven (a : RepAddr) (w : World) :
  match ensure_downloader http_get a w with
  | Ok _ w' | Raise _ w' => contains a (downloaders (proxy w')) = true
  | OutOfFuel => False
  end.
Proof.
  pose proof (ensure_downloader_finishes http_get a w) as Hfin.
  unfold ensure_downloader in *. unfold bind at 1 in Hfin. unfold bind at 1.
  unfold gets at 1 in Hfin. unfold gets at 1.
  destruct (contains a (downloaders (proxy w))) eqn:Hc.
  - cbn. exact Hc.
  - unfold bind at 1 in Hfin. unfold bind at 1.
    unfold info at 1, log at 1, modify at 1 in Hfin.
    unfold info at 1, log at 1, modify at 1.
    unfold bind at 1 in Hfin. unfold bind at 1.
    unfold modify at 1 in Hfin. unfold modify at 1.
    match goal with
    | |- match ?m ?w2 with _ => _ end =>
        assert (Hs : steps settled m);
          [|specialize (Hs w2); destruct (m w2) as [u w'|e w'|]]
    end.
    + settled_auto. apply DashDownloader_handle_mpd_settled.
    + destruct Hs as (_ & Hs & _).
      destruct (Hs a (mkDashDownloader a "" false)) as (d' & Hd' & _).
      { cbn [proxy set_proxy emit downloaders set_downloaders].
        now rewrite lookup_store, same_object_refl. }
      unfold contains. now rewrite Hd'.
    + destruct Hs as (_ & Hs & _).
      destruct (Hs a (mkDashDownloader a "" false)) as (d' & Hd' & _).
      { cbn [proxy set_proxy emit downloaders set_downloaders].
        now rewrite lookup_store, same_object_refl. }
      unfold contains. now rewrite Hd'.
    + now apply Hfin.
Qed.

End Sessions_of_a_cycle.

Lemma cycle_adds_a_session_per_representation_witness :
  exists w',
    drive_representations Sample.server_ok Sample.three_files
                          (set_tree Sample.three_files Sample.world0) = Ok tt w' /\
    session_keys w' = [0; 1; 2]%nat /\
    List.length (downloaders (proxy w')) = 3%nat /\
    keys_allocated w'.
Proof.
  eexists. split; [vm_compute; reflexivity|].
  apply (@cycle_adds_a_session_per_representation Sample.server_ok Sample.three_files
           (set_tree Sample.three_files Sample.world0)).
  - constructor.
  - vm_compute. reflexivity.
Defined.

(* ------------------------------------------------------------------ *)
(** ** Waits *)

Section Waits.

Local Open Scope list_scope.

Variable http_get : nat -> string -> Response.
Variable fromstring : string -> option Element.
Variable tostring : Element -> string.

Ltac adds_waits :=
  repeat first [apply for_enumerate_adds; intros ? ? | adds_step].

Lemma requests_get_waits (url : string) (hdrs cks : arg) :
  adds waits_ten (requests_get http_get url hdrs cks).
Proof.
  intros w. exists [Get url hdrs cks].
  split; [reflexivity | constructor; [exact I | constructor]].
Qed.

Lemma new_RepAddr_waits (p a r : nat) : adds waits_ten (new_RepAddr p a r).
Proof. intros w. exists []. cbn. now rewrite app_nil_r. Qed.

Lemma update_self_waits (self : RepAddr) (f : DashDownloader -> DashDownloader) :
  adds waits_ten (update_self self f).
Proof. unfold update_self, self_downloader. adds_waits. Qed.

Hint Resolve requests_get_waits new_RepAddr_waits update_self_waits : quiet.

Lemma download_template_waits (self : RepAddr) (template : Py.value)
      (hdrs cks : arg) (representation segment : option Element) :
  adds waits_ten
       (download_template http_get self template hdrs cks representation segment).
Proof. unfold download_template, full_url, self_downloader, write. adds_waits. Qed.

Lemma download_single_waits (self : RepAddr) (hdrs cks : arg) :
  adds waits_ten (download_single http_get self hdrs cks).
Proof. unfold download_single, full_url, self_downloader, write. adds_waits. Qed.

Hint Resolve download_template_waits download_single_waits : quiet.

Lemma media_loop_waits (self : RepAddr) (mt : Py.value) (rep : Element)
      (segments : list Element) : forall (k : nat) (next_time : Z) (tl : Element),
  adds waits_ten (media_loop http_get self mt rep k segments next_time tl).
Proof.
  induction segments as [|s rest IH]; intros k nt tl; cbn [media_loop];
    unfold put_timeline; adds_waits; apply IH.
Qed.

Hint Resolve media_loop_waits : quiet.

Lemma DashDownloader_handle_mpd_waits (self : RepAddr) (base_url : string)
      (hdrs cks : arg) :
  adds waits_ten (DashDownloader_handle_mpd http_get self base_url hdrs cks).
Proof.
  unfold DashDownloader_handle_mpd, expand_timeline, put_timeline, self_downloader. adds_waits.
Qed.

Hint Resolve DashDownloader_handle_mpd_waits : quiet.

Lemma ensure_downloader_waits (a : RepAddr) :
  adds waits_ten (ensure_downloader http_get a).
Proof. unfold ensure_downloader. adds_waits. Qed.

Hint Resolve ensure_downloader_waits : quiet.

Lemma drive_representations_waits (m : Element) :
  adds waits_ten (drive_representations http_get m).
Proof. unfold drive_representations. adds_waits. Qed.

Lemma write_output_mpd_waits (m : Element) :
  adds waits_ten (write_output_mpd tostring m).
Proof. unfold write_output_mpd, write_file. adds_waits. Qed.

Hint Resolve drive_representations_waits write_output_mpd_waits : quiet.

Lemma refresh_mpd_waits (fuel : nat) : forall after,
  after <= 0 \/ after = 10 ->
  adds waits_ten (refresh_mpd http_get fromstring tostring fuel after).
Proof.
  induction fuel as [|fuel IH]; intros after Ha; cbn [refresh_mpd].
  - intros w. exact I.
  - assert (Hreq : adds waits_ten (request_mpd http_get after)).
    { unfold request_mpd, time_sleep. apply adds_bind; [adds_waits|intros _].
      apply adds_bind; [|intros _; adds_waits].
      destruct (0 <? after) eqn:Hpos; [|apply adds_ret].
      apply adds_emit. cbn. apply Z.ltb_lt in Hpos. lia. }
    assert (Hagain : adds waits_ten (refresh_mpd http_get fromstring tostring fuel 10))
      by (apply IH; now right).
    apply adds_bind; [exact Hreq | intros r].
    apply adds_bind.
    { destruct (negb (success r)); [|apply adds_ret].
      unfold warn_retry. apply adds_bind; [adds_waits | intros _; exact Hagain]. }
    intros _. apply adds_bind; [apply adds_lift_opt | intros m].
    unfold DashProxy_handle_mpd.
    apply adds_bind; [adds_waits | intros _].
    apply adds_bind; [apply drive_representations_waits | intros _].
    apply adds_bind; [apply write_output_mpd_waits | intros _].
    destruct (truthy _); [exact Hagain | adds_waits].
Qed.

(** X18.  In a run that ends, normally or with an exception, every wait
    lasted ten seconds, after a failed fetch and between the cycles of a
    live stream alike, whatever the manifests declare as
    [minimumUpdatePeriod]. *)
Theorem every_wait_is_ten_seconds (fuel : nat) (w : World) :
  match run http_get fromstring tostring fuel w with
  | Ok _ w' | Raise _ w' =>
      exists evs, trace w' = trace w ++ evs /\ Forall waits_ten evs
  | OutOfFuel => True
  end.
Proof.
  assert (Hrun : adds waits_ten (run http_get fromstring tostring fuel)).
  { unfold run. apply adds_bind; [adds_waits | intros url].
    apply adds_bind; [adds_waits | intros out].
    apply adds_bind; [adds_waits | intros _].
    apply refresh_mpd_waits. left. lia. }
  exact (Hrun w).
Qed.

End Waits.
